(** * FileAnalyzer: a shallow embedding of [file_analyzer/analyzer.py]

    The analyzer is a client of a handful of primitives of the system
    ([os.path.exists], [os.path.isdir], [os.walk], [os.path.getsize],
    [open(..., 'w')], [json.dump], [print], [str.lower]).  They are
    gathered in the record [OS]; every method of the class takes the
    record as its first argument, so each statement below holds for every
    behaviour of the system.  A concrete system built from a directory
    tree ([tree_os]) is used for the examples.

    Conventions of the embedding:
    - a Python [str] is a [string] (a sequence of bytes, UTF-8 encoded);
      [str.lower], whose Unicode tables are not embedded, is a field of
      [OS] with the three facts about it that the proofs use;
    - a Python [int] is a [Z]; a file size returned by the OS is an [N];
    - a Python [float] is the rational number it denotes ([Q]); the
      quotient of two integers is the float of 53 bits nearest to it,
      and [round(x, 2)] is the hundredth nearest to the float [x], a tie
      going to the even hundredth;
    - a [dict] is an association list in insertion order;
    - exceptions and local variables are threaded by the monad [M];
      [json.dump] and [print] can fail, as the system decides. *)

From Stdlib Require Import ZArith NArith QArith Qabs Qpower Lia Lqa.
From Stdlib Require Import List String Ascii Bool Permutation Sorted.
Import ListNotations.

Set Warnings "-register-all".

Local Open Scope string_scope.
Local Open Scope Z_scope.

(** ** Python built-ins *)

Module Py.

(** *** Strings *)

Definition lower_ascii (c : ascii) : ascii :=
  if (Ascii.leb "A" c && Ascii.leb c "Z")%bool
  then ascii_of_nat (nat_of_ascii c + 32)
  else c.

(** The string with its ASCII capitals in lower case; [s.lower()] is this
    string when [s] is ASCII text, and changes other letters too when it
    is not. *)
Fixpoint ascii_lower (s : string) : string :=
  match s with
  | EmptyString => EmptyString
  | String c s' => String (lower_ascii c) (ascii_lower s')
  end.

(** [s.isascii()] *)
Fixpoint is_ascii (s : string) : bool :=
  match s with
  | EmptyString => true
  | String c s' => (nat_of_ascii c <? 128)%nat && is_ascii s'
  end.

(** [s.startswith(pre)] *)
Definition startswith (s pre : string) : bool := String.prefix pre s.

(** [s.endswith(suf)] *)
Definition endswith (s suf : string) : bool :=
  let n := String.length s in
  let m := String.length suf in
  (m <=? n)%nat && (String.substring (n - m) m s =? suf)%string.

(** [s.rfind(c)] for a one-character [c]: the highest index of [c] in
    [s], or [-1]. *)
Fixpoint rfind_from (s : string) (c : ascii) (i : Z) : Z :=
  match s with
  | EmptyString => -1
  | String a s' =>
      let r := rfind_from s' c (i + 1) in
      if 0 <=? r then r else if Ascii.eqb a c then i else -1
  end.

Definition rfind (s : string) (c : ascii) : Z := rfind_from s c 0.

(** [s[i:i+1]] *)
Definition char_at (s : string) (i : Z) : option ascii :=
  if i <? 0 then None else String.get (Z.to_nat i) s.

(** [s[:i]] and [s[i:]] for [0 <= i] *)
Definition slice_to (s : string) (i : Z) : string :=
  String.substring 0 (Z.to_nat i) s.

Definition slice_from (s : string) (i : Z) : string :=
  String.substring (Z.to_nat i) (String.length s - Z.to_nat i) s.

(** *** Numbers *)

(** The integer nearest to [q], a tie going to the even neighbour. *)
Definition round_half_even (q : Q) : Z :=
  let n := Qnum q in
  let d := Zpos (Qden q) in
  let k := n / d in
  let r := n mod d in
  match 2 * r ?= d with
  | Lt => k
  | Gt => k + 1
  | Eq => if Z.even k then k else k + 1
  end.

(** The binade of [q]: the integer [k] with [2^k <= |q| < 2^(k+1)], for
    [q] other than 0. *)
Definition binade (q : Q) : Z :=
  let k := Z.log2 (Z.abs (Qnum q)) - Z.log2 (Zpos (Qden q)) in
  if Qle_bool (2 ^ k) (Qabs q) then k else k - 1.

(** The float nearest to [q]: a mantissa of 53 bits, a tie going to the
    even mantissa.  The exponent is not bounded: a quotient beyond the
    largest float (from [2^1024] on) is out of reach of sizes of files. *)
Definition nearest_float (q : Q) : Q :=
  if Qnum q =? 0 then 0%Q
  else
    let e := binade q - 52 in
    (inject_Z (round_half_even (q * 2 ^ (- e))) * 2 ^ e)%Q.

(** [a / b] on two ints (true division): the float nearest to the
    quotient, for [b] other than 0. *)
Definition truediv (a b : Z) : Q := nearest_float (inject_Z a / inject_Z b).

(** [round(x, 2)]: the hundredth nearest to the float [x], a tie going to
    the even hundredth.  The float Python returns is the one nearest to
    that hundredth, and prints as it. *)
Definition round2 (x : Q) : Q :=
  Qmake (round_half_even (x * inject_Z 100)%Q) 100.

(** *** Dictionaries, in insertion order *)

Definition dict (V : Type) : Type := list (string * V).

Fixpoint dict_get {V} (d : dict V) (k : string) : option V :=
  match d with
  | [] => None
  | (k', v) :: d' => if (k' =? k)%string then Some v else dict_get d' k
  end.

(** [d[k] = v]: an existing key keeps its position, a new key goes last. *)
Fixpoint dict_set {V} (d : dict V) (k : string) (v : V) : dict V :=
  match d with
  | [] => [(k, v)]
  | (k', v') :: d' =>
      if (k' =? k)%string then (k', v) :: d' else (k', v') :: dict_set d' k v
  end.

Definition keys {V} (d : dict V) : list string := map fst d.
Definition values {V} (d : dict V) : list V := map snd d.

(** [d[k]] on a [defaultdict]: the factory's value for a missing key. *)
Definition defaultdict_get {V} (default : V) (d : dict V) (k : string) : V :=
  match dict_get d k with
  | Some v => v
  | None => default
  end.

(** [sum(xs)] *)
Definition sum (xs : list Z) : Z := fold_right Z.add 0 xs.

(** [len(xs)] *)
Definition len {A} (xs : list A) : Z := Z.of_nat (List.length xs).

(** *** Sorting *)

(** Insertion into a list sorted by non-decreasing key, after the
    elements whose key is equal. *)
Fixpoint insert_by {A} (key : A -> Z) (x : A) (l : list A) : list A :=
  match l with
  | [] => [x]
  | y :: l' =>
      if key x <? key y then x :: y :: l' else y :: insert_by key x l'
  end.

(** A stable sort by non-decreasing key. *)
Definition stable_sort {A} (key : A -> Z) (l : list A) : list A :=
  fold_left (fun acc x => insert_by key x acc) l [].

(** [sorted(l, key=key, reverse=reverse)].  The sort is stable in both
    directions: with [reverse] the list is reversed, sorted, and
    reversed again, which keeps elements of equal key in their original
    order. *)
Definition sorted {A} (l : list A) (key : A -> Z) (reverse : bool) : list A :=
  if reverse then rev (stable_sort key (rev l)) else stable_sort key l.

(** [l[:n]] for [0 <= n] *)
Definition take {A} (n : nat) (l : list A) : list A := firstn n l.

End Py.

(** ** [os.path] on a POSIX system *)

Module PosixPath.
Import Py.

Definition sep : ascii := "/"%char.
Definition extsep : ascii := "."%char.

(** [os.path.join(a, b)] *)
Definition join (a b : string) : string :=
  if (startswith b (String sep EmptyString) || (a =? "")%string)%bool then b
  else if endswith a (String sep EmptyString) then a ++ b
  else a ++ String sep EmptyString ++ b.


(** The [while] loop of [genericpath._splitext]: is there a character
    other than [extsep] among the [n] characters from [filenameIndex]? *)
Fixpoint non_dot_before (p : string) (extsep : ascii) (filenameIndex : Z)
         (n : nat) : bool :=
  match n with
  | O => false
  | S n' =>
      match char_at p filenameIndex with
      | Some c =>
          if Ascii.eqb c extsep
          then non_dot_before p extsep (filenameIndex + 1) n'
          else true
      | None => true
      end
  end.

(** [genericpath._splitext(p, sep, altsep, extsep)] *)
Definition _splitext (p : string) (sep : ascii) (altsep : option ascii)
           (extsep : ascii) : string * string :=
  let sepIndex := rfind p sep in
  let sepIndex :=
    match altsep with
    | Some a => Z.max sepIndex (rfind p a)
    | None => sepIndex
    end in
  let dotIndex := rfind p extsep in
  if (sepIndex <? dotIndex)
     && non_dot_before p extsep (sepIndex + 1)
          (Z.to_nat (dotIndex - (sepIndex + 1)))
  then (slice_to p dotIndex, slice_from p dotIndex)
  else (p, "").

(** [os.path.splitext(p)] *)
Definition splitext (p : string) : string * string :=
  _splitext p sep None extsep.

End PosixPath.

(** ** Exceptions and local state *)

Module Exc.

(** [UnicodeEncodeError] is a subclass of [ValueError]: a handler of
    [ValueError] catches both. *)
Inductive exn : Type :=
| ValueError (msg : string)
| UnicodeEncodeError (msg : string)
| OSError (msg : string).

Inductive outcome (A : Type) : Type :=
| Ok (a : A)
| Raise (e : exn).

Arguments Ok {A} a.
Arguments Raise {A} e.

(** A computation over local variables [S] that returns or raises; what
    it assigned before raising stays assigned. *)
Definition M (S A : Type) : Type := S -> outcome A * S.

Definition ret {S A} (a : A) : M S A := fun s => (Ok a, s).

Definition bind {S A B} (m : M S A) (k : A -> M S B) : M S B :=
  fun s =>
    match m s with
    | (Ok a, s') => k a s'
    | (Raise e, s') => (Raise e, s')
    end.

Definition raise {S A} (e : exn) : M S A := fun s => (Raise e, s).

Definition modify {S} (f : S -> S) : M S unit := fun s => (Ok tt, f s).

(** [try: body / except OSError: handler] *)
Definition try_except_OSError {S} (body handler : M S unit) : M S unit :=
  fun s =>
    match body s with
    | (Raise (OSError _), s') => handler s'
    | r => r
    end.

(** [for x in l: body x] *)
Fixpoint for_ {S A} (l : list A) (body : A -> M S unit) : M S unit :=
  match l with
  | [] => ret tt
  | x :: l' => bind (body x) (fun _ => for_ l' body)
  end.

(** [continue] as the last statement of a loop body *)
Definition continue {S} : M S unit := ret tt.

End Exc.

Declare Scope exc_scope.
Delimit Scope exc_scope with exc.
Notation "x <- m ;; k" := (Exc.bind m (fun x => k))
  (at level 61, m at next level, right associativity) : exc_scope.
Notation "m ;;; k" := (Exc.bind m (fun _ => k))
  (at level 61, right associativity) : exc_scope.

(** ** The system, as the analyzer sees it *)

Module Sys.
Import Py Exc.

(** A JSON document, as [json.dump] writes it and [json.load] reads it. *)
Inductive json : Type :=
| JInt (z : Z)
| JFloat (q : Q)
| JStr (s : string)
| JArr (items : list json)
| JObj (members : list (string * json)).

(** What a file written by the analyzer holds: the whole text of a
    document, or a beginning of it when the writing failed on the way. *)
Inductive file_content : Type :=
| Whole (doc : json)
| Cut (doc : json).

(** The contents of the files written so far, by path. *)
Definition disk : Type := string -> option file_content.

Definition empty_disk : disk := fun _ => None.

(** A printed line: the text of an f-string, with the numbers it
    interpolates kept as numbers. *)
Inductive piece : Type :=
| Text (s : string)
| Int (z : Z)
| Float (q : Q).

Definition line : Type := list piece.

(** Why writing text to a file or to the standard output fails: the
    text cannot be encoded ([UnicodeEncodeError]: a name with bytes that
    are no UTF-8, an output that is not UTF-8), or the write itself fails
    ([OSError]: a full disk, a closed pipe). *)
Inductive stream_error : Type :=
| NotEncodable (msg : string)
| NotWritable (msg : string).

Definition exn_of (e : stream_error) : exn :=
  match e with
  | NotEncodable msg => UnicodeEncodeError msg
  | NotWritable msg => OSError msg
  end.

(** [str.lower], with what is used of it: on ASCII text it lowers the
    capitals [A] to [Z]; a leading dot stays a leading dot; its result
    holds no ASCII capital. *)
Record Lowering : Type := {
  lower_of : string -> string;
  lower_of_ascii :
    forall s, is_ascii s = true -> lower_of s = ascii_lower s;
  lower_of_dot :
    forall e, exists e', lower_of (String "."%char e) = String "."%char e';
  lower_of_no_capital :
    forall s, ascii_lower (lower_of s) = lower_of s
}.

Record OS : Type := {
  (** [os.path.exists(p)] *)
  os_path_exists : string -> bool;
  (** [os.path.isdir(p)] *)
  os_path_isdir : string -> bool;
  (** [os.walk(top)]: the triples [(root, dirs, files)] in the order the
      generator yields them; an unreadable or missing directory yields
      nothing *)
  os_walk : string -> list (string * list string * list string);
  (** [os.path.getsize(p)]; [None] when the call raises [OSError] *)
  os_path_getsize : string -> option N;
  (** whether [open(p, 'w')] succeeds; it raises [OSError] otherwise *)
  os_open_w : string -> bool;
  (** [json.dump(doc, f)] on the file opened at [p], and the closing of
      the file: [None] when the whole document is written *)
  os_json_dump : string -> json -> option stream_error;
  (** [print(l)] after the lines [out] were printed: [None] when the
      line is printed *)
  os_print : list line -> line -> option stream_error;
  (** [str.lower] *)
  os_str : Lowering
}.

(** [s.lower()] *)
Definition str_lower (os : OS) (s : string) : string := lower_of (os_str os) s.

(** [os.path.getsize(p)] as a statement of a method body *)
Definition getsize {S} (os : OS) (p : string) : M S Z :=
  match os_path_getsize os p with
  | Some n => ret (Z.of_N n)
  | None => raise (OSError p)
  end.

(** The file at [p] holds [c]. *)
Definition store (p : string) (c : file_content) (d : disk) : disk :=
  fun q => if (q =? p)%string then Some c else d q.

(** [with open(p, 'w') as f: json.dump(doc, f)]: when [open] fails its
    [OSError] leaves and no file changes; otherwise the file at [p] is
    created or truncated, then holds [doc]; when [json.dump] fails on
    the way its exception leaves and the file holds what was written. *)
Definition write_json (os : OS) (p : string) (doc : json) : M disk unit :=
  if os_open_w os p then
    match os_json_dump os p doc with
    | None => modify (store p (Whole doc))
    | Some e => bind (modify (store p (Cut doc))) (fun _ => raise (exn_of e))
    end
  else raise (OSError p).

(** [str.lower] on ASCII text, for the examples. *)
Definition ascii_lower_no_capital (s : string) :
  ascii_lower (ascii_lower s) = ascii_lower s.
Proof.
  induction s as [|c s IH]; simpl; [reflexivity|]. rewrite IH. f_equal.
  destruct c as [[] [] [] [] [] [] [] []]; reflexivity.
Qed.

Definition ascii_text : Lowering :=
  {| lower_of := ascii_lower;
     lower_of_ascii := fun s _ => eq_refl;
     lower_of_dot := fun e => ex_intro _ (ascii_lower e) eq_refl;
     lower_of_no_capital := ascii_lower_no_capital |}.

End Sys.

(** ** A file system given by a directory tree *)

Module Tree.
Import Py PosixPath Sys.

(** A directory: its non-directory entries, each with the size
    [os.path.getsize] reports ([None] when it cannot be read), and its
    sub-directories. *)
Inductive dtree : Type :=
| Dir (files : list (string * option N)) (subdirs : list (string * dtree)).

(** [os.walk(top)], top-down. *)
Fixpoint tree_walk (top : string) (t : dtree)
  : list (string * list string * list string) :=
  match t with
  | Dir files subdirs =>
      (top, map fst subdirs, map fst files)
      :: flat_map (fun '(name, t') => tree_walk (join top name) t') subdirs
  end.

(** The size of every file of the tree, by full path. *)
Fixpoint tree_sizes (top : string) (t : dtree) : list (string * option N) :=
  match t with
  | Dir files subdirs =>
      (map (fun f => (join top (fst f), snd f)) files
       ++ flat_map (fun '(name, t') => tree_sizes (join top name) t') subdirs)%list
  end.

(** Every directory of the tree, by full path. *)
Fixpoint tree_dirs (top : string) (t : dtree) : list (string * dtree) :=
  match t with
  | Dir files subdirs =>
      (top, t)
      :: flat_map (fun '(name, t') => tree_dirs (join top name) t') subdirs
  end.

Definition at_path {X} (p : string) (e : string * X) : bool :=
  (fst e =? p)%string.

Definition tree_getsize (top : string) (t : dtree) (p : string) : option N :=
  match find (at_path p) (tree_sizes top t) with
  | Some (_, size) => size
  | None => None
  end.

(** The system that holds the tree [t] at the path [top], and nothing
    else; every path can be written and every line printed. *)
Definition tree_os_with (lowering : Lowering) (top : string) (t : dtree) : OS :=
  {| os_path_exists p :=
       existsb (at_path p) (tree_dirs top t)
       || existsb (at_path p) (tree_sizes top t);
     os_path_isdir p := existsb (at_path p) (tree_dirs top t);
     os_walk p :=
       match find (at_path p) (tree_dirs top t) with
       | Some (_, t') => tree_walk p t'
       | None => []
       end;
     os_path_getsize := tree_getsize top t;
     os_open_w _ := true;
     os_json_dump _ _ := None;
     os_print _ _ := None;
     os_str := lowering |}.

(** The same, for a tree whose names are ASCII text. *)
Definition tree_os (top : string) (t : dtree) : OS :=
  tree_os_with ascii_text top t.

End Tree.

(** ** [class FileAnalyzer] *)

Module FileAnalyzer.
Import Py PosixPath Exc Sys.
Local Open Scope exc_scope.

Record t : Type := { directory : string }.

(** [FileAnalyzer(directory)] *)
Definition __init__ (os : OS) (directory : string) : outcome t :=
  if negb (os_path_exists os directory) then
    Raise (ValueError ("Директория " ++ directory ++ " не существует"))
  else if negb (os_path_isdir os directory) then
    Raise (ValueError (directory ++ " не является директорией"))
  else
    Ok {| directory := directory |}.

(** [files_by_ext[ext].append(file_path)] on a [defaultdict(list)] *)
Definition append_to (files_by_ext : dict (list string)) (ext file_path : string)
  : dict (list string) :=
  dict_set files_by_ext ext
    (defaultdict_get [] files_by_ext ext ++ [file_path])%list.

(** [get_files_by_extension(extensions)] *)
Definition get_files_by_extension (os : OS) (self : t)
           (extensions : option (list string)) : dict (list string) :=
  fold_left
    (fun files_by_ext '(root, dirs, files) =>
       fold_left
         (fun files_by_ext file =>
            let file_path := join root file in
            let ext := snd (splitext file) in
            let ext := str_lower os ext in
            if match extensions with
               | None => true
               | Some exts => existsb (String.eqb ext) exts
               end
            then append_to files_by_ext ext file_path
            else files_by_ext)
         files files_by_ext)
    (os_walk os (directory self)) [].

(** The dictionary [get_file_stats] returns. *)
Record FileStats : Type := {
  total_files : Z;
  total_size_bytes : Z;
  total_size_mb : Q;
  extensions_count : dict Z
}.

(** The local variables of [get_file_stats]. *)
Record stats_locals : Type := {
  v_total_files : Z;
  v_total_size : Z;
  v_extensions_count : dict Z
}.

Definition add_total_size (n : Z) (s : stats_locals) : stats_locals :=
  {| v_total_files := v_total_files s;
     v_total_size := v_total_size s + n;
     v_extensions_count := v_extensions_count s |}.

Definition add_total_files (n : Z) (s : stats_locals) : stats_locals :=
  {| v_total_files := v_total_files s + n;
     v_total_size := v_total_size s;
     v_extensions_count := v_extensions_count s |}.

(** [extensions_count[ext] += 1] on a [defaultdict(int)] *)
Definition incr (extensions_count : dict Z) (ext : string) : dict Z :=
  dict_set extensions_count ext (defaultdict_get 0 extensions_count ext + 1).

Definition incr_extension (ext : string) (s : stats_locals) : stats_locals :=
  {| v_total_files := v_total_files s;
     v_total_size := v_total_size s;
     v_extensions_count := incr (v_extensions_count s) ext |}.

(** The body of the inner loop of [get_file_stats]. *)
Definition stats_body (os : OS) (root file : string) : M stats_locals unit :=
  let file_path := join root file in
  try_except_OSError
    (file_size <- getsize os file_path ;;
     modify (add_total_size file_size) ;;;
     modify (add_total_files 1) ;;;
     let ext := snd (splitext file) in
     modify (incr_extension (str_lower os ext)))
    continue.

Definition stats_loop (os : OS) (self : t) : M stats_locals unit :=
  for_ (os_walk os (directory self))
    (fun '(root, dirs, files) => for_ files (stats_body os root)).

(** [get_file_stats()] *)
Definition get_file_stats (os : OS) (self : t) : outcome FileStats :=
  let locals :=
    {| v_total_files := 0; v_total_size := 0; v_extensions_count := [] |} in
  match stats_loop os self locals with
  | (Ok _, s) =>
      Ok {| total_files := v_total_files s;
            total_size_bytes := v_total_size s;
            total_size_mb := round2 (truediv (v_total_size s) (1024 * 1024));
            extensions_count := v_extensions_count s |}
  | (Raise e, _) => Raise e
  end.

(** An element of the list [find_large_files] returns. *)
Record LargeFile : Type := {
  path : string;
  size_bytes : Z;
  size_mb : Q
}.

(** The body of the inner loop of [find_large_files]; the local variable
    is the list [large_files]. *)
Definition large_body (os : OS) (min_size_bytes : Q) (root file : string)
  : M (list LargeFile) unit :=
  let file_path := join root file in
  try_except_OSError
    (file_size <- getsize os file_path ;;
     if Qle_bool min_size_bytes (inject_Z file_size) then
       modify (fun large_files =>
                 large_files
                 ++ [ {| path := file_path;
                         size_bytes := file_size;
                         size_mb := round2 (truediv file_size (1024 * 1024)) |} ])%list
     else ret tt)
    continue.

Definition large_loop (os : OS) (self : t) (min_size_bytes : Q)
  : M (list LargeFile) unit :=
  for_ (os_walk os (directory self))
    (fun '(root, dirs, files) => for_ files (large_body os min_size_bytes root)).

(** [find_large_files(min_size_mb)] *)
Definition find_large_files (os : OS) (self : t) (min_size_mb : Q)
  : outcome (list LargeFile) :=
  let min_size_bytes := (min_size_mb * inject_Z 1024 * inject_Z 1024)%Q in
  match large_loop os self min_size_bytes [] with
  | (Ok _, large_files) => Ok (sorted large_files size_bytes true)
  | (Raise e, _) => Raise e
  end.

(** The default values of [min_size_mb] and [output_file]. *)
Definition default_min_size_mb : Q := inject_Z 10.
Definition default_output_file : string := "file_report.json".

(** The dictionary [report] of [generate_report]. *)
Record Report : Type := {
  r_directory : string;
  r_statistics : FileStats;
  r_files_by_extension : dict (list string);
  r_large_files : list LargeFile
}.

(** The JSON objects [json.dump] makes of the dictionaries, key by key in
    the order the source writes them. *)
Definition json_of_stats (s : FileStats) : json :=
  JObj [ ("total_files", JInt (total_files s));
         ("total_size_bytes", JInt (total_size_bytes s));
         ("total_size_mb", JFloat (total_size_mb s));
         ("extensions_count",
          JObj (map (fun kv => (fst kv, JInt (snd kv))) (extensions_count s))) ].

Definition json_of_large_file (f : LargeFile) : json :=
  JObj [ ("path", JStr (path f));
         ("size_bytes", JInt (size_bytes f));
         ("size_mb", JFloat (size_mb f)) ].

Definition json_of_report (r : Report) : json :=
  JObj [ ("directory", JStr (r_directory r));
         ("statistics", json_of_stats (r_statistics r));
         ("files_by_extension",
          JObj (map (fun kv => (fst kv, JArr (map JStr (snd kv))))
                  (r_files_by_extension r)));
         ("large_files", JArr (map json_of_large_file (r_large_files r))) ].

(** The result of a method call, which touches no local variable of the
    caller. *)
Definition call {S A} (r : outcome A) : M S A := fun s => (r, s).

(** [generate_report(output_file)]; the state is the disk. *)
Definition generate_report (os : OS) (self : t) (output_file : string)
  : M disk string :=
  stats <- call (get_file_stats os self) ;;
  let files_by_ext := get_files_by_extension os self None in
  large_files <- call (find_large_files os self default_min_size_mb) ;;
  let report :=
    {| r_directory := directory self;
       r_statistics := stats;
       r_files_by_extension := files_by_ext;
       r_large_files := take 10 large_files |} in
  let output_path := join (directory self) output_file in
  write_json os output_path (json_of_report report) ;;;
  ret output_path.

End FileAnalyzer.

(** ** Specification vocabulary *)

Module Spec.
Import Py PosixPath Exc Sys Tree FileAnalyzer.

(** The extension key of a file name. *)
Definition ExtensionKey (os : OS) (file : string) : string :=
  str_lower os (snd (splitext file)).

(** The files of the traversal, each with the directory that lists it, in
    the order of encounter. *)
Definition walk_files (os : OS) (self : FileAnalyzer.t) : list (string * string) :=
  flat_map (fun '(root, dirs, files) => map (pair root) files)
    (os_walk os (directory self)).

(** A file of the traversal whose size can be read. *)
Record sized_file : Type := {
  sf_path : string;
  sf_name : string;
  sf_size : Z
}.

Definition sized (os : OS) (rf : string * string) : list sized_file :=
  match os_path_getsize os (join (fst rf) (snd rf)) with
  | Some n => [ {| sf_path := join (fst rf) (snd rf);
                   sf_name := snd rf;
                   sf_size := Z.of_N n |} ]
  | None => []
  end.

(** The accessible files of the traversal, in the order of encounter. *)
Definition accessible_files (os : OS) (self : FileAnalyzer.t) : list sized_file :=
  flat_map (sized os) (walk_files os self).

(** No file of the traversal is inaccessible. *)
Definition all_accessible (os : OS) (self : FileAnalyzer.t) : Prop :=
  forall rf, In rf (walk_files os self) ->
             os_path_getsize os (join (fst rf) (snd rf)) <> None.

(** The size of the file can be read. *)
Definition readable (os : OS) (root file : string) : bool :=
  match os_path_getsize os (join root file) with
  | Some _ => true
  | None => false
  end.

(** The same system, where the traversal does not list the files whose
    size cannot be read. *)
Definition without_inaccessible (os : OS) : OS :=
  {| os_path_exists := os_path_exists os;
     os_path_isdir := os_path_isdir os;
     os_walk top :=
       map (fun '(root, dirs, files) =>
              (root, dirs, filter (readable os root) files))
         (os_walk os top);
     os_path_getsize := os_path_getsize os;
     os_open_w := os_open_w os;
     os_json_dump := os_json_dump os;
     os_print := os_print os;
     os_str := os_str os |}.

(** The entry of an accessible file in the list of large files. *)
Definition entry_of (f : sized_file) : LargeFile :=
  {| path := sf_path f;
     size_bytes := sf_size f;
     size_mb := round2 (truediv (sf_size f) (1024 * 1024)) |}.

(** A size is at or above a threshold given in megabytes. *)
Definition at_least_mb (min_size_mb : Q) (size : Z) : bool :=
  Qle_bool (min_size_mb * inject_Z 1048576)%Q (inject_Z size).

(** The large files in the order the traversal meets them. *)
Definition encounter_order (os : OS) (self : FileAnalyzer.t) (min_size_mb : Q)
  : list LargeFile :=
  map entry_of
    (filter (fun f => at_least_mb min_size_mb (sf_size f))
       (accessible_files os self)).

(** What counting one accessible file does to the local variables of
    [get_file_stats]. *)
Definition count_file (os : OS) (s : stats_locals) (f : sized_file)
  : stats_locals :=
  incr_extension (ExtensionKey os (sf_name f))
    (add_total_files 1 (add_total_size (sf_size f) s)).

(** The local variables of [get_file_stats] before the loop. *)
Definition no_file : stats_locals :=
  {| v_total_files := 0; v_total_size := 0; v_extensions_count := [] |}.

(** The result of [get_file_stats] for the final local variables. *)
Definition stats_of (s : stats_locals) : FileStats :=
  {| total_files := v_total_files s;
     total_size_bytes := v_total_size s;
     total_size_mb := round2 (truediv (v_total_size s) (1024 * 1024));
     extensions_count := v_extensions_count s |}.





(** Orders by key, and the test for a given key. *)
Definition ascending {A} (key : A -> Z) (a b : A) : Prop := key a <= key b.
Definition descending {A} (key : A -> Z) (a b : A) : Prop := key b <= key a.
Definition has_key {A} (key : A -> Z) (z : Z) (a : A) : bool := key a =? z.

(** The filter of [get_files_by_extension]. *)
Definition selected (extensions : option (list string)) (ext : string) : bool :=
  match extensions with
  | None => true
  | Some exts => existsb (String.eqb ext) exts
  end.

(** What meeting one file does to the dictionary of
    [get_files_by_extension]. *)
Definition classify (os : OS) (extensions : option (list string))
           (files_by_ext : dict (list string)) (rf : string * string)
  : dict (list string) :=
  if selected extensions (ExtensionKey os (snd rf))
  then append_to files_by_ext (ExtensionKey os (snd rf)) (join (fst rf) (snd rf))
  else files_by_ext.

(** A message mentions a phrase. *)
Definition mentions (msg phrase : string) : Prop :=
  exists before after, msg = before ++ phrase ++ after.

(** The same, as a test. *)
Fixpoint contains (msg phrase : string) : bool :=
  String.prefix phrase msg
  || match msg with
     | EmptyString => false
     | String _ msg' => contains msg' phrase
     end.

(** [tree_file top t name p]: the tree [t] rooted at the path [top] holds,
    at any depth, a file called [name] whose full path is [p]. *)
Inductive tree_file : string -> dtree -> string -> string -> Prop :=
| tree_file_here top files subdirs name size :
    In (name, size) files ->
    tree_file top (Dir files subdirs) name (join top name)
| tree_file_below top files subdirs d t' name p :
    In (d, t') subdirs ->
    tree_file (join top d) t' name p ->
    tree_file top (Dir files subdirs) name p.

(** The paths of the traversal whose extension key is [k], in order. *)
Definition paths_with_key (os : OS) (self : FileAnalyzer.t) (k : string)
  : list string :=
  map (fun rf => join (fst rf) (snd rf))
    (filter (fun rf => (ExtensionKey os (snd rf) =? k)%string)
       (walk_files os self)).

(** The number of accessible files whose extension key is [k]. *)
Definition count_with_key (os : OS) (self : FileAnalyzer.t) (k : string) : Z :=
  len (filter (fun f => (ExtensionKey os (sf_name f) =? k)%string)
         (accessible_files os self)).

(** The report of [generate_report], from the traversal. *)
Definition report_of (os : OS) (self : FileAnalyzer.t) : Report :=
  {| r_directory := directory self;
     r_statistics :=
       stats_of (fold_left (count_file os) (accessible_files os self) no_file);
     r_files_by_extension := get_files_by_extension os self None;
     r_large_files :=
       firstn 10
         (sorted (encounter_order os self default_min_size_mb) size_bytes true) |}.

(** The disk after [doc] is written at the path [p]. *)
Definition written (d : disk) (p : string) (doc : json) : disk :=
  fun q => if (q =? p)%string then Some (Whole doc) else d q.

(** The disk after the writing of [doc] at the path [p] failed on the
    way. *)
Definition cut_short (d : disk) (p : string) (doc : json) : disk :=
  fun q => if (q =? p)%string then Some (Cut doc) else d q.

(** The JSON object of a large file, member by member. *)
Definition entry_object (path : string) (size_bytes : Z) (size_mb : Q) : json :=
  JObj [ ("path", JStr path);
         ("size_bytes", JInt size_bytes);
         ("size_mb", JFloat size_mb) ].

(** The path and size of a large file, and of an accessible file. *)
Definition entry_key (e : LargeFile) : string * Z := (path e, size_bytes e).
Definition file_key (f : sized_file) : string * Z := (sf_path f, sf_size f).

(** The keys of a JSON object. *)
Definition fields (doc : json) : list string :=
  match doc with
  | JObj members => map fst members
  | _ => []
  end.

(** The member of a JSON object under a key. *)
Definition field (doc : json) (k : string) : option json :=
  match doc with
  | JObj members => dict_get members k
  | _ => None
  end.

(** A string of dots. *)
Fixpoint all_dots (s : string) : bool :=
  match s with
  | EmptyString => true
  | String c s' => Ascii.eqb c extsep && all_dots s'
  end.

End Spec.

(** ** Example file systems *)

Module Examples.
Import Py Sys Tree FileAnalyzer.

(** Three files, one without extension. *)
Definition three_files : dtree :=
  Dir [("a.py", Some 15%N); ("b.TXT", Some 20%N); ("c", Some 5%N)] [].

(** A tree with a sub-directory, an unreadable file, a hidden file and
    two files of the same size. *)
Definition project : dtree :=
  Dir [("a.py", Some 15%N); ("b.TXT", Some 20%N); ("c", Some 5%N)]
      [("sub", Dir [("big.bin", Some 20000000%N);
                    ("x.tar.gz", None);
                    (".bashrc", Some 131072%N);
                    ("twin.py", Some 15%N)] [])].

Definition at_tmp_d : FileAnalyzer.t := {| directory := "/tmp/d" |}.
Definition at_tmp_u : FileAnalyzer.t := {| directory := "/tmp/u" |}.

(** [str.lower] on text of ASCII, Latin-1 and Cyrillic letters: the
    capitals [U+00C0] to [U+00DE], [U+0400] to [U+040F] and [U+0410] to
    [U+042F], two bytes each in UTF-8, beside [A] to [Z]. *)
Definition between (lo hi : nat) (c : ascii) : bool :=
  ((lo <=? nat_of_ascii c) && (nat_of_ascii c <=? hi))%nat.

Definition shift (c : ascii) (d : nat) : ascii :=
  ascii_of_nat (nat_of_ascii c + d).

Definition unshift (c : ascii) (d : nat) : ascii :=
  ascii_of_nat (nat_of_ascii c - d).

Fixpoint lower_letters (s : string) : string :=
  match s with
  | EmptyString => EmptyString
  | String c s' =>
      match s' with
      | EmptyString => String (lower_ascii c) EmptyString
      | String c2 s'' =>
          if (nat_of_ascii c =? 195)%nat && between 128 158 c2
             && negb (nat_of_ascii c2 =? 151)%nat
          then String c (String (shift c2 32) (lower_letters s''))
          else if (nat_of_ascii c =? 208)%nat && between 144 159 c2
          then String c (String (shift c2 32) (lower_letters s''))
          else if (nat_of_ascii c =? 208)%nat && between 160 175 c2
          then String (shift c 1) (String (unshift c2 32) (lower_letters s''))
          else if (nat_of_ascii c =? 208)%nat && between 128 143 c2
          then String (shift c 1) (String (shift c2 16) (lower_letters s''))
          else String (lower_ascii c) (lower_letters s')
      end
  end.

Definition lower_letters_ascii (s : string) :
  is_ascii s = true -> lower_letters s = ascii_lower s.
Proof.
  induction s as [|c s IH]; [reflexivity|].
  intros H. cbn [is_ascii] in H. apply andb_true_iff in H.
  destruct H as [Hc Hs]. specialize (IH Hs).
  destruct s as [|c2 s]; [reflexivity|].
  cbn [lower_letters ascii_lower] in *.
  assert (E195 : (nat_of_ascii c =? 195)%nat = false).
  { apply Nat.eqb_neq. apply Nat.ltb_lt in Hc. lia. }
  assert (E208 : (nat_of_ascii c =? 208)%nat = false).
  { apply Nat.eqb_neq. apply Nat.ltb_lt in Hc. lia. }
  rewrite E195, E208. cbn [andb]. f_equal. exact IH.
Qed.

Definition lower_letters_dot (e : string) :
  exists e', lower_letters (String "."%char e) = String "."%char e'.
Proof.
  destruct e as [|c e]; eexists; reflexivity.
Qed.

Definition high_byte (c : ascii) : lower_ascii c = c \/ (nat_of_ascii c < 128)%nat.
Proof.
  destruct c as [[] [] [] [] [] [] [] []];
    first [left; reflexivity|right; apply Nat.ltb_lt; reflexivity].
Qed.

Definition lower_letters_no_capital (s : string) :
  ascii_lower (lower_letters s) = lower_letters s.
Proof.
  assert (Hidem : forall c, lower_ascii (lower_ascii c) = lower_ascii c).
  { intros c. destruct c as [[] [] [] [] [] [] [] []]; reflexivity. }
  assert (Hshift : forall c lo hi d,
             between lo hi c = true -> (128 <= lo + d)%nat ->
             (hi + d < 256)%nat ->
             lower_ascii (shift c d) = shift c d).
  { intros c lo hi d Hb Hlo Hhi. unfold between in Hb.
    apply andb_true_iff in Hb. destruct Hb as [H1 H2].
    apply Nat.leb_le in H1, H2. unfold shift.
    destruct (high_byte (ascii_of_nat (nat_of_ascii c + d))) as [E|E];
      [exact E|].
    rewrite nat_ascii_embedding in E by lia. lia. }
  assert (H : forall n s, (String.length s <= n)%nat ->
                          ascii_lower (lower_letters s) = lower_letters s).
  { induction n as [|n IH]; intros s0 Hn.
    - destruct s0; [reflexivity|simpl in Hn; lia].
    - destruct s0 as [|c [|c2 s2]]; [reflexivity| |].
      + simpl. rewrite Hidem. reflexivity.
      + cbn [lower_letters].
        assert (IH1 : ascii_lower (lower_letters (String c2 s2))
                      = lower_letters (String c2 s2)).
        { apply IH. simpl in *. lia. }
        assert (IH2 : ascii_lower (lower_letters s2) = lower_letters s2).
        { apply IH. simpl in *. lia. }
        assert (Hc : forall k, (nat_of_ascii c =? k)%nat = true ->
                               (128 <= k)%nat -> lower_ascii c = c).
        { intros k Hk Hge. apply Nat.eqb_eq in Hk.
          destruct (high_byte c) as [E|E]; [exact E|lia]. }
        assert (Hc1 : (nat_of_ascii c =? 208)%nat = true ->
                      lower_ascii (shift c 1) = shift c 1).
        { intros Hk. apply Nat.eqb_eq in Hk. unfold shift. rewrite Hk.
          reflexivity. }
        destruct ((nat_of_ascii c =? 195)%nat && between 128 158 c2
                  && negb (nat_of_ascii c2 =? 151)%nat) eqn:E1.
        { apply andb_true_iff in E1. destruct E1 as [E1 _].
          apply andb_true_iff in E1. destruct E1 as [Ec Eb].
          cbn [ascii_lower]. rewrite (Hc 195%nat Ec), IH2 by lia.
          rewrite (Hshift c2 128%nat 158%nat 32%nat Eb) by lia. reflexivity. }
        destruct ((nat_of_ascii c =? 208)%nat && between 144 159 c2) eqn:E2.
        { apply andb_true_iff in E2. destruct E2 as [Ec Eb].
          cbn [ascii_lower]. rewrite (Hc 208%nat Ec), IH2 by lia.
          rewrite (Hshift c2 144%nat 159%nat 32%nat Eb) by lia. reflexivity. }
        destruct ((nat_of_ascii c =? 208)%nat && between 160 175 c2) eqn:E3.
        { apply andb_true_iff in E3. destruct E3 as [Ec Eb].
          cbn [ascii_lower]. rewrite (Hc1 Ec), IH2.
          unfold between in Eb. apply andb_true_iff in Eb.
          destruct Eb as [H1 H2]. apply Nat.leb_le in H1, H2.
          unfold unshift.
          destruct (high_byte (ascii_of_nat (nat_of_ascii c2 - 32))) as [E|E].
          - rewrite E. reflexivity.
          - rewrite nat_ascii_embedding in E by lia. lia. }
        destruct ((nat_of_ascii c =? 208)%nat && between 128 143 c2) eqn:E4.
        { apply andb_true_iff in E4. destruct E4 as [Ec Eb].
          cbn [ascii_lower]. rewrite (Hc1 Ec), IH2.
          rewrite (Hshift c2 128%nat 143%nat 16%nat Eb) by lia. reflexivity. }
        change (ascii_lower
                  (String (lower_ascii c) (lower_letters (String c2 s2)))
                = String (lower_ascii c) (lower_letters (String c2 s2))).
        cbn [ascii_lower]. rewrite Hidem, IH1. reflexivity. }
  apply (H (String.length s)). lia.
Qed.

Definition letters : Lowering :=
  {| lower_of := lower_letters;
     lower_of_ascii := lower_letters_ascii;
     lower_of_dot := lower_letters_dot;
     lower_of_no_capital := lower_letters_no_capital |}.

(** Names with letters beyond ASCII. *)
Definition reports : dtree :=
  Dir [("доклад.ТХТ", Some 10%N); ("a.Ä", Some 20%N); ("b.ä", Some 30%N);
       ("lost.Я", None); ("Notes.TXT", Some 40%N)] [].

End Examples.

(** ** [main()], the command line *)

Module Cli.
Import Py PosixPath Exc Sys FileAnalyzer.
Local Open Scope exc_scope.

(** What [main] can change: the standard output and the disk. *)
Record world : Type := {
  stdout : list line;
  files : disk
}.

(** [print(l)]: the standard output holds the lines that were printed;
    a line whose printing fails is not among them. *)
Definition print (os : OS) (l : line) : M world unit :=
  fun w =>
    match os_print os (stdout w) l with
    | None => (Ok tt, {| stdout := (stdout w ++ [l])%list; files := files w |})
    | Some e => (Raise (exn_of e), w)
    end.

(** A method that writes to the disk, run from [main]. *)
Definition on_disk {A} (m : M disk A) : M world A :=
  fun w =>
    match m (files w) with
    | (r, d) => (r, {| stdout := stdout w; files := d |})
    end.

(** [try: body / except ValueError as e: handler str(e)] *)
Definition try_except_ValueError {S} (body : M S unit)
           (handler : string -> M S unit) : M S unit :=
  fun s =>
    match body s with
    | (Raise (ValueError msg), s') => handler msg s'
    | (Raise (UnicodeEncodeError msg), s') => handler msg s'
    | r => r
    end.

(** [s * n] *)
Fixpoint str_mul (s : string) (n : nat) : string :=
  match n with
  | O => ""
  | S n' => s ++ str_mul s n'
  end.

(** The character ["\n"]. *)
Definition newline : string := String (ascii_of_nat 10) "".

(** The body of the loop over [stats['extensions_count'].items()]. *)
Definition print_extension (os : OS) (item : string * Z) : M world unit :=
  let '(ext, count) := item in
  let ext_display := if (ext =? "")%string then "без расширения" else ext in
  print os [Text ("  " ++ ext_display ++ ": "); Int count].

(** The body of the loop over [large_files[:5]]. *)
Definition print_large_file (os : OS) (file_info : LargeFile) : M world unit :=
  print os [Text "  "; Float (size_mb file_info);
            Text (" МБ: " ++ path file_info)].

(** [main()], with [sys.argv] as argument. *)
Definition main (os : OS) (argv : list string) : M world unit :=
  if negb (len argv =? 2) then
    print os [Text "Использование: python analyzer.py <путь_к_директории>"]
  else
    let directory := nth 1 argv "" in
    try_except_ValueError
      (analyzer <- call (__init__ os directory) ;;
       print os [Text ("Анализ директории: " ++ directory)] ;;;
       print os [Text (str_mul "-" 50)] ;;;
       stats <- call (get_file_stats os analyzer) ;;
       print os [Text "Всего файлов: "; Int (total_files stats)] ;;;
       print os [Text "Общий размер: "; Float (total_size_mb stats); Text " МБ"] ;;;
       print os [Text (newline ++ "Типы файлов:")] ;;;
       for_ (extensions_count stats) (print_extension os) ;;;
       large_files <- call (find_large_files os analyzer (inject_Z 5)) ;;
       match large_files with
       | [] => ret tt
       | _ :: _ =>
           print os [Text (newline ++ "Большие файлы (>5 МБ):")] ;;;
           for_ (take 5 large_files) (print_large_file os)
       end ;;;
       report_path <- on_disk (generate_report os analyzer default_output_file) ;;
       print os [Text (newline ++ "Отчет сохранен: " ++ report_path)])
      (fun e => print os [Text ("Ошибка: " ++ e)]).

End Cli.

(** ** Further vocabulary *)

Module Observations.
Import Py PosixPath Exc Sys Tree FileAnalyzer Spec Cli.

(** A key joins the keys seen so far, at the end, unless it is there. *)
Definition add_key (ks : list string) (k : string) : list string :=
  if existsb (String.eqb k) ks then ks else (ks ++ [k])%list.

(** The distinct keys of a sequence, each at its first occurrence. *)
Definition first_seen (ks : list string) : list string :=
  fold_left add_key ks [].

(** A string that can be an extension key: lower-case, and empty or
    starting with a dot. *)
Definition possible_key (e : string) : bool :=
  (ascii_lower e =? e)%string && ((e =? "")%string || String.prefix "." e).

(** The files of the traversal whose size cannot be read. *)
Definition inaccessible_files (os : OS) (self : FileAnalyzer.t)
  : list (string * string) :=
  filter (fun rf => negb (readable os (fst rf) (snd rf))) (walk_files os self).

(** An entry is at or above a threshold given in megabytes. *)
Definition large_enough (min_size_mb : Q) (e : LargeFile) : bool :=
  at_least_mb min_size_mb (size_bytes e).

(** The summary of a traversal without accessible file. *)
Definition empty_stats : FileStats :=
  {| total_files := 0;
     total_size_bytes := 0;
     total_size_mb := Qmake 0 100;
     extensions_count := [] |}.

(** The lines [main] prints before the extensions. *)
Definition heading (directory : string) (stats : FileStats) : list line :=
  [ [Text ("Анализ директории: " ++ directory)];
    [Text (str_mul "-" 50)];
    [Text "Всего файлов: "; Int (total_files stats)];
    [Text "Общий размер: "; Float (total_size_mb stats); Text " МБ"];
    [Text (newline ++ "Типы файлов:")] ].

(** The line of one extension. *)
Definition extension_line (item : string * Z) : line :=
  [Text ("  " ++ (if (fst item =? "")%string then "без расширения" else fst item)
          ++ ": ");
   Int (snd item)].

(** The line of one large file. *)
Definition large_file_line (e : LargeFile) : line :=
  [Text "  "; Float (size_mb e); Text (" МБ: " ++ path e)].

(** The section of the large files: nothing when there is none. *)
Definition large_section (large_files : list LargeFile) : list line :=
  match large_files with
  | [] => []
  | _ :: _ =>
      [Text (newline ++ "Большие файлы (>5 МБ):")]
      :: map large_file_line (firstn 5 large_files)
  end.

(** The last line of a successful run. *)
Definition report_line (report_path : string) : line :=
  [Text (newline ++ "Отчет сохранен: " ++ report_path)].

(** The world after more lines are printed. *)
Definition printed (w : world) (ls : list line) : world :=
  {| stdout := (stdout w ++ ls)%list; files := files w |}.

(** The world after a file is written. *)
Definition stored (w : world) (p : string) (doc : json) : world :=
  {| stdout := stdout w; files := written (files w) p doc |}.

(** The world after the writing of a file failed on the way. *)
Definition spoiled (w : world) (p : string) (doc : json) : world :=
  {| stdout := stdout w; files := cut_short (files w) p doc |}.

(** The line [main] prints for an error. *)
Definition error_line (msg : string) : line := [Text ("Ошибка: " ++ msg)].


(** Each of the lines can be printed, one after the other, after the
    lines [out]. *)
Fixpoint can_print (os : OS) (out ls : list line) : Prop :=
  match ls with
  | [] => True
  | l :: ls' => os_print os out l = None /\ can_print os (out ++ [l]) ls'
  end.

(** The lines are printed one after the other, up to the first one that
    cannot be printed, whose error is raised. *)
Fixpoint print_lines (os : OS) (ls : list line) (w : world)
  : outcome unit * world :=
  match ls with
  | [] => (Ok tt, w)
  | l :: ls' =>
      match os_print os (stdout w) l with
      | None => print_lines os ls' (printed w [l])
      | Some e => (Raise (exn_of e), w)
      end
  end.

(** What [except ValueError as e: print(f"Ошибка: {e}")] makes of the
    outcome of the [try] block. *)
Definition caught (os : OS) (r : outcome unit * world) : outcome unit * world :=
  match r with
  | (Raise (ValueError msg), w) => print_lines os [error_line msg] w
  | (Raise (UnicodeEncodeError msg), w) => print_lines os [error_line msg] w
  | r => r
  end.


Definition ten_mb : Z := 10485760.




(** An example system whose standard output cannot encode the lines that
    hold a given text. *)
Definition holds_text (s : string) (l : line) : bool :=
  existsb (fun x => match x with
                    | Text t => contains t s
                    | _ => false
                    end) l.

Definition terminal_without (s : string) (os : OS) : OS :=
  {| os_path_exists := os_path_exists os;
     os_path_isdir := os_path_isdir os;
     os_walk := os_walk os;
     os_path_getsize := os_path_getsize os;
     os_open_w := os_open_w os;
     os_json_dump := os_json_dump os;
     os_print _ l :=
       if holds_text s l
       then Some (NotEncodable "codec can't encode character")
       else None;
     os_str := os_str os |}.

(** An example system whose standard output is closed after [n]
    lines. *)
Definition closed_after (n : nat) (os : OS) : OS :=
  {| os_path_exists := os_path_exists os;
     os_path_isdir := os_path_isdir os;
     os_walk := os_walk os;
     os_path_getsize := os_path_getsize os;
     os_open_w := os_open_w os;
     os_json_dump := os_json_dump os;
     os_print out _ :=
       if (List.length out <? n)%nat then None
       else Some (NotWritable "Broken pipe");
     os_str := os_str os |}.

(** An example system where the report cannot be encoded for its file. *)
Definition unencodable_report (os : OS) : OS :=
  {| os_path_exists := os_path_exists os;
     os_path_isdir := os_path_isdir os;
     os_walk := os_walk os;
     os_path_getsize := os_path_getsize os;
     os_open_w := os_open_w os;
     os_json_dump _ _ := Some (NotEncodable "surrogates not allowed");
     os_print := os_print os;
     os_str := os_str os |}.

(** A tree with two files of five megabytes and more. *)
Definition media : dtree :=
  Dir [("clip.MP4", Some 7340032%N); ("notes.txt", Some 120%N);
       ("raw.bin", Some 5242880%N); ("lost.dat", None)]
      [("old", Dir [("movie.mkv", Some 31457280%N)] [])].

Definition empty_world : world := {| stdout := []; files := empty_disk |}.

End Observations.

(** * Properties *)

Import Py PosixPath Exc Sys Tree FileAnalyzer Spec.

(** ** Loops *)

Section Loops.
Context {S A : Type}.

Lemma for_app (l1 l2 : list A) (body : A -> M S unit) (s : S) :
  for_ (l1 ++ l2) body s = bind (for_ l1 body) (fun _ => for_ l2 body) s.
Proof.
  revert s; induction l1 as [|x l1 IH]; intros s; simpl.
  - reflexivity.
  - unfold bind in *. destruct (body x s) as [[[]|e] s']; simpl.
    + apply IH.
    + reflexivity.
Qed.

(** A loop whose body always returns is a fold over the local state. *)
Lemma for_total (step : S -> A -> S) (body : A -> M S unit) (l : list A) :
  (forall x s, body x s = (Ok tt, step s x)) ->
  forall s, for_ l body s = (Ok tt, fold_left step l s).
Proof.
  intros Hbody; induction l as [|x l IH]; intros s; simpl.
  - reflexivity.
  - unfold bind. rewrite Hbody. apply IH.
Qed.

End Loops.

(** Two nested loops over the traversal are one loop over its files. *)
Lemma for_walk {S} (body : string -> string -> M S unit)
      (w : list (string * list string * list string)) (s : S) :
  for_ w (fun '(root, dirs, files) => for_ files (body root)) s
  = for_ (flat_map (fun '(root, dirs, files) => map (pair root) files) w)
         (fun rf => body (fst rf) (snd rf)) s.
Proof.
  revert s; induction w as [|[[root dirs] files] w IH]; intros s; simpl.
  - reflexivity.
  - rewrite for_app. unfold bind.
    assert (Hin : forall s0, for_ files (body root) s0
                  = for_ (map (pair root) files)
                         (fun rf => body (fst rf) (snd rf)) s0).
    { clear. induction files as [|f files IHf]; intros s0; simpl.
      - reflexivity.
      - unfold bind. destruct (body root f s0) as [[[]|e] s1]; auto. }
    rewrite Hin.
    destruct (for_ (map (pair root) files) _ s) as [[[]|e] s1]; auto.
Qed.

Lemma fold_left_flat_map {X Y Z} (f : X -> Y -> X) (g : Z -> list Y)
      (l : list Z) (x : X) :
  fold_left f (flat_map g l) x
  = fold_left (fun acc z => fold_left f (g z) acc) l x.
Proof.
  revert x; induction l as [|z l IH]; intros x; simpl.
  - reflexivity.
  - rewrite fold_left_app. apply IH.
Qed.

(** ** The loop of [get_file_stats] *)

Lemma stats_body_run (os : OS) (root file : string) (s : stats_locals) :
  stats_body os root file s
  = (Ok tt, fold_left (count_file os) (sized os (root, file)) s).
Proof.
  unfold stats_body, try_except_OSError, bind, getsize, sized; simpl.
  destruct (os_path_getsize os (join root file)) as [n|]; reflexivity.
Qed.

Lemma stats_loop_run (os : OS) (self : FileAnalyzer.t) (s : stats_locals) :
  stats_loop os self s
  = (Ok tt, fold_left (count_file os) (accessible_files os self) s).
Proof.
  unfold stats_loop. rewrite for_walk.
  unfold accessible_files. rewrite fold_left_flat_map.
  apply for_total. intros [root file] s0. apply stats_body_run.
Qed.

Lemma get_file_stats_run (os : OS) (self : FileAnalyzer.t) :
  get_file_stats os self
  = Ok (stats_of (fold_left (count_file os) (accessible_files os self) no_file)).
Proof.
  unfold get_file_stats. fold no_file. rewrite stats_loop_run. reflexivity.
Qed.

(** ** The loop of [find_large_files] *)

Lemma large_body_run (os : OS) (min_size_bytes : Q) (root file : string)
      (large_files : list LargeFile) :
  large_body os min_size_bytes root file large_files
  = (Ok tt,
     (large_files
      ++ map entry_of
           (filter (fun f => Qle_bool min_size_bytes (inject_Z (sf_size f)))
              (sized os (root, file))))%list).
Proof.
  unfold large_body, try_except_OSError, bind, getsize, sized; simpl.
  destruct (os_path_getsize os (join root file)) as [n|]; simpl.
  - destruct (Qle_bool min_size_bytes (inject_Z (Z.of_N n)));
      unfold ret, modify; simpl; rewrite ?app_nil_r; reflexivity.
  - rewrite app_nil_r. reflexivity.
Qed.

Lemma large_loop_run (os : OS) (self : FileAnalyzer.t) (min_size_bytes : Q)
      (large_files : list LargeFile) :
  large_loop os self min_size_bytes large_files
  = (Ok tt,
     (large_files
      ++ map entry_of
           (filter (fun f => Qle_bool min_size_bytes (inject_Z (sf_size f)))
              (accessible_files os self)))%list).
Proof.
  unfold large_loop. rewrite for_walk. unfold accessible_files.
  fold (walk_files os self). generalize (walk_files os self) as l.
  intros l; revert large_files.
  induction l as [|[root file] l IH]; intros large_files; simpl.
  - rewrite app_nil_r. reflexivity.
  - unfold bind. rewrite large_body_run, IH.
    rewrite filter_app, map_app, app_assoc. reflexivity.
Qed.

Lemma at_least_mb_code (min_size_mb : Q) (size : Z) :
  Qle_bool (min_size_mb * inject_Z 1024 * inject_Z 1024) (inject_Z size)
  = at_least_mb min_size_mb size.
Proof.
  unfold at_least_mb.
  assert (E : (min_size_mb * inject_Z 1024 * inject_Z 1024
               == min_size_mb * inject_Z 1048576)%Q).
  { rewrite <- Qmult_assoc. apply Qmult_comp; [reflexivity|reflexivity]. }
  apply eq_true_iff_eq. rewrite !Qle_bool_iff, E. reflexivity.
Qed.

Lemma find_large_files_run (os : OS) (self : FileAnalyzer.t) (min_size_mb : Q) :
  find_large_files os self min_size_mb
  = Ok (sorted (encounter_order os self min_size_mb) size_bytes true).
Proof.
  unfold find_large_files. rewrite large_loop_run. simpl app.
  unfold encounter_order. do 3 f_equal.
  apply filter_ext. intros f. apply at_least_mb_code.
Qed.

(** ** Sorting *)

Section Sorting.
Context {A : Type}.
Variable key : A -> Z.

Lemma filter_none (f : A -> bool) (l : list A) :
  (forall e, In e l -> f e = false) -> filter f l = [].
Proof.
  induction l as [|y l IH]; intros H; simpl.
  - reflexivity.
  - rewrite (H y (or_introl eq_refl)). apply IH. intros e He. apply H. right; exact He.
Qed.

Lemma insert_by_perm (x : A) (l : list A) :
  Permutation (x :: l) (insert_by key x l).
Proof.
  induction l as [|y l IH]; simpl.
  - reflexivity.
  - destruct (key x <? key y).
    + reflexivity.
    + rewrite perm_swap. constructor. exact IH.
Qed.

Lemma insert_by_sorted (x : A) (l : list A) :
  StronglySorted (ascending key) l -> StronglySorted (ascending key) (insert_by key x l).
Proof.
  induction 1 as [|y l Hs IH Hy]; simpl.
  - repeat constructor.
  - destruct (key x <? key y) eqn:E.
    + apply Z.ltb_lt in E. constructor.
      * constructor; assumption.
      * constructor; [unfold ascending; lia|].
        eapply Forall_impl; [|exact Hy]. unfold ascending; intros; lia.
    + apply Z.ltb_ge in E. constructor; [exact IH|].
      eapply Permutation_Forall; [apply insert_by_perm|].
      constructor; [exact E|exact Hy].
Qed.

(** In a sorted list the new element lands behind those of the same key. *)
Lemma insert_by_filter (z : Z) (x : A) (l : list A) :
  StronglySorted (ascending key) l ->
  filter (has_key key z) (insert_by key x l)
  = (filter (has_key key z) l ++ filter (has_key key z) [x])%list.
Proof.
  induction 1 as [|y l Hs IH Hy]; [reflexivity|].
  simpl insert_by. destruct (key x <? key y) eqn:E.
  - apply Z.ltb_lt in E.
    assert (Hnone : key x = z -> filter (has_key key z) (y :: l) = []).
    { intros Hx. apply filter_none. intros e He. unfold has_key.
      apply Z.eqb_neq.
      assert (key y <= key e).
      { destruct He as [<-|He]; [lia|].
        rewrite Forall_forall in Hy. apply Hy, He. }
      lia. }
    change (filter (has_key key z) (x :: y :: l))
      with (if has_key key z x then x :: filter (has_key key z) (y :: l)
            else filter (has_key key z) (y :: l)).
    change (filter (has_key key z) [x]) with (if has_key key z x then [x] else []).
    destruct (has_key key z x) eqn:Ex.
    + apply Z.eqb_eq in Ex. rewrite (Hnone Ex). reflexivity.
    + rewrite app_nil_r. reflexivity.
  - simpl. rewrite IH. destruct (has_key key z y); reflexivity.
Qed.

Lemma stable_sort_from (l acc : list A) :
  StronglySorted (ascending key) acc ->
  let r := fold_left (fun acc x => insert_by key x acc) l acc in
  StronglySorted (ascending key) r
  /\ Permutation (acc ++ l) r
  /\ forall z, filter (has_key key z) r
               = (filter (has_key key z) acc ++ filter (has_key key z) l)%list.
Proof.
  revert acc; induction l as [|x l IH]; intros acc Hacc; simpl.
  - rewrite app_nil_r. repeat split; auto. intros; rewrite app_nil_r; auto.
  - destruct (IH (insert_by key x acc) (insert_by_sorted x acc Hacc))
      as (Hs & Hp & Hf).
    repeat split.
    + exact Hs.
    + rewrite <- Hp. rewrite <- Permutation_middle.
      change (x :: acc ++ l)%list with ((x :: acc) ++ l)%list.
      apply Permutation_app_tail, insert_by_perm.
    + intros z. rewrite Hf, insert_by_filter by exact Hacc.
      rewrite <- app_assoc. simpl. destruct (has_key key z x); reflexivity.
Qed.

Lemma stable_sort_spec (l : list A) :
  StronglySorted (ascending key) (stable_sort key l)
  /\ Permutation l (stable_sort key l)
  /\ forall z, filter (has_key key z) (stable_sort key l) = filter (has_key key z) l.
Proof.
  exact (stable_sort_from l [] (SSorted_nil _)).
Qed.

Lemma StronglySorted_snoc (R : A -> A -> Prop) (l : list A) (a : A) :
  StronglySorted R l -> Forall (fun x => R x a) l -> StronglySorted R (l ++ [a]).
Proof.
  induction 1 as [|y l Hs IH Hy]; intros Ha; simpl.
  - repeat constructor.
  - inversion Ha as [|? ? Hya Hla]; subst. constructor.
    + apply IH, Hla.
    + apply Forall_app; split; [exact Hy|]. constructor; [exact Hya|constructor].
Qed.

Lemma StronglySorted_rev (l : list A) :
  StronglySorted (ascending key) l -> StronglySorted (descending key) (rev l).
Proof.
  induction 1 as [|y l Hs IH Hy]; simpl.
  - constructor.
  - apply StronglySorted_snoc; [exact IH|].
    apply Forall_rev. exact Hy.
Qed.

(** [sorted(l, key=key, reverse=True)] is a stable sort by non-increasing
    key. *)
Lemma sorted_reverse_spec (l : list A) :
  StronglySorted (descending key) (sorted l key true)
  /\ Permutation l (sorted l key true)
  /\ forall z, filter (has_key key z) (sorted l key true) = filter (has_key key z) l.
Proof.
  unfold sorted.
  destruct (stable_sort_spec (rev l)) as (Hs & Hp & Hf).
  repeat split.
  - apply StronglySorted_rev, Hs.
  - rewrite <- Permutation_rev, <- Hp. apply Permutation_rev.
  - intros z. rewrite filter_rev, Hf, filter_rev, rev_involutive. reflexivity.
Qed.

End Sorting.

Section StableOrder.
Context {A : Type}.
Variable key : A -> Z.

Lemma StronglySorted_rev_gen (R : A -> A -> Prop) (l : list A) :
  StronglySorted R l -> StronglySorted (fun a b => R b a) (rev l).
Proof.
  induction 1 as [|y l Hs IH Hy]; simpl.
  - constructor.
  - apply StronglySorted_snoc; [exact IH|].
    apply Forall_rev. exact Hy.
Qed.

Lemma filter_below (x : A) (l : list A) (z : Z) :
  Forall (ascending key x) l -> z < key x -> filter (has_key key z) (x :: l) = [].
Proof.
  intros Hl Hz. apply filter_none. intros e He. unfold has_key.
  apply Z.eqb_neq. destruct He as [<-|He]; [lia|].
  rewrite Forall_forall in Hl. specialize (Hl e He). unfold ascending in Hl. lia.
Qed.

Lemma filter_has_key_cons (z : Z) (x : A) (l : list A) :
  filter (has_key key z) (x :: l)
  = if key x =? z then x :: filter (has_key key z) l
    else filter (has_key key z) l.
Proof. reflexivity. Qed.

(** Two stable sorts of the same list agree: the order by key and the
    order of encounter within a key leave no choice. *)
Lemma stable_sorted_unique (l1 l2 : list A) :
  StronglySorted (ascending key) l1 ->
  StronglySorted (ascending key) l2 ->
  (forall z, filter (has_key key z) l1 = filter (has_key key z) l2) ->
  l1 = l2.
Proof.
  intros H1; revert l2; induction H1 as [|x l1 Hs1 IH Hx]; intros l2 H2 Hf.
  - destruct l2 as [|y l2]; [reflexivity|].
    specialize (Hf (key y)).
    rewrite filter_has_key_cons, Z.eqb_refl in Hf. discriminate.
  - destruct H2 as [|y l2 Hs2 Hy].
    + specialize (Hf (key x)).
      rewrite filter_has_key_cons, Z.eqb_refl in Hf. discriminate.
    + assert (Hkey : key x = key y).
      { destruct (Z.lt_trichotomy (key x) (key y)) as [Hlt|[Heq|Hgt]];
          [|exact Heq|]; exfalso.
        - specialize (Hf (key x)).
          rewrite (filter_below y l2 (key x) Hy Hlt) in Hf.
          rewrite filter_has_key_cons, Z.eqb_refl in Hf. discriminate.
        - specialize (Hf (key y)).
          rewrite (filter_below x l1 (key y) Hx Hgt) in Hf.
          rewrite filter_has_key_cons, Z.eqb_refl in Hf. discriminate. }
      assert (Hhead : x = y /\ forall z, filter (has_key key z) l1
                                         = filter (has_key key z) l2).
      { split.
        - specialize (Hf (key x)). rewrite !filter_has_key_cons in Hf.
          rewrite <- Hkey, Z.eqb_refl in Hf. congruence.
        - intros z. specialize (Hf z). rewrite !filter_has_key_cons in Hf.
          rewrite <- Hkey in Hf. destruct (key x =? z); congruence. }
      destruct Hhead as [-> Htail]. f_equal. apply IH; assumption.
Qed.

(** [sorted(l, key=key, reverse=True)] is the only list in non-increasing
    order of key that keeps, within every key, the order of [l]. *)
Lemma sorted_reverse_unique (l l' : list A) :
  StronglySorted (descending key) l' ->
  (forall z, filter (has_key key z) l' = filter (has_key key z) l) ->
  l' = sorted l key true.
Proof.
  intros Hs Hf. unfold sorted. rewrite <- (rev_involutive l'). f_equal.
  destruct (stable_sort_spec key (rev l)) as (Hs' & _ & Hf').
  apply stable_sorted_unique.
  - apply (StronglySorted_rev_gen (descending key)), Hs.
  - exact Hs'.
  - intros z. rewrite Hf', !filter_rev, Hf. reflexivity.
Qed.

End StableOrder.

(** ** Dictionaries *)

Section Dict.
Context {V : Type}.

Lemma dict_get_set (d : dict V) (k k' : string) (v : V) :
  dict_get (dict_set d k v) k'
  = if (k =? k')%string then Some v else dict_get d k'.
Proof.
  induction d as [|[k0 v0] d IH]; simpl.
  - reflexivity.
  - destruct (k0 =? k)%string eqn:E0; simpl.
    + apply String.eqb_eq in E0; subst k0.
      destruct (k =? k')%string; reflexivity.
    + destruct (k0 =? k')%string eqn:E1.
      * apply String.eqb_eq in E1; subst k0. rewrite String.eqb_sym, E0.
        reflexivity.
      * exact IH.
Qed.

Lemma defaultdict_get_set (default : V) (d : dict V) (k k' : string) (v : V) :
  defaultdict_get default (dict_set d k v) k'
  = if (k =? k')%string then v else defaultdict_get default d k'.
Proof.
  unfold defaultdict_get. rewrite dict_get_set.
  destruct (k =? k')%string; reflexivity.
Qed.

Lemma dict_get_In (d : dict V) (k : string) (v : V) :
  dict_get d k = Some v -> In v (values d).
Proof.
  induction d as [|[k0 v0] d IH]; simpl; [discriminate|].
  destruct (k0 =? k)%string.
  - intros [= ->]. left; reflexivity.
  - intros H. right. apply IH, H.
Qed.

Lemma Forall_values_set (P : V -> Prop) (d : dict V) (k : string) (v : V) :
  Forall P (values d) -> P v -> Forall P (values (dict_set d k v)).
Proof.
  intros Hd Hv. induction d as [|[k0 v0] d IH]; simpl.
  - constructor; [exact Hv|constructor].
  - inversion Hd as [|? ? H0 Hd']; subst.
    destruct (k0 =? k)%string; simpl; constructor; auto.
Qed.

(** A measure of the values that is zero on the default value changes,
    under an assignment, by what the assigned key gains. *)
Lemma sum_values_set (mu : V -> Z) (default : V) (d : dict V) (k : string)
      (v : V) :
  mu default = 0 ->
  sum (map mu (values (dict_set d k v)))
  = sum (map mu (values d)) - mu (defaultdict_get default d k) + mu v.
Proof.
  intros Hdefault. unfold defaultdict_get.
  induction d as [|[k0 v0] d IH]; simpl.
  - lia.
  - destruct (k0 =? k)%string; simpl; [lia|].
    rewrite IH. ring.
Qed.

Lemma keys_set_NoDup (d : dict V) (k : string) (v : V) :
  NoDup (keys d) -> NoDup (keys (dict_set d k v)).
Proof.
  assert (Hin : forall d' x, In x (keys (dict_set d' k v)) ->
                             x = k \/ In x (keys d')).
  { induction d' as [|[k0 v0] d' IH]; simpl; intros x Hx.
    - destruct Hx as [<-|[]]. left; reflexivity.
    - destruct (k0 =? k)%string; simpl in Hx.
      + right. exact Hx.
      + destruct Hx as [<-|Hx]; [right; left; reflexivity|].
        destruct (IH x Hx); auto. }
  induction d as [|[k0 v0] d IH]; simpl; intros Hnd.
  - constructor; [intros []|constructor].
  - inversion Hnd as [|? ? Hk0 Hd]; subst.
    destruct (k0 =? k)%string eqn:E; simpl.
    + constructor; assumption.
    + constructor; [|apply IH, Hd].
      intros Hx. destruct (Hin _ _ Hx) as [->|Hx'].
      * rewrite String.eqb_refl in E. discriminate.
      * exact (Hk0 Hx').
Qed.

End Dict.

Lemma len_cons {A} (x : A) (l : list A) : len (x :: l) = len l + 1.
Proof. unfold len. simpl List.length. lia. Qed.

Lemma len_nil {A} : len (@nil A) = 0.
Proof. reflexivity. Qed.

Lemma len_app {A} (l1 l2 : list A) : len (l1 ++ l2) = len l1 + len l2.
Proof. unfold len. rewrite length_app. lia. Qed.

(** ** The counters of [get_file_stats] *)

Lemma count_file_total_files (os : OS) (l : list sized_file) (s : stats_locals) :
  v_total_files (fold_left (count_file os) l s) = v_total_files s + len l.
Proof.
  revert s; induction l as [|f l IH]; intros s.
  - rewrite len_nil; simpl; lia.
  - simpl fold_left. rewrite IH, len_cons. simpl. lia.
Qed.

Lemma count_file_total_size (os : OS) (l : list sized_file) (s : stats_locals) :
  v_total_size (fold_left (count_file os) l s)
  = v_total_size s + sum (map sf_size l).
Proof.
  revert s; induction l as [|f l IH]; intros s; simpl.
  - lia.
  - rewrite IH. simpl. lia.
Qed.

Lemma incr_sum (d : dict Z) (k : string) :
  sum (values (incr d k)) = sum (values d) + 1.
Proof.
  unfold incr.
  pose proof (sum_values_set (fun z => z) 0 d k (defaultdict_get 0 d k + 1)
                eq_refl) as H.
  rewrite !map_id in H. lia.
Qed.

Lemma incr_positive (d : dict Z) (k : string) :
  Forall (fun c => 1 <= c) (values d) ->
  Forall (fun c => 1 <= c) (values (incr d k)).
Proof.
  intros Hd. unfold incr. apply Forall_values_set; [exact Hd|].
  unfold defaultdict_get. destruct (dict_get d k) as [c|] eqn:E; [|lia].
  apply dict_get_In in E. rewrite Forall_forall in Hd.
  specialize (Hd c E). lia.
Qed.

Lemma count_file_extensions (os : OS) (l : list sized_file) (s : stats_locals) :
  let s' := fold_left (count_file os) l s in
  sum (values (v_extensions_count s'))
  = sum (values (v_extensions_count s)) + len l
  /\ (Forall (fun c => 1 <= c) (values (v_extensions_count s)) ->
      Forall (fun c => 1 <= c) (values (v_extensions_count s')))
  /\ (NoDup (keys (v_extensions_count s)) ->
      NoDup (keys (v_extensions_count s')))
  /\ forall k,
      defaultdict_get 0 (v_extensions_count s') k
      = defaultdict_get 0 (v_extensions_count s) k
        + len (filter (fun f => (ExtensionKey os (sf_name f) =? k)%string) l).
Proof.
  revert s; induction l as [|f l IH]; intros s.
  - simpl. rewrite len_nil. repeat split; auto; intros; lia.
  - simpl fold_left. destruct (IH (count_file os s f)) as (Hsum & Hpos & Hnd & Hget).
    cbv zeta. repeat split.
    + rewrite Hsum. simpl v_extensions_count. rewrite incr_sum, len_cons.
      lia.
    + intros H. apply Hpos. simpl. apply incr_positive, H.
    + intros H. apply Hnd. simpl. apply keys_set_NoDup, H.
    + intros k. rewrite Hget. simpl v_extensions_count. unfold incr.
      rewrite defaultdict_get_set. simpl filter.
      destruct (ExtensionKey os (sf_name f) =? k)%string eqn:E;
        cbv iota; rewrite ?len_cons; [|lia].
      apply String.eqb_eq in E. rewrite E. lia.
Qed.
(** ** The dictionary of [get_files_by_extension] *)

Lemma get_files_by_extension_run (os : OS) (self : FileAnalyzer.t)
      (extensions : option (list string)) :
  get_files_by_extension os self extensions
  = fold_left (classify os extensions) (walk_files os self) [].
Proof.
  unfold get_files_by_extension, walk_files.
  generalize (@nil (string * list string)) as d.
  induction (os_walk os (directory self)) as [|[[root dirs] files] w IH];
    intros d; simpl.
  - reflexivity.
  - rewrite fold_left_app, IH. f_equal.
    clear. revert d. induction files as [|file files IHf]; intros d; simpl.
    + reflexivity.
    + rewrite IHf. reflexivity.
Qed.

Lemma append_to_sum (d : dict (list string)) (k p : string) :
  sum (map len (values (append_to d k p))) = sum (map len (values d)) + 1.
Proof.
  unfold append_to.
  rewrite (sum_values_set len [] d k _ eq_refl), len_app, len_cons, len_nil.
  lia.
Qed.

Lemma classify_fold (os : OS) (extensions : option (list string))
      (l : list (string * string)) (d : dict (list string)) :
  let d' := fold_left (classify os extensions) l d in
  sum (map len (values d'))
  = sum (map len (values d))
    + len (filter (fun rf => selected extensions (ExtensionKey os (snd rf))) l)
  /\ (Forall (fun ps => ps <> []) (values d) ->
      Forall (fun ps => ps <> []) (values d'))
  /\ (NoDup (keys d) -> NoDup (keys d'))
  /\ forall k,
      defaultdict_get [] d' k
      = (defaultdict_get [] d k
         ++ map (fun rf => join (fst rf) (snd rf))
              (filter (fun rf => selected extensions (ExtensionKey os (snd rf))
                                 && (ExtensionKey os (snd rf) =? k)%string) l))%list.
Proof.
  revert d; induction l as [|rf l IH]; intros d.
  - simpl. rewrite len_nil. repeat split; auto; intros.
    + lia.
    + rewrite app_nil_r. reflexivity.
  - simpl fold_left. destruct (IH (classify os extensions d rf))
      as (Hsum & Hne & Hnd & Hget).
    cbv zeta. unfold classify in *. simpl filter.
    destruct (selected extensions (ExtensionKey os (snd rf))); repeat split.
    + rewrite Hsum, append_to_sum, len_cons. lia.
    + intros H. apply Hne. unfold append_to.
      apply Forall_values_set; [exact H|].
      intros E. apply app_eq_nil in E. destruct E as [_ E]. discriminate.
    + intros H. apply Hnd, keys_set_NoDup, H.
    + intros k. rewrite Hget. unfold append_to. rewrite defaultdict_get_set.
      simpl andb.
      destruct (ExtensionKey os (snd rf) =? k)%string eqn:E.
      * apply String.eqb_eq in E. rewrite E. simpl map.
        rewrite <- app_assoc. reflexivity.
      * reflexivity.
    + exact Hsum.
    + exact Hne.
    + exact Hnd.
    + exact Hget.
Qed.

(** Every key of the result holds the paths of its files, in the order of
    encounter, and no key holds an empty list. *)
Lemma get_files_by_extension_get (os : OS) (self : FileAnalyzer.t) (k : string) :
  dict_get (get_files_by_extension os self None) k
  = match paths_with_key os self k with
    | [] => None
    | paths => Some paths
    end.
Proof.
  rewrite get_files_by_extension_run.
  destruct (classify_fold os None (walk_files os self) []) as (_ & Hne & _ & Hget).
  specialize (Hget k). specialize (Hne (Forall_nil _)).
  unfold paths_with_key. simpl in Hget.
  unfold defaultdict_get in Hget.
  destruct (dict_get (fold_left (classify os None) (walk_files os self) []) k)
    as [ps|] eqn:E.
  - rewrite <- Hget. apply dict_get_In in E.
    rewrite Forall_forall in Hne. specialize (Hne ps E).
    destruct ps; [contradiction|reflexivity].
  - rewrite <- Hget. reflexivity.
Qed.

(** ** Rounding *)






(** ** Rounding to the nearest integer *)

Lemma round_half_even_spec (n : Z) (d : positive) :
  let h := round_half_even (n # d) in
  2 * Z.abs (n - h * Zpos d) <= Zpos d
  /\ (2 * Z.abs (n - h * Zpos d) = Zpos d -> Z.even h = true).
Proof.
  unfold round_half_even; simpl Qnum; simpl Qden.
  pose proof (Z.div_mod n (Zpos d) ltac:(lia)) as Hdiv.
  pose proof (Z.mod_pos_bound n (Zpos d) ltac:(lia)) as Hmod.
  set (k := n / Zpos d) in *. set (r := n mod Zpos d) in *.
  destruct (Z.compare_spec (2 * r) (Zpos d)) as [E|E|E].
  - destruct (Z.even k) eqn:Ek.
    + split; [|auto]. replace (n - k * Zpos d) with r by lia. lia.
    + split.
      * replace (n - (k + 1) * Zpos d) with (r - Zpos d) by lia. lia.
      * intros _. rewrite Z.even_add, Ek. reflexivity.
  - replace (n - k * Zpos d) with r by lia. split; lia.
  - replace (n - (k + 1) * Zpos d) with (r - Zpos d) by lia. split; lia.
Qed.

Lemma round_half_even_unique (n : Z) (d : positive) (h1 h2 : Z) :
  2 * Z.abs (n - h1 * Zpos d) <= Zpos d ->
  (2 * Z.abs (n - h1 * Zpos d) = Zpos d -> Z.even h1 = true) ->
  2 * Z.abs (n - h2 * Zpos d) <= Zpos d ->
  (2 * Z.abs (n - h2 * Zpos d) = Zpos d -> Z.even h2 = true) ->
  h1 = h2.
Proof.
  intros Hle1 Htie1 Hle2 Htie2.
  assert (Hclose : -1 <= h1 - h2 <= 1) by nia.
  assert (Hcase : h1 = h2 \/ h1 = h2 + 1 \/ h2 = h1 + 1) by lia.
  destruct Hcase as [E|[E|E]]; [exact E| |]; exfalso; subst.
  - assert (T2 : 2 * Z.abs (n - h2 * Zpos d) = Zpos d) by nia.
    assert (T1 : 2 * Z.abs (n - (h2 + 1) * Zpos d) = Zpos d) by nia.
    specialize (Htie1 T1). specialize (Htie2 T2).
    rewrite Z.even_add, Htie2 in Htie1. discriminate.
  - assert (T1 : 2 * Z.abs (n - h1 * Zpos d) = Zpos d) by nia.
    assert (T2 : 2 * Z.abs (n - (h1 + 1) * Zpos d) = Zpos d) by nia.
    specialize (Htie1 T1). specialize (Htie2 T2).
    rewrite Z.even_add, Htie1 in Htie2. discriminate.
Qed.

Lemma round_half_even_compat (x y : Q) :
  (x == y)%Q -> round_half_even x = round_half_even y.
Proof.
  destruct x as [n d], y as [n' d']. unfold Qeq; simpl. intros E.
  destruct (round_half_even_spec n d) as [Hle Htie].
  destruct (round_half_even_spec n' d') as [Hle' Htie'].
  set (h := round_half_even (n # d)) in *.
  assert (Hscale : Zpos d * Z.abs (n' - h * Zpos d')
                   = Zpos d' * Z.abs (n - h * Zpos d)).
  { rewrite <- (Z.abs_eq (Zpos d)) at 1 by lia.
    rewrite <- (Z.abs_eq (Zpos d')) at 2 by lia.
    rewrite <- !Z.abs_mul. f_equal. nia. }
  apply (round_half_even_unique n' d').
  - nia.
  - intros T. apply Htie. nia.
  - exact Hle'.
  - exact Htie'.
Qed.

Lemma round_half_even_monotone (x y : Q) :
  (x <= y)%Q -> round_half_even x <= round_half_even y.
Proof.
  destruct x as [n d], y as [n' d']. unfold Qle; simpl. intros Hxy.
  destruct (round_half_even_spec n d) as [Hle Htie].
  destruct (round_half_even_spec n' d') as [Hle' Htie'].
  set (h := round_half_even (n # d)) in *.
  set (h' := round_half_even (n' # d')) in *.
  destruct (Z_le_gt_dec h h') as [H|H]; [exact H|exfalso].
  assert (H1 : (2 * h - 1) * Zpos d <= 2 * n) by lia.
  assert (H2 : 2 * n' <= (2 * h' + 1) * Zpos d') by lia.
  assert (H3 : (2 * h - 1) * (Zpos d * Zpos d') <= (2 * h' + 1) * (Zpos d * Zpos d')) by nia.
  assert (Hnext : h = h' + 1) by nia.
  subst h. rewrite Hnext in *.
  assert (T : 2 * Z.abs (n - (h' + 1) * Zpos d) = Zpos d) by nia.
  assert (T' : 2 * Z.abs (n' - h' * Zpos d') = Zpos d') by nia.
  specialize (Htie T). specialize (Htie' T').
  rewrite Z.even_add, Htie' in Htie. discriminate.
Qed.

Lemma round_half_even_int (z : Z) : round_half_even (inject_Z z) = z.
Proof.
  unfold round_half_even, inject_Z; simpl Qnum; simpl Qden.
  rewrite Z.div_1_r, Z.mod_1_r. reflexivity.
Qed.

Lemma round_half_even_near (x : Q) :
  (inject_Z (round_half_even x) - (1 # 2) <= x
   /\ x <= inject_Z (round_half_even x) + (1 # 2))%Q.
Proof.
  destruct x as [n d]. destruct (round_half_even_spec n d) as [Hle _].
  set (h := round_half_even (n # d)) in *.
  unfold Qle, Qminus, Qplus, Qopp, inject_Z; simpl Qnum; simpl Qden.
  rewrite ?Pos2Z.inj_mul. split; lia.
Qed.

(** ** Powers of two *)

Lemma pow2_pos (e : Z) : (0 < 2 ^ e)%Q.
Proof. apply Qpower_0_lt. reflexivity. Qed.

Lemma pow2_add (a b : Z) : (2 ^ (a + b) == 2 ^ a * 2 ^ b)%Q.
Proof. apply Qpower_plus. discriminate. Qed.

Lemma pow2_le (a b : Z) : a <= b -> (2 ^ a <= 2 ^ b)%Q.
Proof. intros H. apply Qpower_le_compat_l; [exact H|]. unfold Qle; simpl; lia. Qed.

Lemma pow2_lt_inv (a b : Z) : (2 ^ a < 2 ^ b)%Q -> a < b.
Proof. intros H. apply (Qpower_lt_compat_l_inv 2); [exact H|reflexivity]. Qed.

Lemma pow2_succ (a : Z) : (2 ^ (a + 1) == 2 * 2 ^ a)%Q.
Proof. rewrite pow2_add. change (2 ^ 1)%Q with 2%Q. ring. Qed.

Lemma pow2_cancel (a : Z) : (2 ^ a * 2 ^ (- a) == 1)%Q.
Proof. rewrite <- pow2_add, Z.add_opp_diag_r. reflexivity. Qed.

Lemma pow2_inject (a : Z) : 0 <= a -> (2 ^ a == inject_Z (2 ^ a))%Q.
Proof. intros H. rewrite (Zpower_Qpower 2 a H). reflexivity. Qed.

(** ** The binade of a positive number *)

Lemma binade_spec (q : Q) :
  (0 < q)%Q -> (2 ^ binade q <= q /\ q < 2 ^ (binade q + 1))%Q.
Proof.
  intros Hq.
  assert (Hn : 0 < Qnum q).
  { destruct q as [n d]. unfold Qlt in Hq; simpl in *. lia. }
  unfold binade. rewrite (Z.abs_eq (Qnum q)) by lia.
  rewrite (Qabs_pos q) by (apply Qlt_le_weak, Hq).
  set (ln := Z.log2 (Qnum q)). set (ld := Z.log2 (Zpos (Qden q))).
  destruct (Z.log2_spec (Qnum q) Hn) as [Hn1 Hn2].
  destruct (Z.log2_spec (Zpos (Qden q)) ltac:(lia)) as [Hd1 Hd2].
  fold ln in Hn1, Hn2. fold ld in Hd1, Hd2.
  assert (Hln : 0 <= ln) by apply Z.log2_nonneg.
  assert (Hld : 0 <= ld) by apply Z.log2_nonneg.
  rewrite <- Z.add_1_r in Hn2, Hd2.
  rewrite Z.pow_add_r in Hn2, Hd2 by lia. change (2 ^ 1) with 2 in Hn2, Hd2.
  set (N := inject_Z (Qnum q)). set (D := inject_Z (Zpos (Qden q))).
  assert (Eq : (q * D == N)%Q).
  { destruct q as [n d]. unfold N, D, Qeq, Qmult, inject_Z; simpl. lia. }
  assert (HD : (0 < D)%Q) by (unfold D, Qlt, inject_Z; simpl; lia).
  assert (EP : (2 ^ (ln - ld) * 2 ^ ld == 2 ^ ln)%Q).
  { rewrite <- pow2_add. replace (ln - ld + ld) with ln by lia. reflexivity. }
  pose proof (pow2_pos (ln - ld)) as Hk.
  rewrite (pow2_inject ln Hln) in EP. rewrite (pow2_inject ld Hld) in EP.
  set (P := inject_Z (2 ^ ln)) in *. set (Pd := inject_Z (2 ^ ld)) in *.
  assert (HP1 : (P <= N)%Q) by (unfold P, N; rewrite <- Zle_Qle; exact Hn1).
  assert (HP2 : (N < 2 * P)%Q).
  { unfold P, N. change 2%Q with (inject_Z 2). rewrite <- inject_Z_mult, <- Zlt_Qlt.
    lia. }
  assert (HD1 : (Pd <= D)%Q) by (unfold Pd, D; rewrite <- Zle_Qle; exact Hd1).
  assert (HD2 : (D < 2 * Pd)%Q).
  { unfold Pd, D. change 2%Q with (inject_Z 2). rewrite <- inject_Z_mult, <- Zlt_Qlt.
    lia. }
  assert (HPd : (0 < Pd)%Q).
  { unfold Pd. change 0%Q with (inject_Z 0). rewrite <- Zlt_Qlt.
    apply Z.pow_pos_nonneg; lia. }
  assert (Hupper : (q < 2 * 2 ^ (ln - ld))%Q).
  { apply (Qmult_lt_r _ _ D HD). rewrite Eq.
    apply Qlt_le_trans with (2 * P)%Q; [exact HP2|].
    rewrite <- EP. nra. }
  assert (Hlower : (2 ^ (ln - ld) < 2 * q)%Q).
  { apply (Qmult_lt_r _ _ D HD).
    setoid_replace (2 * q * D)%Q with (2 * N)%Q by (rewrite <- Eq; ring).
    apply Qlt_le_trans with (2 * P)%Q; [|nra].
    rewrite <- EP. nra. }
  destruct (Qle_bool (2 ^ (ln - ld)) q) eqn:E.
  - apply Qle_bool_iff in E. split; [exact E|].
    rewrite pow2_succ. exact Hupper.
  - assert (Hlt : (q < 2 ^ (ln - ld))%Q).
    { apply Qnot_le_lt. intros H. apply Qle_bool_iff in H. congruence. }
    replace (ln - ld - 1 + 1) with (ln - ld) by lia.
    split; [|exact Hlt].
    assert (E2 : (2 ^ (ln - ld) == 2 * 2 ^ (ln - ld - 1))%Q).
    { rewrite <- pow2_succ. replace (ln - ld - 1 + 1) with (ln - ld) by lia.
      reflexivity. }
    rewrite E2 in Hlower. lra.
Qed.

(** ** The nearest float *)

Lemma Qnum_pos (q : Q) : (0 < q)%Q -> 0 < Qnum q.
Proof. destruct q as [n d]. unfold Qlt; simpl. lia. Qed.

Lemma nearest_float_pos (q : Q) :
  (0 < q)%Q ->
  nearest_float q
  = (inject_Z (round_half_even (q * 2 ^ (- (binade q - 52)))) * 2 ^ (binade q - 52))%Q.
Proof.
  intros Hq. unfold nearest_float.
  pose proof (Qnum_pos q Hq) as Hn.
  destruct (Qnum q =? 0) eqn:E; [apply Z.eqb_eq in E; lia|reflexivity].
Qed.

(** The scaled number lies between [2^52] and [2^53], and so does its
    mantissa. *)
Lemma scaled_range (q : Q) :
  (0 < q)%Q ->
  (inject_Z (2 ^ 52) <= q * 2 ^ (- (binade q - 52))
   /\ q * 2 ^ (- (binade q - 52)) < inject_Z (2 ^ 53))%Q.
Proof.
  intros Hq. destruct (binade_spec q Hq) as [H1 H2].
  set (k := binade q) in *.
  replace (- (k - 52)) with (52 + - k) by lia. rewrite pow2_add.
  rewrite pow2_succ in H2.
  pose proof (pow2_pos k) as Hk. pose proof (pow2_pos (- k)) as Hk'.
  pose proof (pow2_cancel k) as Hc.
  rewrite (pow2_inject 52) by lia.
  change (inject_Z (2 ^ 53)) with (2 * inject_Z (2 ^ 52))%Q.
  set (c := inject_Z (2 ^ 52)). assert (Hcpos : (0 < c)%Q) by reflexivity.
  split.
  - setoid_replace c with (2 ^ k * 2 ^ (- k) * c)%Q at 1 by (rewrite Hc; ring).
    setoid_replace (q * (c * 2 ^ (- k)))%Q with (q * 2 ^ (- k) * c)%Q by ring.
    apply Qmult_le_compat_r; [|apply Qlt_le_weak, Hcpos].
    apply Qmult_le_compat_r; [exact H1|apply Qlt_le_weak, Hk'].
  - setoid_replace (2 * c)%Q with (2 * 2 ^ k * 2 ^ (- k) * c)%Q
      by (rewrite <- (Qmult_assoc 2), Hc; ring).
    setoid_replace (q * (c * 2 ^ (- k)))%Q with (q * 2 ^ (- k) * c)%Q by ring.
    apply Qmult_lt_compat_r; [exact Hcpos|].
    apply Qmult_lt_compat_r; [exact Hk'|exact H2].
Qed.

Lemma mantissa_range (q : Q) :
  (0 < q)%Q ->
  2 ^ 52 <= round_half_even (q * 2 ^ (- (binade q - 52))) <= 2 ^ 53.
Proof.
  intros Hq. destruct (scaled_range q Hq) as [H1 H2]. split.
  - rewrite <- (round_half_even_int (2 ^ 52)).
    apply round_half_even_monotone, H1.
  - rewrite <- (round_half_even_int (2 ^ 53)).
    apply round_half_even_monotone, Qlt_le_weak, H2.
Qed.

Lemma nearest_float_range (q : Q) :
  (0 < q)%Q ->
  (2 ^ binade q <= nearest_float q /\ nearest_float q <= 2 ^ (binade q + 1))%Q.
Proof.
  intros Hq. rewrite (nearest_float_pos q Hq).
  destruct (mantissa_range q Hq) as [H1 H2].
  set (m := round_half_even _) in *. set (k := binade q).
  pose proof (pow2_pos (k - 52)) as Hp.
  assert (E1 : (2 ^ k == inject_Z (2 ^ 52) * 2 ^ (k - 52))%Q).
  { rewrite <- (pow2_inject 52) by lia. rewrite <- pow2_add.
    replace (52 + (k - 52)) with k by lia. reflexivity. }
  assert (E2 : (2 ^ (k + 1) == inject_Z (2 ^ 53) * 2 ^ (k - 52))%Q).
  { rewrite <- (pow2_inject 53) by lia. rewrite <- pow2_add.
    replace (53 + (k - 52)) with (k + 1) by lia. reflexivity. }
  rewrite E1, E2. split; apply Qmult_le_compat_r;
    try (apply Qlt_le_weak, Hp); rewrite <- Zle_Qle; assumption.
Qed.

Lemma binade_monotone (x y : Q) :
  (0 < x)%Q -> (x <= y)%Q -> binade x <= binade y.
Proof.
  intros Hx Hxy.
  assert (Hy : (0 < y)%Q) by (eapply Qlt_le_trans; eassumption).
  destruct (binade_spec x Hx) as [H1 _]. destruct (binade_spec y Hy) as [_ H2].
  assert (H : (2 ^ binade x < 2 ^ (binade y + 1))%Q).
  { eapply Qle_lt_trans; [exact H1|]. eapply Qle_lt_trans; eassumption. }
  apply pow2_lt_inv in H. lia.
Qed.

(** Rounding to the nearest float keeps the order. *)
Lemma nearest_float_monotone (x y : Q) :
  (0 <= x)%Q -> (x <= y)%Q -> (nearest_float x <= nearest_float y)%Q.
Proof.
  intros Hx Hxy.
  destruct (Qlt_le_dec 0 x) as [Hx0|Hx0].
  - assert (Hy : (0 < y)%Q) by (eapply Qlt_le_trans; eassumption).
    pose proof (binade_monotone x y Hx0 Hxy) as Hk.
    destruct (Z.eq_dec (binade x) (binade y)) as [E|E].
    + rewrite (nearest_float_pos x Hx0), (nearest_float_pos y Hy), E.
      apply Qmult_le_compat_r; [|apply Qlt_le_weak, pow2_pos].
      rewrite <- Zle_Qle. apply round_half_even_monotone.
      apply Qmult_le_compat_r; [exact Hxy|apply Qlt_le_weak, pow2_pos].
    + destruct (nearest_float_range x Hx0) as [_ H1].
      destruct (nearest_float_range y Hy) as [H2 _].
      eapply Qle_trans; [exact H1|]. eapply Qle_trans; [|exact H2].
      apply pow2_le. lia.
  - assert (E : Qnum x = 0).
    { destruct x as [n d]. unfold Qle in *; simpl in *. lia. }
    unfold nearest_float at 1. rewrite E. simpl.
    destruct (Qlt_le_dec 0 y) as [Hy|Hy].
    + destruct (nearest_float_range y Hy) as [H2 _].
      eapply Qle_trans; [|exact H2]. apply Qlt_le_weak, pow2_pos.
    + assert (E' : Qnum y = 0).
      { destruct y as [n d]. destruct x as [n' d'].
        unfold Qle in *; simpl in *. subst. lia. }
      unfold nearest_float. rewrite E'. simpl. apply Qle_refl.
Qed.

(** A number that fits in the mantissa is its own float. *)
Lemma nearest_float_exact (q : Q) (z : Z) :
  (0 < q)%Q ->
  (q * 2 ^ (- (binade q - 52)) == inject_Z z)%Q ->
  (nearest_float q == q)%Q.
Proof.
  intros Hq Hz. rewrite (nearest_float_pos q Hq).
  rewrite (round_half_even_compat _ _ Hz), round_half_even_int, <- Hz.
  rewrite <- Qmult_assoc, (Qmult_comm (2 ^ _)), pow2_cancel. ring.
Qed.

(** The float differs from the number by at most half a unit of the last
    place. *)
Lemma nearest_float_error (q : Q) :
  (0 < q)%Q ->
  (Qabs (nearest_float q - q) <= 2 ^ (binade q - 53))%Q.
Proof.
  intros Hq. rewrite (nearest_float_pos q Hq).
  set (e := binade q - 52).
  destruct (round_half_even_near (q * 2 ^ (- e))) as [H1 H2].
  set (m := inject_Z (round_half_even (q * 2 ^ (- e)))) in *.
  pose proof (pow2_pos e) as He. pose proof (pow2_cancel e) as Hc.
  assert (Ehalf : (2 ^ (binade q - 53) == (1 # 2) * 2 ^ e)%Q).
  { unfold e. replace (binade q - 53) with (-1 + (binade q - 52)) by lia.
    rewrite pow2_add. reflexivity. }
  assert (Eq : (q == q * 2 ^ (- e) * 2 ^ e)%Q).
  { rewrite <- Qmult_assoc, (Qmult_comm (2 ^ (- e))), Hc. ring. }
  rewrite Ehalf. set (x := (q * 2 ^ (- e))%Q) in *.
  setoid_replace (m * 2 ^ e - q)%Q with ((m - x) * 2 ^ e)%Q
    by (rewrite Eq at 1; ring).
  rewrite Qabs_Qmult, (Qabs_pos (2 ^ e)) by (apply Qlt_le_weak, He).
  apply Qmult_le_compat_r; [|apply Qlt_le_weak, He].
  apply Qabs_Qle_condition. split; lra.
Qed.

(** ** Sizes in megabytes *)

Lemma round2_compat (x y : Q) : (x == y)%Q -> round2 x = round2 y.
Proof.
  intros E. unfold round2. f_equal. apply round_half_even_compat.
  rewrite E. reflexivity.
Qed.

Lemma round2_monotone (x y : Q) : (x <= y)%Q -> (round2 x <= round2 y)%Q.
Proof.
  intros H. unfold round2, Qle; simpl Qnum; simpl Qden.
  apply Z.mul_le_mono_nonneg_r; [lia|].
  apply round_half_even_monotone.
  apply Qmult_le_compat_r; [exact H|]. unfold Qle; simpl; lia.
Qed.

Lemma quotient_monotone (a b d : Z) :
  0 < d -> a <= b -> (inject_Z a / inject_Z d <= inject_Z b / inject_Z d)%Q.
Proof.
  intros Hd Hab. apply Qmult_le_compat_r; [rewrite <- Zle_Qle; exact Hab|].
  apply Qlt_le_weak, Qinv_lt_0_compat.
  change 0%Q with (inject_Z 0). rewrite <- Zlt_Qlt. exact Hd.
Qed.

Lemma quotient_nonneg (a d : Z) :
  0 < d -> 0 <= a -> (0 <= inject_Z a / inject_Z d)%Q.
Proof.
  intros Hd Ha.
  setoid_replace 0%Q with (inject_Z 0 / inject_Z d)%Q
    by (unfold Qdiv; ring).
  apply quotient_monotone; assumption.
Qed.

Lemma truediv_monotone (a b d : Z) :
  0 < d -> 0 <= a -> a <= b -> (truediv a d <= truediv b d)%Q.
Proof.
  intros Hd Ha Hab. unfold truediv. apply nearest_float_monotone.
  - apply quotient_nonneg; assumption.
  - apply quotient_monotone; assumption.
Qed.

Lemma nearest_float_zero (q : Q) : (q == 0)%Q -> nearest_float q = 0%Q.
Proof.
  intros E. unfold nearest_float.
  replace (Qnum q) with 0; [reflexivity|].
  destruct q as [n d]. unfold Qeq in E; simpl in *. lia.
Qed.

(** Below [2^53] bytes the float quotient by [2^20] is the exact one. *)
Lemma truediv_exact (size : Z) :
  0 <= size < 2 ^ 53 ->
  (truediv size (1024 * 1024) == inject_Z size / inject_Z 1048576)%Q.
Proof.
  intros [H0 H53]. unfold truediv. change (1024 * 1024) with 1048576.
  set (q := (inject_Z size / inject_Z 1048576)%Q).
  destruct (Z.eq_dec size 0) as [->|Hnz].
  - rewrite nearest_float_zero; reflexivity.
  - assert (Eq : (q == inject_Z size * 2 ^ (- 20))%Q) by reflexivity.
    assert (Hq : (0 < q)%Q).
    { rewrite Eq. apply Qmult_lt_0_compat; [|apply pow2_pos].
      change 0%Q with (inject_Z 0). rewrite <- Zlt_Qlt. lia. }
    destruct (binade_spec q Hq) as [Hk _].
    assert (Hlt : (q < 2 ^ 33)%Q).
    { rewrite Eq. replace 33 with (53 + - 20) by lia. rewrite pow2_add.
      apply Qmult_lt_compat_r; [apply pow2_pos|].
      rewrite (pow2_inject 53) by lia. rewrite <- Zlt_Qlt. exact H53. }
    assert (Hb : binade q < 33).
    { apply pow2_lt_inv. eapply Qle_lt_trans; eassumption. }
    apply (nearest_float_exact q (size * 2 ^ (32 - binade q)) Hq).
    generalize dependent (binade q). intros k _ Hk.
    rewrite inject_Z_mult, <- (pow2_inject (32 - k)) by lia.
    rewrite Eq, <- Qmult_assoc, <- pow2_add.
    replace (- 20 + - (k - 52)) with (32 - k) by lia.
    reflexivity.
Qed.

Lemma size_mb_monotone (a b : Z) :
  0 <= a -> a <= b ->
  (round2 (truediv a (1024 * 1024)) <= round2 (truediv b (1024 * 1024)))%Q.
Proof.
  intros Ha Hab. apply round2_monotone, truediv_monotone; [reflexivity| |]; lia.
Qed.

Lemma size_mb_exact (size : Z) :
  0 <= size < 2 ^ 53 ->
  round2 (truediv size (1024 * 1024)) = round2 (Qmake size 1048576).
Proof.
  intros H. apply round2_compat. rewrite (truediv_exact size H).
  unfold Qeq, Qdiv, Qmult, Qinv, inject_Z; simpl. lia.
Qed.

(** ** The nearest float *)












(** ** Strings and paths *)

Lemma rfind_from_range (s : string) (c : ascii) (i : Z) :
  rfind_from s c i = -1 \/ i <= rfind_from s c i.
Proof.
  revert i; induction s as [|a s IH]; intros i; simpl.
  - left; reflexivity.
  - destruct (IH (i + 1)) as [E|E].
    + rewrite E. simpl. destruct (Ascii.eqb a c); [right; lia|left; reflexivity].
    + destruct (0 <=? rfind_from s c (i + 1)) eqn:E0.
      * right; lia.
      * destruct (Ascii.eqb a c); [right; lia|left; reflexivity].
Qed.

Lemma rfind_from_none (s : string) (c : ascii) (i j : Z) :
  0 <= i -> 0 <= j -> rfind_from s c i = -1 -> rfind_from s c j = -1.
Proof.
  revert i j; induction s as [|a s IH]; intros i j Hi Hj; simpl.
  - reflexivity.
  - destruct (rfind_from_range s c (i + 1)) as [E|E].
    + rewrite E. simpl. rewrite (IH (i + 1) (j + 1)) by lia. simpl.
      destruct (Ascii.eqb a c); [lia|reflexivity].
    + replace (0 <=? rfind_from s c (i + 1)) with true
        by (symmetry; apply Z.leb_le; lia).
      lia.
Qed.

(** A found character splits the string at its last occurrence. *)
Lemma rfind_from_split (s : string) (c : ascii) (i : Z) :
  0 <= i ->
  rfind_from s c i = -1
  \/ exists a b,
      s = a ++ String c b
      /\ rfind_from s c i = i + Z.of_nat (String.length a)
      /\ rfind b c = -1.
Proof.
  revert i; induction s as [|a0 s IH]; intros i Hi; simpl.
  - left; reflexivity.
  - destruct (IH (i + 1) ltac:(lia)) as [E|(a & b & Hs & Hr & Hb)].
    + rewrite E. simpl. destruct (Ascii.eqb a0 c) eqn:Ec.
      * right. apply Ascii.eqb_eq in Ec. subst a0.
        exists "", s. simpl. repeat split; [lia|].
        apply (rfind_from_none s c (i + 1) 0); [lia|lia|exact E].
      * left; reflexivity.
    + right. rewrite Hr.
      replace (0 <=? i + 1 + Z.of_nat (String.length a)) with true
        by (symmetry; apply Z.leb_le; lia).
      exists (String a0 a), b. subst s. simpl String.length.
      repeat split; [lia|exact Hb].
Qed.

Lemma substring_whole (s : string) : substring 0 (String.length s) s = s.
Proof.
  induction s as [|a s IH]; simpl; [reflexivity|]. rewrite IH. reflexivity.
Qed.

Lemma substring_left (a b : string) : substring 0 (String.length a) (a ++ b) = a.
Proof.
  induction a as [|c a IH]; simpl.
  - destruct b; reflexivity.
  - rewrite IH. reflexivity.
Qed.

Lemma substring_right (a b : string) :
  substring (String.length a) (String.length (a ++ b) - String.length a) (a ++ b)
  = b.
Proof.
  induction a as [|c a IH]; simpl.
  - rewrite Nat.sub_0_r. apply substring_whole.
  - exact IH.
Qed.

Lemma append_assoc (a b c : string) : (a ++ b) ++ c = a ++ (b ++ c).
Proof.
  induction a as [|x a IH]; simpl; [reflexivity|]. rewrite IH. reflexivity.
Qed.

Lemma append_empty_r (s : string) : s ++ "" = s.
Proof.
  induction s as [|c s IH]; simpl; [reflexivity|]. rewrite IH. reflexivity.
Qed.

(** [splitext] cuts the name in two; the second part is empty or starts at
    the last dot. *)
Lemma splitext_parts (p : string) :
  fst (splitext p) ++ snd (splitext p) = p
  /\ (snd (splitext p) = ""
      \/ exists e, snd (splitext p) = String extsep e /\ rfind e extsep = -1).
Proof.
  unfold splitext, _splitext.
  destruct ((rfind p sep <? rfind p extsep)
            && non_dot_before p extsep (rfind p sep + 1)
                 (Z.to_nat (rfind p extsep - (rfind p sep + 1)))) eqn:E.
  - apply andb_true_iff in E. destruct E as [E _]. apply Z.ltb_lt in E.
    unfold rfind in *.
    destruct (rfind_from_split p extsep 0 ltac:(lia))
      as [Hd|(a & b & Hp & Hd & Hb)].
    + destruct (rfind_from_range p sep 0); lia.
    + rewrite Z.add_0_l in Hd. rewrite Hd. simpl fst; simpl snd.
      unfold slice_to, slice_from. rewrite Nat2Z.id. subst p.
      rewrite substring_left, substring_right. split; eauto.
  - simpl. split; [apply append_empty_r|left; reflexivity].
Qed.

Lemma rfind_from_last (a b : string) (c : ascii) (i : Z) :
  0 <= i -> rfind b c = -1 ->
  rfind_from (a ++ String c b) c i = i + Z.of_nat (String.length a).
Proof.
  revert i; induction a as [|x a IH]; intros i Hi Hb.
  - cbn [append rfind_from String.length].
    rewrite (rfind_from_none b c 0 (i + 1)) by (try lia; exact Hb).
    rewrite Ascii.eqb_refl. simpl. lia.
  - cbn [append rfind_from String.length]. rewrite IH by (try lia; exact Hb).
    replace (0 <=? i + 1 + Z.of_nat (String.length a)) with true
      by (symmetry; apply Z.leb_le; lia).
    lia.
Qed.

(** ** The extension of a file name *)

Lemma get_append (pre : string) (c : ascii) (s : string) :
  String.get (String.length pre) (pre ++ String c s) = Some c.
Proof.
  induction pre as [|x pre IH]; simpl; [reflexivity|exact IH].
Qed.

Lemma char_at_append (pre : string) (c : ascii) (s : string) :
  char_at (pre ++ String c s) (Z.of_nat (String.length pre)) = Some c.
Proof.
  unfold char_at.
  replace (Z.of_nat (String.length pre) <? 0) with false
    by (symmetry; apply Z.ltb_ge; lia).
  rewrite Nat2Z.id. apply get_append.
Qed.

Lemma length_append (a b : string) :
  String.length (a ++ b) = (String.length a + String.length b)%nat.
Proof.
  induction a as [|x a IH]; simpl; [reflexivity|]. rewrite IH. reflexivity.
Qed.

(** The loop of [_splitext] finds nothing in a run of dots. *)
Lemma non_dot_before_dots (dots : string) :
  all_dots dots = true ->
  forall (pre rest : string) (n : nat),
    (n <= String.length dots)%nat ->
    non_dot_before (pre ++ dots ++ rest) extsep
      (Z.of_nat (String.length pre)) n = false.
Proof.
  induction dots as [|x dots IH]; intros Hdots pre rest n Hn.
  - simpl in Hn. replace n with O by lia. reflexivity.
  - simpl in Hdots. apply andb_true_iff in Hdots. destruct Hdots as [Hx Hdots].
    destruct n as [|n]; [reflexivity|].
    cbn [non_dot_before append]. rewrite char_at_append, Hx.
    replace (Z.of_nat (String.length pre) + 1)
      with (Z.of_nat (String.length (pre ++ String x "")))
      by (rewrite length_append; simpl; lia).
    replace (pre ++ String x (dots ++ rest))
      with ((pre ++ String x "") ++ dots ++ rest)
      by (rewrite append_assoc; reflexivity).
    apply IH; [exact Hdots|]. simpl in Hn. lia.
Qed.

(** It finds the first character that is not a dot. *)
Lemma non_dot_before_found (dots : string) (c : ascii) :
  all_dots dots = true ->
  c <> extsep ->
  forall (pre rest : string) (n : nat),
    (String.length dots < n)%nat ->
    non_dot_before (pre ++ dots ++ String c rest) extsep
      (Z.of_nat (String.length pre)) n = true.
Proof.
  intros Hdots Hc. apply Ascii.eqb_neq in Hc.
  induction dots as [|x dots IH]; intros pre rest n Hn.
  - destruct n as [|n]; [simpl in Hn; lia|].
    cbn [non_dot_before append]. rewrite char_at_append, Hc. reflexivity.
  - simpl in Hdots. apply andb_true_iff in Hdots. destruct Hdots as [Hx Hdots].
    destruct n as [|n]; [simpl in Hn; lia|].
    cbn [non_dot_before append]. rewrite char_at_append, Hx.
    replace (Z.of_nat (String.length pre) + 1)
      with (Z.of_nat (String.length (pre ++ String x "")))
      by (rewrite length_append; simpl; lia).
    replace (pre ++ String x (dots ++ String c rest))
      with ((pre ++ String x "") ++ dots ++ String c rest)
      by (rewrite append_assoc; reflexivity).
    apply IH; [exact Hdots|]. simpl in Hn. lia.
Qed.

(** The last dot of a run of dots followed by a name without dot. *)
Lemma rfind_from_dots (dots rest : string) (i : Z) :
  all_dots dots = true ->
  rfind rest extsep = -1 ->
  0 <= i ->
  rfind_from (dots ++ rest) extsep i
  = match dots with
    | EmptyString => -1
    | String _ _ => i + Z.of_nat (String.length dots) - 1
    end.
Proof.
  intros Hdots Hrest. revert i.
  induction dots as [|x dots IH]; intros i Hi.
  - simpl. apply (rfind_from_none rest extsep 0 i); [lia|lia|exact Hrest].
  - simpl in Hdots. apply andb_true_iff in Hdots. destruct Hdots as [Hx Hdots].
    cbn [append rfind_from]. rewrite (IH Hdots (i + 1)) by lia.
    destruct dots as [|y dots].
    + simpl. rewrite Hx. lia.
    + replace (0 <=? i + 1 + Z.of_nat (String.length (String y dots)) - 1)
        with true by (symmetry; apply Z.leb_le; lia).
      cbn [String.length]. lia.
Qed.

(** A run of dots cut at a given length. *)
Lemma all_dots_cut (dots : string) (k : nat) :
  all_dots dots = true ->
  (k <= String.length dots)%nat ->
  exists d1 d2,
    dots = d1 ++ d2 /\ String.length d1 = k /\ all_dots d2 = true.
Proof.
  revert k; induction dots as [|x dots IH]; intros k Hdots Hk.
  - exists "", "". simpl in Hk. repeat split. simpl. lia.
  - destruct k as [|k].
    + exists "", (String x dots). repeat split. exact Hdots.
    + simpl in Hdots. apply andb_true_iff in Hdots. destruct Hdots as [_ Hdots].
      simpl in Hk. destruct (IH k Hdots ltac:(lia)) as (d1 & d2 & E & Hl & Hd).
      exists (String x d1), d2. subst dots. simpl. repeat split; [lia|exact Hd].
Qed.

(** A name made of dots and of a part without dot has no extension. *)
Lemma splitext_no_extension (dots rest : string) :
  all_dots dots = true ->
  rfind rest extsep = -1 ->
  splitext (dots ++ rest) = (dots ++ rest, "").
Proof.
  intros Hdots Hrest. unfold splitext, _splitext.
  assert (Hdot : rfind (dots ++ rest) extsep
                 = Z.of_nat (String.length dots) - 1).
  { unfold rfind. rewrite (rfind_from_dots dots rest 0 Hdots Hrest) by lia.
    destruct dots; [reflexivity|lia]. }
  rewrite Hdot.
  assert (Hsep : -1 <= rfind (dots ++ rest) sep).
  { unfold rfind. destruct (rfind_from_range (dots ++ rest) sep 0); lia. }
  remember (rfind (dots ++ rest) sep) as si eqn:Esi. clear Esi.
  destruct (si <? Z.of_nat (String.length dots) - 1) eqn:Hlt; [|reflexivity].
  apply Z.ltb_lt in Hlt.
  destruct (all_dots_cut dots (Z.to_nat (si + 1)) Hdots ltac:(lia))
    as (d1 & d2 & E & Hl & Hd2).
  replace (si + 1) with (Z.of_nat (String.length d1)) by lia.
  assert (Hlen : String.length dots = (String.length d1 + String.length d2)%nat)
    by (rewrite E; apply length_append).
  replace (non_dot_before (dots ++ rest))
    with (non_dot_before (d1 ++ d2 ++ rest))
    by (rewrite E, append_assoc; reflexivity).
  rewrite (non_dot_before_dots d2 Hd2 d1 rest); [reflexivity|lia].
Qed.

(** A name without separator that holds a dot after a character other
    than a dot is cut at its last dot. *)
Lemma splitext_extension (dots : string) (c : ascii) (r e : string) :
  all_dots dots = true ->
  c <> extsep ->
  rfind e extsep = -1 ->
  rfind (dots ++ String c r ++ String extsep e) sep = -1 ->
  splitext (dots ++ String c r ++ String extsep e)
  = (dots ++ String c r, String extsep e).
Proof.
  intros Hdots Hc He Hsep. unfold splitext, _splitext. rewrite Hsep.
  set (p := dots ++ String c r ++ String extsep e).
  assert (Ep : p = (dots ++ String c r) ++ String extsep e).
  { unfold p. rewrite append_assoc. reflexivity. }
  assert (Hdot : rfind p extsep = Z.of_nat (String.length (dots ++ String c r))).
  { unfold rfind. rewrite Ep, rfind_from_last by (try lia; exact He). lia. }
  rewrite Hdot.
  replace (-1 <? Z.of_nat (String.length (dots ++ String c r))) with true
    by (symmetry; apply Z.ltb_lt; lia).
  change (-1 + 1) with (Z.of_nat (String.length "")).
  replace p with ("" ++ dots ++ String c (r ++ String extsep e)) at 1
    by reflexivity.
  rewrite (non_dot_before_found dots c Hdots Hc "" (r ++ String extsep e)).
  - cbn [andb]. unfold slice_to, slice_from. rewrite Nat2Z.id, Ep.
    rewrite substring_left, substring_right. reflexivity.
  - rewrite length_append. simpl String.length. lia.
Qed.

(** Every name has one of the two forms. *)
Lemma name_shape (name : string) :
  exists dots rest,
    name = dots ++ rest
    /\ all_dots dots = true
    /\ (rfind rest extsep = -1
        \/ exists c r e,
            rest = String c r ++ String extsep e
            /\ c <> extsep
            /\ rfind e extsep = -1).
Proof.
  induction name as [|x name IH].
  - exists "", "". repeat split. left. reflexivity.
  - destruct (Ascii.eqb x extsep) eqn:Hx.
    + destruct IH as (dots & rest & E & Hdots & Hrest).
      exists (String x dots), rest. subst name. repeat split.
      * simpl. rewrite Hx, Hdots. reflexivity.
      * exact Hrest.
    + exists "", (String x name). repeat split.
      destruct (rfind_from_split (String x name) extsep 0 ltac:(lia))
        as [E|(a & b & Hs & _ & Hb)].
      * left. exact E.
      * right. destruct a as [|c a].
        -- simpl in Hs. injection Hs as Hs _. subst x.
           rewrite Ascii.eqb_refl in Hx. discriminate.
        -- simpl in Hs. injection Hs as Hs1 Hs2. subst c.
           exists x, a, b. repeat split.
           ++ simpl. rewrite Hs2. reflexivity.
           ++ apply Ascii.eqb_neq. exact Hx.
           ++ exact Hb.
Qed.

(** ** Lower case *)

Lemma str_lower_ascii (os : OS) (s : string) :
  is_ascii s = true -> str_lower os s = ascii_lower s.
Proof. apply lower_of_ascii. Qed.

Lemma str_lower_empty (os : OS) : str_lower os "" = "".
Proof. apply (str_lower_ascii os ""). reflexivity. Qed.

Lemma str_lower_no_capital (os : OS) (s : string) :
  ascii_lower (str_lower os s) = str_lower os s.
Proof. apply lower_of_no_capital. Qed.

Lemma str_lower_dot (os : OS) (e : string) :
  exists e', str_lower os (String extsep e) = String extsep e'.
Proof. apply lower_of_dot. Qed.

(** An extension key is empty or starts with the dot. *)
Lemma ExtensionKey_cases (os : OS) (file : string) :
  (snd (splitext file) = "" /\ ExtensionKey os file = "")
  \/ exists e e',
      snd (splitext file) = String extsep e
      /\ ExtensionKey os file = String extsep e'.
Proof.
  unfold ExtensionKey.
  destruct (splitext_parts file) as (_ & [E|(e & E & _)]); rewrite E.
  - left. split; [reflexivity|apply str_lower_empty].
  - right. destruct (str_lower_dot os e) as (e' & E').
    exists e, e'. split; [reflexivity|exact E'].
Qed.

(** The joined path ends with the name it was given. *)
Lemma join_keeps_name (a b : string) : exists before, join a b = before ++ b.
Proof.
  unfold join.
  destruct (startswith b (String sep "") || (a =? "")%string).
  - exists "". reflexivity.
  - destruct (endswith a (String sep "")).
    + exists a. reflexivity.
    + exists (a ++ String sep ""). rewrite append_assoc. reflexivity.
Qed.



(** ** The traversal of a directory tree *)

(** The traversal meets every file of the tree, at any depth. *)
Lemma tree_walk_complete (top : string) (t : dtree) (name p : string) :
  tree_file top t name p ->
  exists root,
    p = join root name
    /\ In (root, name)
         (flat_map (fun '(root, dirs, files) => map (pair root) files)
            (tree_walk top t)).
Proof.
  induction 1 as [top files subdirs name size Hin
                 |top files subdirs d t' name p Hin Hfile IH].
  - exists top. split; [reflexivity|]. simpl. apply in_or_app. left.
    apply in_map. change name with (fst (name, size)). apply in_map, Hin.
  - destruct IH as (root & Hp & Hroot). exists root. split; [exact Hp|].
    simpl. apply in_or_app. right.
    apply in_flat_map in Hroot. destruct Hroot as (triple & Htriple & Hrf).
    apply in_flat_map. exists triple. split; [|exact Hrf].
    apply in_flat_map. exists (d, t'). split; [exact Hin|exact Htriple].
Qed.

Lemma walk_files_tree (lowering : Lowering) (top : string) (t : dtree) :
  walk_files (tree_os_with lowering top t) {| directory := top |}
  = flat_map (fun '(root, dirs, files) => map (pair root) files)
      (tree_walk top t).
Proof.
  unfold walk_files; simpl. destruct t as [files subdirs]; simpl.
  unfold at_path at 1; simpl. rewrite String.eqb_refl. reflexivity.
Qed.

(** ** Inaccessible files *)

Lemma sized_unreadable (os : OS) (root file : string) :
  readable os root file = false -> sized os (root, file) = [].
Proof.
  unfold readable, sized; simpl.
  destruct (os_path_getsize os (join root file)); [discriminate|reflexivity].
Qed.

Lemma accessible_files_without (os : OS) (self : FileAnalyzer.t) :
  accessible_files (without_inaccessible os) self = accessible_files os self.
Proof.
  unfold accessible_files, walk_files; simpl.
  induction (os_walk os (directory self)) as [|[[root dirs] files] w IH]; simpl.
  - reflexivity.
  - rewrite !flat_map_app, IH. f_equal.
    clear. induction files as [|file files IHf]; simpl.
    + reflexivity.
    + destruct (readable os root file) eqn:E; simpl.
      * rewrite IHf. reflexivity.
      * rewrite IHf.
        change (sized os (root, file) ++ flat_map (sized os) (map (pair root) files))%list
          with (flat_map (sized os) ((root, file) :: map (pair root) files)).
        simpl. rewrite (sized_unreadable os root file E). reflexivity.
Qed.

Lemma accessible_files_readable (os : OS) (self : FileAnalyzer.t) :
  Forall (fun f => os_path_getsize os (sf_path f) = Some (Z.to_N (sf_size f))
                   /\ 0 <= sf_size f)
    (accessible_files os self).
Proof.
  unfold accessible_files. apply Forall_flat_map, Forall_forall.
  intros [root file] _. unfold sized; simpl.
  destruct (os_path_getsize os (join root file)) as [n|] eqn:E;
    constructor; [|constructor].
  simpl. rewrite N2Z.id. split; [exact E|lia].
Qed.

(** ** Messages *)

Lemma prefix_append (p s : string) : String.prefix p (p ++ s) = true.
Proof.
  induction p as [|c p IH]; simpl.
  - destruct s; reflexivity.
  - destruct (Ascii.ascii_dec c c) as [_|N]; [exact IH|contradiction].
Qed.

Lemma contains_prefix (msg phrase : string) :
  String.prefix phrase msg = true -> contains msg phrase = true.
Proof.
  intros H. destruct msg; cbn [contains]; rewrite H; reflexivity.
Qed.

Lemma mentions_contains (msg phrase : string) :
  mentions msg phrase -> contains msg phrase = true.
Proof.
  intros (before & after & ->).
  induction before as [|c before IH].
  - change ("" ++ phrase ++ after) with (phrase ++ after).
    apply contains_prefix, prefix_append.
  - change (String c before ++ phrase ++ after)
      with (String c (before ++ phrase ++ after)).
    cbn [contains]. rewrite IH. apply orb_true_r.
Qed.

(** ** The report *)

Lemma generate_report_run (os : OS) (self : FileAnalyzer.t)
      (output_file : string) (d : disk) :
  generate_report os self output_file d
  = let output_path := join (directory self) output_file in
    let report := json_of_report (report_of os self) in
    if os_open_w os output_path then
      match os_json_dump os output_path report with
      | None => (Ok output_path, written d output_path report)
      | Some e => (Raise (exn_of e), cut_short d output_path report)
      end
    else (Raise (OSError output_path), d).
Proof.
  unfold generate_report, call, bind, write_json.
  rewrite get_file_stats_run, find_large_files_run. cbv zeta.
  destruct (os_open_w os (join (directory self) output_file));
    [|reflexivity].
  match goal with
  | |- context [os_json_dump os ?p ?r] =>
      change r with (json_of_report (report_of os self))
  end.
  destruct (os_json_dump os (join (directory self) output_file)
              (json_of_report (report_of os self))); reflexivity.
Qed.

Lemma init_directory (os : OS) (root : string) (self : FileAnalyzer.t) :
  __init__ os root = Ok self -> directory self = root.
Proof.
  unfold __init__.
  destruct (negb (os_path_exists os root)); [discriminate|].
  destruct (negb (os_path_isdir os root)); [discriminate|].
  intros [= <-]. reflexivity.
Qed.

(** ** The code on concrete inputs *)

Example splitext_examples :
  map splitext ["a.py"; "b.TXT"; "c"; ".bashrc"; "x.tar.gz"; "a."; "..a"]
  = [("a", ".py"); ("b", ".TXT"); ("c", ""); (".bashrc", ""); ("x.tar", ".gz");
     ("a", "."); ("..a", "")].
Proof. reflexivity. Qed.

Example join_examples :
  map (fun ab => join (fst ab) (snd ab))
    [("/tmp/d", "a.py"); ("/tmp/d/", "a.py"); (".", "a.py"); ("/tmp/d", "/etc/x")]
  = ["/tmp/d/a.py"; "/tmp/d/a.py"; "./a.py"; "/etc/x"].
Proof. reflexivity. Qed.

(** [round(0.125, 2)] is [0.12] and [round(0.375, 2)] is [0.38]. *)
Example round2_examples :
  map round2 [truediv 131072 (1024 * 1024); truediv 393216 (1024 * 1024);
              truediv 20000000 (1024 * 1024); truediv 40 (1024 * 1024)]
  = [Qmake 12 100; Qmake 38 100; Qmake 1907 100; Qmake 0 100].
Proof. reflexivity. Qed.

Example sorted_example :
  sorted [(1, "a"); (3, "b"); (1, "c"); (3, "d"); (2, "e")] fst true
  = [(3, "b"); (3, "d"); (2, "e"); (1, "a"); (1, "c")].
Proof. reflexivity. Qed.

Example three_files_stats :
  get_file_stats (tree_os "/tmp/d" Examples.three_files) Examples.at_tmp_d
  = Ok {| total_files := 3;
          total_size_bytes := 40;
          total_size_mb := Qmake 0 100;
          extensions_count := [(".py", 1); (".txt", 1); ("", 1)] |}.
Proof. reflexivity. Qed.

(** The unreadable [x.tar.gz] is listed by extension and counted nowhere. *)
Example project_stats :
  get_file_stats (tree_os "/tmp/d" Examples.project) Examples.at_tmp_d
  = Ok {| total_files := 6;
          total_size_bytes := 20131127;
          total_size_mb := Qmake 1920 100;
          extensions_count := [(".py", 2); (".txt", 1); ("", 2); (".bin", 1)] |}
  /\ get_files_by_extension (tree_os "/tmp/d" Examples.project)
       Examples.at_tmp_d None
     = [(".py", ["/tmp/d/a.py"; "/tmp/d/sub/twin.py"]);
        (".txt", ["/tmp/d/b.TXT"]);
        ("", ["/tmp/d/c"; "/tmp/d/sub/.bashrc"]);
        (".bin", ["/tmp/d/sub/big.bin"]);
        (".gz", ["/tmp/d/sub/x.tar.gz"])]
  /\ get_files_by_extension (tree_os "/tmp/d" Examples.project)
       Examples.at_tmp_d (Some [".py"])
     = [(".py", ["/tmp/d/a.py"; "/tmp/d/sub/twin.py"])].
Proof. repeat split. Qed.

(** Files of equal size stay in the order of the traversal. *)
Example project_large_files :
  find_large_files (tree_os "/tmp/d" Examples.project) Examples.at_tmp_d 0
  = Ok [ {| path := "/tmp/d/sub/big.bin"; size_bytes := 20000000;
            size_mb := Qmake 1907 100 |};
         {| path := "/tmp/d/sub/.bashrc"; size_bytes := 131072;
            size_mb := Qmake 12 100 |};
         {| path := "/tmp/d/b.TXT"; size_bytes := 20; size_mb := Qmake 0 100 |};
         {| path := "/tmp/d/a.py"; size_bytes := 15; size_mb := Qmake 0 100 |};
         {| path := "/tmp/d/sub/twin.py"; size_bytes := 15;
            size_mb := Qmake 0 100 |};
         {| path := "/tmp/d/c"; size_bytes := 5; size_mb := Qmake 0 100 |} ]
  /\ find_large_files (tree_os "/tmp/d" Examples.project) Examples.at_tmp_d
       default_min_size_mb
     = Ok [ {| path := "/tmp/d/sub/big.bin"; size_bytes := 20000000;
               size_mb := Qmake 1907 100 |} ].
Proof. split; reflexivity. Qed.

(** Letters beyond ASCII are lowered too: [a.Ä] and [b.ä] share a key. *)
Example reports_keys :
  get_files_by_extension (tree_os_with Examples.letters "/tmp/u" Examples.reports)
    Examples.at_tmp_u None
  = [(".тхт", ["/tmp/u/доклад.ТХТ"]);
     (".ä", ["/tmp/u/a.Ä"; "/tmp/u/b.ä"]);
     (".я", ["/tmp/u/lost.Я"]);
     (".txt", ["/tmp/u/Notes.TXT"])]
  /\ get_file_stats (tree_os_with Examples.letters "/tmp/u" Examples.reports)
       Examples.at_tmp_u
     = Ok {| total_files := 4;
             total_size_bytes := 100;
             total_size_mb := Qmake 0 100;
             extensions_count := [(".тхт", 1); (".ä", 2); (".txt", 1)] |}.
Proof. split; reflexivity. Qed.

Example empty_directory :
  get_file_stats (tree_os "/tmp/e" (Dir [] [])) {| directory := "/tmp/e" |}
  = Ok {| total_files := 0; total_size_bytes := 0;
          total_size_mb := Qmake 0 100; extensions_count := [] |}
  /\ get_files_by_extension (tree_os "/tmp/e" (Dir [] []))
       {| directory := "/tmp/e" |} None = []
  /\ find_large_files (tree_os "/tmp/e" (Dir [] [])) {| directory := "/tmp/e" |}
       default_min_size_mb = Ok [].
Proof. repeat split. Qed.

(** * The claims *)




(** C2: for every directory and every threshold, the list
    [find_large_files] returns is sorted by non-increasing [size_bytes]
    (each entry is at least as large as the next one, and as every later
    one), and the entries of equal [size_bytes] are in the order the
    traversal met them. *)
Theorem find_large_files_sorted_stable (os : OS) (self : FileAnalyzer.t)
        (min_size_mb : Q) :
  exists large_files,
    find_large_files os self min_size_mb = Ok large_files
    /\ Sorted (descending size_bytes) large_files
    /\ StronglySorted (descending size_bytes) large_files
    /\ Permutation (encounter_order os self min_size_mb) large_files
    /\ forall size,
        filter (has_key size_bytes size) large_files
        = filter (has_key size_bytes size)
            (encounter_order os self min_size_mb).
Proof.
  rewrite find_large_files_run. eexists. split; [reflexivity|].
  destruct (sorted_reverse_spec size_bytes (encounter_order os self min_size_mb))
    as (Hsorted & Hperm & Hstable).
  repeat split; auto. apply StronglySorted_Sorted, Hsorted.
Qed.

Lemma entry_key_of (l : list sized_file) :
  map entry_key (map entry_of l) = map file_key l.
Proof. rewrite map_map. reflexivity. Qed.

Lemma at_least_zero (size : Z) : 0 <= size -> at_least_mb 0 size = true.
Proof.
  intros H. apply Qle_bool_iff. unfold Qle; simpl. lia.
Qed.

Lemma filter_at_least_zero (l : list sized_file) :
  Forall (fun f => 0 <= sf_size f) l ->
  filter (fun f => at_least_mb 0 (sf_size f)) l = l.
Proof.
  induction 1 as [|f l Hf _ IH]; simpl.
  - reflexivity.
  - rewrite (at_least_zero _ Hf), IH. reflexivity.
Qed.

(** C3: [find_large_files(min_size_mb)] returns exactly the accessible
    files of the traversal whose size in bytes is at least
    [min_size_mb * 1,048,576], each once; with [min_size_mb = 0] it
    returns every accessible file. *)
Theorem find_large_files_threshold (os : OS) (self : FileAnalyzer.t)
        (min_size_mb : Q) :
  (exists large_files,
      find_large_files os self min_size_mb = Ok large_files
      /\ Permutation (map entry_key large_files)
           (map file_key
              (filter (fun f => at_least_mb min_size_mb (sf_size f))
                 (accessible_files os self))))
  /\ (exists all_files,
         find_large_files os self 0 = Ok all_files
         /\ Permutation (map entry_key all_files)
              (map file_key (accessible_files os self)))
  /\ forall size,
      at_least_mb min_size_mb size = true
      <-> (min_size_mb * inject_Z 1048576 <= inject_Z size)%Q.
Proof.
  assert (Hrun : forall m,
             exists large_files,
               find_large_files os self m = Ok large_files
               /\ Permutation (map entry_key large_files)
                    (map file_key
                       (filter (fun f => at_least_mb m (sf_size f))
                          (accessible_files os self)))).
  { intros m. rewrite find_large_files_run. eexists. split; [reflexivity|].
    destruct (sorted_reverse_spec size_bytes (encounter_order os self m))
      as (_ & Hperm & _).
    rewrite <- Hperm. unfold encounter_order. rewrite entry_key_of.
    reflexivity. }
  split; [apply Hrun|]. split.
  - destruct (Hrun 0%Q) as (all_files & Hfind & Hperm).
    exists all_files. split; [exact Hfind|].
    rewrite Hperm, filter_at_least_zero; [reflexivity|].
    eapply Forall_impl; [|apply accessible_files_readable].
    intros f [_ Hf]. exact Hf.
  - intros size. unfold at_least_mb. apply Qle_bool_iff.
Qed.

(** C4: [get_files_by_extension()] groups every file of the traversal,
    at any depth, by its extension key: the extension [splitext] finds in
    the name, in lower case, or the empty string when it finds none.
    Each key holds the full paths of its files in the order of encounter;
    a path ends with the file name as it is spelled.  The extension is
    the part of the name from its last dot on when a character other
    than a dot comes before that dot, and is empty otherwise.  The files
    [a.py], [b.TXT] and [c] yield the keys [".py"], [".txt"] and [""];
    letters beyond ASCII are lowered as well. *)
Theorem get_files_by_extension_groups (os : OS) (self : FileAnalyzer.t) :
  (forall k,
      dict_get (get_files_by_extension os self None) k
      = match paths_with_key os self k with
        | [] => None
        | paths => Some paths
        end)
  /\ NoDup (keys (get_files_by_extension os self None))
  /\ (forall root file,
         In (root, file) (walk_files os self) ->
         exists paths,
           dict_get (get_files_by_extension os self None) (ExtensionKey os file)
           = Some paths
           /\ In (join root file) paths)
  /\ (forall file,
         exists stem ext,
           splitext file = (stem, ext)
           /\ file = stem ++ ext
           /\ ExtensionKey os file = str_lower os ext
           /\ ascii_lower (ExtensionKey os file) = ExtensionKey os file
           /\ (is_ascii ext = true -> ExtensionKey os file = ascii_lower ext)
           /\ ((ext = "" /\ ExtensionKey os file = "")
               \/ exists e e',
                   ext = String extsep e
                   /\ rfind e extsep = -1
                   /\ ExtensionKey os file = String extsep e'))
  /\ (forall dots rest,
         all_dots dots = true ->
         rfind rest extsep = -1 ->
         splitext (dots ++ rest) = (dots ++ rest, "")
         /\ ExtensionKey os (dots ++ rest) = "")
  /\ (forall dots c r e,
         all_dots dots = true ->
         c <> extsep ->
         rfind e extsep = -1 ->
         rfind (dots ++ String c r ++ String extsep e) sep = -1 ->
         splitext (dots ++ String c r ++ String extsep e)
         = (dots ++ String c r, String extsep e)
         /\ ExtensionKey os (dots ++ String c r ++ String extsep e)
            = str_lower os (String extsep e))
  /\ (forall name,
         exists dots rest,
           name = dots ++ rest
           /\ all_dots dots = true
           /\ (rfind rest extsep = -1
               \/ exists c r e,
                   rest = String c r ++ String extsep e
                   /\ c <> extsep
                   /\ rfind e extsep = -1))
  /\ (forall root file, exists before, join root file = before ++ file)
  /\ (forall root dirs,
         os_walk os (directory self) = [(root, dirs, ["a.py"; "b.TXT"; "c"])] ->
         get_files_by_extension os self None
         = [(".py", [join root "a.py"]); (".txt", [join root "b.TXT"]);
            ("", [join root "c"])])
  /\ get_files_by_extension (tree_os "/tmp/d" Examples.three_files)
       Examples.at_tmp_d None
     = [(".py", ["/tmp/d/a.py"]); (".txt", ["/tmp/d/b.TXT"]); ("", ["/tmp/d/c"])]
  /\ get_files_by_extension (tree_os_with Examples.letters "/tmp/u" Examples.reports)
       Examples.at_tmp_u None
     = [(".тхт", ["/tmp/u/доклад.ТХТ"]);
        (".ä", ["/tmp/u/a.Ä"; "/tmp/u/b.ä"]);
        (".я", ["/tmp/u/lost.Я"]);
        (".txt", ["/tmp/u/Notes.TXT"])]
  /\ forall lowering top t name p,
      tree_file top t name p ->
      exists paths,
        dict_get (get_files_by_extension (tree_os_with lowering top t)
                    {| directory := top |} None)
          (ExtensionKey (tree_os_with lowering top t) name) = Some paths
        /\ In p paths.
Proof.
  assert (Hlisted : forall os' self' root file,
             In (root, file) (walk_files os' self') ->
             exists paths,
               dict_get (get_files_by_extension os' self' None)
                 (ExtensionKey os' file) = Some paths
               /\ In (join root file) paths).
  { intros os' self' root file Hin. rewrite get_files_by_extension_get.
    assert (Hp : In (join root file)
                   (paths_with_key os' self' (ExtensionKey os' file))).
    { unfold paths_with_key.
      apply (in_map (fun rf => join (fst rf) (snd rf)) _ (root, file)).
      apply filter_In. split; [exact Hin|]. simpl. apply String.eqb_refl. }
    destruct (paths_with_key os' self' (ExtensionKey os' file)) as [|p0 ps];
      [destruct Hp|].
    eexists. split; [reflexivity|exact Hp]. }
  split; [apply get_files_by_extension_get|].
  split.
  { rewrite get_files_by_extension_run.
    destruct (classify_fold os None (walk_files os self) []) as (_ & _ & Hnd & _).
    apply Hnd. constructor. }
  split; [apply Hlisted|].
  split.
  { intros file. destruct (splitext_parts file) as (Hcat & Hext).
    pose proof (ExtensionKey_cases os file) as Hkey.
    unfold ExtensionKey in *.
    destruct (splitext file) as [stem ext]. simpl fst in *; simpl snd in *.
    exists stem, ext.
    split; [reflexivity|]. split; [symmetry; exact Hcat|].
    split; [reflexivity|]. split; [apply str_lower_no_capital|].
    split; [apply str_lower_ascii|].
    destruct Hext as [E|(e & E & He)].
    - left. split; [exact E|]. rewrite E. apply str_lower_empty.
    - right. destruct Hkey as [[E' _]|(e0 & e' & E0 & E')]; [congruence|].
      exists e, e'. split; [exact E|]. split; [exact He|exact E']. }
  split.
  { intros dots rest Hdots Hrest.
    pose proof (splitext_no_extension dots rest Hdots Hrest) as E.
    split; [exact E|]. unfold ExtensionKey. rewrite E. apply str_lower_empty. }
  split.
  { intros dots c r e Hdots Hc He Hsep.
    pose proof (splitext_extension dots c r e Hdots Hc He Hsep) as E.
    split; [exact E|]. unfold ExtensionKey. rewrite E. reflexivity. }
  split; [apply name_shape|].
  split; [intros; apply join_keeps_name|].
  split.
  { intros root dirs Hwalk. unfold get_files_by_extension. rewrite Hwalk.
    cbn [fold_left].
    change (snd (splitext "a.py")) with ".py".
    change (snd (splitext "b.TXT")) with ".TXT".
    change (snd (splitext "c")) with "".
    rewrite (str_lower_ascii os ".py" eq_refl).
    rewrite (str_lower_ascii os ".TXT" eq_refl).
    rewrite (str_lower_ascii os "" eq_refl).
    reflexivity. }
  split; [reflexivity|].
  split; [reflexivity|].
  intros lowering top t name p Hfile.
  destruct (tree_walk_complete top t name p Hfile) as (root & -> & Hin).
  apply Hlisted. rewrite walk_files_tree. exact Hin.
Qed.

Lemma get_files_by_extension_groups_witness :
  (exists paths,
      dict_get (get_files_by_extension (tree_os "/tmp/d" Examples.project)
                  {| directory := "/tmp/d" |} None) ".py" = Some paths
      /\ In "/tmp/d/sub/twin.py" paths)
  /\ (splitext "..bashrc" = ("..bashrc", "")
      /\ ExtensionKey (tree_os "/tmp/d" Examples.project) "..bashrc" = "")
  /\ (splitext "..a.tar.GZ" = ("..a.tar", ".GZ")
      /\ ExtensionKey (tree_os "/tmp/d" Examples.project) "..a.tar.GZ" = ".gz").
Proof.
  destruct (get_files_by_extension_groups
              (tree_os "/tmp/d" Examples.project) Examples.at_tmp_d)
    as (_ & _ & _ & _ & Hnone & Hext & _ & _ & _ & _ & _ & Htree).
  split; [|split].
  - apply (Htree ascii_text "/tmp/d" Examples.project "twin.py"
             "/tmp/d/sub/twin.py").
    apply tree_file_below with (d := "sub")
      (t' := Dir [("big.bin", Some 20000000%N); ("x.tar.gz", None);
                  (".bashrc", Some 131072%N); ("twin.py", Some 15%N)] []).
    + simpl. left. reflexivity.
    + apply (tree_file_here "/tmp/d/sub" _ [] "twin.py" (Some 15%N)).
      simpl. tauto.
  - apply (Hnone ".." "bashrc"); reflexivity.
  - apply (Hext ".." "a"%char ".tar" "GZ").
    + reflexivity.
    + discriminate.
    + reflexivity.
    + reflexivity.
Defined.

Lemma all_accessible_length (os : OS) (l : list (string * string)) :
  (forall rf, In rf l -> os_path_getsize os (join (fst rf) (snd rf)) <> None) ->
  len (flat_map (sized os) l) = len l.
Proof.
  induction l as [|rf l IH]; intros H; simpl.
  - reflexivity.
  - rewrite len_app, len_cons, IH by (intros; apply H; right; assumption).
    specialize (H rf (or_introl eq_refl)). unfold sized.
    destruct (os_path_getsize os (join (fst rf) (snd rf)));
      [|contradiction].
    rewrite len_cons, len_nil. lia.
Qed.

Lemma filter_true {A} (l : list A) : filter (fun _ => true) l = l.
Proof.
  induction l as [|x l IH]; simpl; [reflexivity|]. rewrite IH. reflexivity.
Qed.

(** C5: when no file of the traversal is inaccessible, [total_files] of
    [get_file_stats()] is the sum of the lengths of the values of
    [get_files_by_extension()]. *)
Theorem total_files_matches_classification (os : OS) (self : FileAnalyzer.t) :
  all_accessible os self ->
  exists stats,
    get_file_stats os self = Ok stats
    /\ total_files stats
       = sum (map len (values (get_files_by_extension os self None))).
Proof.
  intros Hall. rewrite get_file_stats_run. eexists. split; [reflexivity|].
  simpl total_files. rewrite count_file_total_files.
  rewrite get_files_by_extension_run.
  destruct (classify_fold os None (walk_files os self) []) as (Hsum & _).
  rewrite Hsum. simpl. rewrite filter_true.
  unfold accessible_files. rewrite all_accessible_length by exact Hall.
  reflexivity.
Qed.

Lemma total_files_matches_classification_witness :
  exists stats,
    get_file_stats (tree_os "/tmp/d" Examples.three_files) Examples.at_tmp_d
    = Ok stats
    /\ total_files stats
       = sum (map len (values (get_files_by_extension
                                 (tree_os "/tmp/d" Examples.three_files)
                                 Examples.at_tmp_d None))).
Proof.
  apply (total_files_matches_classification
           (tree_os "/tmp/d" Examples.three_files) Examples.at_tmp_d).
  intros rf Hin. vm_compute in Hin.
  destruct Hin as [<-|[<-|[<-|[]]]]; vm_compute; discriminate.
Defined.

(** C6, as the code has it: construction raises [ValueError] exactly when
    the path does not exist, with a message that contains
    ["не существует"], or exists but is not a directory, with a message
    that contains ["не является директорией"]; on an existing directory
    it returns the analyzer of that directory and raises nothing. *)
Theorem init_raises_on_bad_root (os : OS) (directory : string) :
  match os_path_exists os directory, os_path_isdir os directory with
  | false, _ =>
      exists msg,
        __init__ os directory = Raise (ValueError msg)
        /\ mentions msg "не существует"
  | true, false =>
      exists msg,
        __init__ os directory = Raise (ValueError msg)
        /\ mentions msg "не является директорией"
  | true, true =>
      __init__ os directory = Ok {| FileAnalyzer.directory := directory |}
  end.
Proof.
  unfold __init__.
  destruct (os_path_exists os directory); simpl.
  - destruct (os_path_isdir os directory); simpl.
    + reflexivity.
    + eexists. split; [reflexivity|].
      exists (directory ++ " "), "".
      rewrite append_empty_r, append_assoc. reflexivity.
  - assert (H : exists msg,
               Raise (ValueError ("Директория " ++ directory ++ " не существует"))
               = Raise (A := FileAnalyzer.t) (ValueError msg)
               /\ mentions msg "не существует").
    { eexists. split; [reflexivity|].
      exists ("Директория " ++ directory ++ " "), "".
      rewrite append_empty_r, !append_assoc. reflexivity. }
    destruct (os_path_isdir os directory); exact H.
Qed.

(** C6, as the claim words the messages: the message raised for a missing
    path does not contain ["does not exist"], and the one raised for a
    regular file does not contain ["not a directory"]. *)
Lemma init_message_wording :
  (exists msg,
      __init__ (tree_os "/tmp/d" Examples.three_files) "/nonexistent/directory"
      = Raise (ValueError msg)
      /\ ~ mentions msg "does not exist")
  /\ (exists msg,
         __init__ (tree_os "/tmp/d" Examples.three_files) "/tmp/d/a.py"
         = Raise (ValueError msg)
         /\ ~ mentions msg "not a directory").
Proof.
  split; eexists; (split; [reflexivity|]);
    intros H; apply mentions_contains in H; vm_compute in H; discriminate.
Qed.

Lemma accessible_files_In (os : OS) (self : FileAnalyzer.t) (f : sized_file) :
  In f (accessible_files os self)
  <-> exists root file n,
      In (root, file) (walk_files os self)
      /\ os_path_getsize os (join root file) = Some n
      /\ f = {| sf_path := join root file; sf_name := file;
                sf_size := Z.of_N n |}.
Proof.
  unfold accessible_files. rewrite in_flat_map. split.
  - intros ([root file] & Hin & Hf). unfold sized in Hf. simpl in Hf.
    destruct (os_path_getsize os (join root file)) as [n|] eqn:E;
      [|destruct Hf].
    destruct Hf as [<-|[]]. exists root, file, n. repeat split; assumption.
  - intros (root & file & n & Hin & E & ->). exists (root, file).
    split; [exact Hin|]. unfold sized. simpl. rewrite E. left. reflexivity.
Qed.

(** C7: in [get_file_stats] and [find_large_files] a file whose size
    cannot be read is skipped entirely and the walk goes on: both methods
    return, without raising, what they return when the traversal does not
    list such files at all.  The summary counts the files whose size can
    be read, wherever the traversal meets them, and only them, in
    [total_files], [total_size_bytes] and [extensions_count]; the list of
    large files holds every such file that is large enough, and only
    such files. *)
Theorem inaccessible_files_skipped (os : OS) (self : FileAnalyzer.t) :
  (exists stats,
      get_file_stats os self = Ok stats
      /\ get_file_stats (without_inaccessible os) self = Ok stats
      /\ total_files stats = len (accessible_files os self)
      /\ total_size_bytes stats = sum (map sf_size (accessible_files os self))
      /\ forall k,
          defaultdict_get 0 (extensions_count stats) k = count_with_key os self k)
  /\ (forall min_size_mb,
         exists large_files,
           find_large_files os self min_size_mb = Ok large_files
           /\ find_large_files (without_inaccessible os) self min_size_mb
              = Ok large_files
           /\ Forall (fun e => os_path_getsize os (path e) <> None) large_files
           /\ Permutation (map entry_key large_files)
                (map file_key
                   (filter (fun f => at_least_mb min_size_mb (sf_size f))
                      (accessible_files os self)))
           /\ forall root file n,
               In (root, file) (walk_files os self) ->
               os_path_getsize os (join root file) = Some n ->
               at_least_mb min_size_mb (Z.of_N n) = true ->
               In (join root file, Z.of_N n) (map entry_key large_files))
  /\ (forall f,
         In f (accessible_files os self)
         <-> exists root file n,
             In (root, file) (walk_files os self)
             /\ os_path_getsize os (join root file) = Some n
             /\ f = {| sf_path := join root file; sf_name := file;
                       sf_size := Z.of_N n |})
  /\ get_file_stats (tree_os "/tmp/d" Examples.project) Examples.at_tmp_d
     = Ok {| total_files := 6;
             total_size_bytes := 20131127;
             total_size_mb := Qmake 1920 100;
             extensions_count := [(".py", 2); (".txt", 1); ("", 2); (".bin", 1)] |}
  /\ (exists large_files,
         find_large_files (tree_os "/tmp/d" Examples.project)
           Examples.at_tmp_d 0 = Ok large_files
         /\ map path large_files
            = ["/tmp/d/sub/big.bin"; "/tmp/d/sub/.bashrc"; "/tmp/d/b.TXT";
               "/tmp/d/a.py"; "/tmp/d/sub/twin.py"; "/tmp/d/c"]).
Proof.
  split.
  { rewrite !get_file_stats_run, accessible_files_without.
    eexists. split; [reflexivity|]. split; [reflexivity|].
    simpl total_files; simpl total_size_bytes; simpl extensions_count.
    rewrite count_file_total_files, count_file_total_size.
    repeat split.
    intros k.
    destruct (count_file_extensions os (accessible_files os self) no_file)
      as (_ & _ & _ & Hget).
    rewrite Hget. reflexivity. }
  split.
  { intros min_size_mb. rewrite !find_large_files_run.
    unfold encounter_order. rewrite accessible_files_without.
    eexists. split; [reflexivity|]. split; [reflexivity|].
    destruct (sorted_reverse_spec size_bytes (encounter_order os self min_size_mb))
      as (_ & Hperm & _).
    assert (Hkeys : Permutation
                      (map entry_key
                         (sorted (encounter_order os self min_size_mb)
                            size_bytes true))
                      (map file_key
                         (filter (fun f => at_least_mb min_size_mb (sf_size f))
                            (accessible_files os self)))).
    { rewrite <- Hperm. unfold encounter_order. rewrite map_map. reflexivity. }
    split.
    { eapply Permutation_Forall; [exact Hperm|].
      unfold encounter_order. apply Forall_map, Forall_forall.
      intros f Hf. apply filter_In in Hf. destruct Hf as [Hf _].
      pose proof (accessible_files_readable os self) as Hall.
      rewrite Forall_forall in Hall. destruct (Hall f Hf) as [E _].
      simpl. rewrite E. discriminate. }
    split; [exact Hkeys|].
    intros root file n Hin Hsize Hlarge.
    eapply Permutation_in; [symmetry; exact Hkeys|].
    apply (in_map file_key _
             {| sf_path := join root file; sf_name := file;
                sf_size := Z.of_N n |}).
    apply filter_In. split; [|exact Hlarge].
    apply accessible_files_In. exists root, file, n. repeat split; assumption. }
  split; [apply accessible_files_In|].
  split; [reflexivity|].
  eexists. split; reflexivity.
Qed.

Lemma inaccessible_files_skipped_witness :
  In ("/tmp/d/sub/twin.py", 15)
     (map entry_key
        [ {| path := "/tmp/d/sub/big.bin"; size_bytes := 20000000;
             size_mb := Qmake 1907 100 |};
          {| path := "/tmp/d/sub/.bashrc"; size_bytes := 131072;
             size_mb := Qmake 12 100 |};
          {| path := "/tmp/d/b.TXT"; size_bytes := 20; size_mb := Qmake 0 100 |};
          {| path := "/tmp/d/a.py"; size_bytes := 15; size_mb := Qmake 0 100 |};
          {| path := "/tmp/d/sub/twin.py"; size_bytes := 15;
             size_mb := Qmake 0 100 |};
          {| path := "/tmp/d/c"; size_bytes := 5; size_mb := Qmake 0 100 |} ]).
Proof.
  destruct (inaccessible_files_skipped
              (tree_os "/tmp/d" Examples.project) Examples.at_tmp_d)
    as (_ & Hlarge & _).
  destruct (Hlarge 0%Q) as (large_files & Hrun & _ & _ & _ & Hin).
  injection Hrun as <-.
  apply (Hin "/tmp/d/sub" "twin.py" 15%N).
  - vm_compute. tauto.
  - reflexivity.
  - reflexivity.
Defined.

(** C8: the report [generate_report] assembles, and writes when the file
    can be opened and written, has exactly the top-level fields
    [directory], [statistics], [files_by_extension] and [large_files];
    [directory] is the root the analyzer was constructed on,
    [statistics] is the summary of [get_file_stats()],
    [files_by_extension] the dictionary of [get_files_by_extension()],
    and [large_files] holds the first entries, at most ten, of the sorted
    list [find_large_files()] returns for 10 megabytes, each with its
    [path], [size_bytes] and [size_mb]. *)
Theorem generate_report_contents (os : OS) (root : string)
        (self : FileAnalyzer.t) (output_file : string) (d : disk) :
  __init__ os root = Ok self ->
  exists report stats large_files,
    get_file_stats os self = Ok stats
    /\ find_large_files os self (inject_Z 10) = Ok large_files
    /\ fields report
       = ["directory"; "statistics"; "files_by_extension"; "large_files"]
    /\ field report "directory" = Some (JStr root)
    /\ field report "statistics"
       = Some (JObj [ ("total_files", JInt (total_files stats));
                      ("total_size_bytes", JInt (total_size_bytes stats));
                      ("total_size_mb", JFloat (total_size_mb stats));
                      ("extensions_count",
                       JObj (map (fun kv => (fst kv, JInt (snd kv)))
                               (extensions_count stats))) ])
    /\ field report "files_by_extension"
       = Some (JObj (map (fun kv => (fst kv, JArr (map JStr (snd kv))))
                       (get_files_by_extension os self None)))
    /\ field report "large_files"
       = Some (JArr (map (fun e => JObj [ ("path", JStr (path e));
                                          ("size_bytes", JInt (size_bytes e));
                                          ("size_mb", JFloat (size_mb e)) ])
                       (firstn 10 large_files)))
    /\ (List.length (firstn 10 large_files) <= 10)%nat
    /\ generate_report os self output_file d
       = (if os_open_w os (join root output_file) then
            match os_json_dump os (join root output_file) report with
            | None =>
                (Ok (join root output_file),
                 written d (join root output_file) report)
            | Some e =>
                (Raise (exn_of e), cut_short d (join root output_file) report)
            end
          else (Raise (OSError (join root output_file)), d))
    /\ forall output_path d',
        generate_report os self output_file d = (Ok output_path, d') ->
        d' output_path = Some (Whole report).
Proof.
  intros Hinit. apply init_directory in Hinit. subst root.
  rewrite generate_report_run. cbv zeta.
  rewrite get_file_stats_run, find_large_files_run.
  exists (json_of_report (report_of os self)). do 2 eexists.
  split; [reflexivity|]. split; [reflexivity|]. split; [reflexivity|].
  split; [reflexivity|]. split; [reflexivity|]. split; [reflexivity|].
  split; [reflexivity|]. split; [apply firstn_le_length|].
  split; [reflexivity|].
  intros output_path d'.
  destruct (os_open_w os (join (directory self) output_file));
    [|discriminate].
  destruct (os_json_dump os (join (directory self) output_file)
              (json_of_report (report_of os self))); [discriminate|].
  intros [= <- <-]. unfold written. rewrite String.eqb_refl. reflexivity.
Qed.

Lemma generate_report_contents_witness :
  exists report stats large_files,
    get_file_stats (tree_os "/tmp/d" Examples.project) Examples.at_tmp_d
    = Ok stats
    /\ find_large_files (tree_os "/tmp/d" Examples.project) Examples.at_tmp_d
         (inject_Z 10) = Ok large_files
    /\ fields report
       = ["directory"; "statistics"; "files_by_extension"; "large_files"]
    /\ field report "directory" = Some (JStr "/tmp/d")
    /\ field report "large_files"
       = Some (JArr (map (fun e => JObj [ ("path", JStr (path e));
                                          ("size_bytes", JInt (size_bytes e));
                                          ("size_mb", JFloat (size_mb e)) ])
                       (firstn 10 large_files)))
    /\ generate_report (tree_os "/tmp/d" Examples.project) Examples.at_tmp_d
         "file_report.json" empty_disk
       = (Ok "/tmp/d/file_report.json",
          written empty_disk "/tmp/d/file_report.json" report).
Proof.
  destruct (generate_report_contents (tree_os "/tmp/d" Examples.project)
              "/tmp/d" Examples.at_tmp_d "file_report.json" empty_disk eq_refl)
    as (report & stats & large_files & Hstats & Hlarge & Hfields & Hdir & _ & _
        & Hlist & _ & Hrun & _).
  exists report, stats, large_files.
  split; [exact Hstats|]. split; [exact Hlarge|]. split; [exact Hfields|].
  split; [exact Hdir|]. split; [exact Hlist|]. exact Hrun.
Defined.




(** C10: in the summary of [get_file_stats], [total_files] is the sum of
    the counts of [extensions_count], and every count is at least 1. *)
Theorem total_files_is_sum_of_counts (os : OS) (self : FileAnalyzer.t) :
  exists stats,
    get_file_stats os self = Ok stats
    /\ total_files stats = sum (values (extensions_count stats))
    /\ Forall (fun c => 1 <= c) (values (extensions_count stats))
    /\ NoDup (keys (extensions_count stats)).
Proof.
  rewrite get_file_stats_run. eexists. split; [reflexivity|].
  simpl total_files; simpl extensions_count.
  destruct (count_file_extensions os (accessible_files os self) no_file)
    as (Hsum & Hpos & Hnd & _).
  rewrite count_file_total_files, Hsum. simpl.
  repeat split.
  - apply Hpos. constructor.
  - apply Hnd. constructor.
Qed.

(** * Further properties of the code *)

Import Cli Observations.

(** ** The order of the keys *)

Lemma keys_dict_set {V} (d : dict V) (k : string) (v : V) :
  keys (dict_set d k v) = add_key (keys d) k.
Proof.
  unfold add_key. induction d as [|[k0 v0] d IH]; simpl.
  - reflexivity.
  - rewrite (String.eqb_sym k k0). destruct (k0 =? k)%string; simpl.
    + reflexivity.
    + rewrite IH. destruct (existsb (String.eqb k) (keys d)); reflexivity.
Qed.

(** ** The filter of [get_files_by_extension] *)

Lemma filter_selected_key (os : OS) (extensions : option (list string)) (k : string)
      (l : list (string * string)) :
  filter (fun rf => selected extensions (ExtensionKey os (snd rf))
                    && (ExtensionKey os (snd rf) =? k)%string) l
  = if selected extensions k
    then filter (fun rf => (ExtensionKey os (snd rf) =? k)%string) l
    else [].
Proof.
  induction l as [|rf l IH]; simpl.
  - destruct (selected extensions k); reflexivity.
  - rewrite IH. destruct (ExtensionKey os (snd rf) =? k)%string eqn:E.
    + apply String.eqb_eq in E. rewrite E.
      destruct (selected extensions k); reflexivity.
    + rewrite andb_false_r. reflexivity.
Qed.

(** X1: with a list of extensions, [get_files_by_extension] returns the
    entries of the unfiltered result whose key is in the list, each with
    the same paths in the same order, and no other key. *)
Theorem filtered_is_restriction (os : OS) (self : FileAnalyzer.t)
        (exts : list string) (k : string) :
  dict_get (get_files_by_extension os self (Some exts)) k
  = if existsb (String.eqb k) exts
    then dict_get (get_files_by_extension os self None) k
    else None.
Proof.
  change (existsb (String.eqb k) exts) with (selected (Some exts) k).
  rewrite get_files_by_extension_get, get_files_by_extension_run.
  destruct (classify_fold os (Some exts) (walk_files os self) [])
    as (_ & Hne & _ & Hget).
  specialize (Hget k). specialize (Hne (Forall_nil _)).
  cbn [defaultdict_get dict_get app] in Hget.
  rewrite filter_selected_key in Hget. unfold paths_with_key.
  unfold defaultdict_get in Hget.
  destruct (dict_get (fold_left (classify os (Some exts)) (walk_files os self) []) k)
    as [ps|] eqn:E.
  - apply dict_get_In in E. rewrite Forall_forall in Hne.
    specialize (Hne ps E). subst ps.
    destruct (selected (Some exts) k); [|contradiction].
    destruct (map _ _); [contradiction|reflexivity].
  - destruct (selected (Some exts) k); [|reflexivity].
    rewrite <- Hget. reflexivity.
Qed.

Lemma classify_nothing (os : OS) (l : list (string * string)) (d : dict (list string)) :
  fold_left (classify os (Some [])) l d = d.
Proof.
  induction l as [|rf l IH]; simpl; [reflexivity|]. exact IH.
Qed.

(** X2: an empty list of extensions is a filter that nothing passes, not
    the absence of a filter: the result is the empty dictionary, whatever
    the directory holds. *)
Theorem empty_filter_selects_nothing (os : OS) (self : FileAnalyzer.t) :
  get_files_by_extension os self (Some []) = [].
Proof. rewrite get_files_by_extension_run. apply classify_nothing. Qed.

Lemma ExtensionKey_possible (os : OS) (file : string) :
  possible_key (ExtensionKey os file) = true.
Proof.
  unfold possible_key.
  replace (ascii_lower (ExtensionKey os file)) with (ExtensionKey os file)
    by (symmetry; apply str_lower_no_capital).
  rewrite String.eqb_refl.
  destruct (ExtensionKey_cases os file) as [[_ E]|(e & e' & _ & E)]; rewrite E.
  - reflexivity.
  - simpl. destruct e'; reflexivity.
Qed.

Lemma fold_left_agree {X Y} (f g : X -> Y -> X) (l : list Y) (x : X) :
  (forall a y, In y l -> f a y = g a y) -> fold_left f l x = fold_left g l x.
Proof.
  revert x; induction l as [|y l IH]; intros x H; simpl.
  - reflexivity.
  - rewrite (H x y (or_introl eq_refl)). apply IH.
    intros a z Hz. apply H. right; exact Hz.
Qed.

Lemma selected_possible (exts : list string) (k : string) :
  possible_key k = true ->
  selected (Some (filter possible_key exts)) k = selected (Some exts) k.
Proof.
  intros Hk. simpl. induction exts as [|e exts IH]; simpl.
  - reflexivity.
  - destruct (possible_key e) eqn:Ee; simpl.
    + rewrite IH. reflexivity.
    + rewrite IH. destruct (k =? e)%string eqn:E; [|reflexivity].
      apply String.eqb_eq in E. subst e. congruence.
Qed.

(** X3: the keys are lower-case and either empty or start with a dot, so
    an entry of the filter that is not of that form (such as [".PY"] or
    ["py"]) selects nothing: dropping these entries from the filter does
    not change the result. *)
Theorem filter_entries_must_be_keys (os : OS) (self : FileAnalyzer.t)
        (exts : list string) :
  get_files_by_extension os self (Some exts)
  = get_files_by_extension os self (Some (filter possible_key exts))
  /\ Forall (fun k => possible_key k = true)
       (keys (get_files_by_extension os self (Some exts))).
Proof.
  split.
  - rewrite !get_files_by_extension_run. apply fold_left_agree.
    intros d rf _. unfold classify.
    rewrite (selected_possible exts _ (ExtensionKey_possible os (snd rf))).
    reflexivity.
  - rewrite get_files_by_extension_run.
    assert (H : forall l d,
               Forall (fun k => possible_key k = true) (keys d) ->
               Forall (fun k => possible_key k = true)
                 (keys (fold_left (classify os (Some exts)) l d))).
    { induction l as [|rf l IH]; intros d Hd; simpl; [exact Hd|].
      apply IH. unfold classify.
      destruct (selected (Some exts) (ExtensionKey os (snd rf))); [|exact Hd].
      unfold append_to. rewrite keys_dict_set. unfold add_key.
      destruct (existsb _ _); [exact Hd|].
      apply Forall_app. split; [exact Hd|].
      constructor; [apply ExtensionKey_possible|constructor]. }
    apply H. constructor.
Qed.

Lemma first_seen_from (ks seen : list string) :
  NoDup seen ->
  NoDup (fold_left add_key ks seen)
  /\ forall k, In k (fold_left add_key ks seen) <-> In k seen \/ In k ks.
Proof.
  revert seen; induction ks as [|k0 ks IH]; intros seen Hnd; simpl.
  - split; [exact Hnd|]. intros k; tauto.
  - assert (Hadd : NoDup (add_key seen k0)
                   /\ forall k, In k (add_key seen k0) <-> In k seen \/ k0 = k).
    { unfold add_key. destruct (existsb (String.eqb k0) seen) eqn:E.
      - split; [exact Hnd|]. intros k. split; [tauto|].
        intros [H|<-]; [exact H|].
        apply existsb_exists in E. destruct E as (x & Hx & Ex).
        apply String.eqb_eq in Ex. subst x. exact Hx.
      - split.
        + apply NoDup_app_remove_l with (l := []).
          simpl. apply Permutation_NoDup with (l := k0 :: seen).
          * apply Permutation_cons_append.
          * constructor; [|exact Hnd]. intros Hin.
            assert (existsb (String.eqb k0) seen = true); [|congruence].
            apply existsb_exists. exists k0. split; [exact Hin|].
            apply String.eqb_refl.
        + intros k. rewrite in_app_iff. simpl. tauto. }
    destruct Hadd as [Hnd' Hin']. destruct (IH _ Hnd') as [H1 H2].
    split; [exact H1|]. intros k. rewrite H2, Hin'. tauto.
Qed.

(** The keys seen first hold every key once. *)
Lemma first_seen_spec (ks : list string) :
  NoDup (first_seen ks) /\ forall k, In k (first_seen ks) <-> In k ks.
Proof.
  destruct (first_seen_from ks [] (NoDup_nil _)) as [H1 H2].
  split; [exact H1|]. intros k. rewrite (H2 k). simpl. tauto.
Qed.

Lemma classify_keys (os : OS) (extensions : option (list string))
      (l : list (string * string)) (d : dict (list string)) :
  keys (fold_left (classify os extensions) l d)
  = fold_left add_key
      (filter (selected extensions) (map (fun rf => ExtensionKey os (snd rf)) l))
      (keys d).
Proof.
  revert d; induction l as [|rf l IH]; intros d; simpl.
  - reflexivity.
  - rewrite IH. unfold classify.
    destruct (selected extensions (ExtensionKey os (snd rf))); simpl.
    + unfold append_to. rewrite keys_dict_set. reflexivity.
    + reflexivity.
Qed.

(** X4: the keys of the dictionary [get_files_by_extension] returns are
    the extension keys of the files that pass the filter, each once, in
    the order in which the traversal first meets them. *)
Theorem classification_keys_in_order (os : OS) (self : FileAnalyzer.t)
        (extensions : option (list string)) :
  keys (get_files_by_extension os self extensions)
  = first_seen
      (filter (selected extensions)
         (map (fun rf => ExtensionKey os (snd rf)) (walk_files os self))).
Proof.
  rewrite get_files_by_extension_run. apply classify_keys.
Qed.

Lemma count_file_keys (os : OS) (l : list sized_file) (s : stats_locals) :
  keys (v_extensions_count (fold_left (count_file os) l s))
  = fold_left add_key (map (fun f => ExtensionKey os (sf_name f)) l)
      (keys (v_extensions_count s)).
Proof.
  revert s; induction l as [|f l IH]; intros s; simpl.
  - reflexivity.
  - rewrite IH. simpl. unfold incr. rewrite keys_dict_set. reflexivity.
Qed.

(** X5: the keys of [extensions_count] are the extension keys of the
    accessible files, each once, in the order in which the traversal first
    meets them; a file that cannot be read adds no key. *)
Theorem extensions_count_keys_in_order (os : OS) (self : FileAnalyzer.t) :
  exists stats,
    get_file_stats os self = Ok stats
    /\ keys (extensions_count stats)
       = first_seen (map (fun f => ExtensionKey os (sf_name f))
                       (accessible_files os self)).
Proof.
  rewrite get_file_stats_run. eexists. split; [reflexivity|].
  apply count_file_keys.
Qed.

Lemma sized_cases (os : OS) (rf : string * string) :
  (readable os (fst rf) (snd rf) = true
   /\ exists f, sized os rf = [f] /\ sf_name f = snd rf)
  \/ (readable os (fst rf) (snd rf) = false /\ sized os rf = []).
Proof.
  unfold readable, sized.
  destruct (os_path_getsize os (join (fst rf) (snd rf))).
  - left. split; [reflexivity|]. eexists. split; reflexivity.
  - right. split; reflexivity.
Qed.

Lemma sized_or_not (os : OS) (k : string) (l : list (string * string)) :
  len (filter (fun f => (ExtensionKey os (sf_name f) =? k)%string)
         (flat_map (sized os) l))
  + len (filter (fun rf => (ExtensionKey os (snd rf) =? k)%string)
           (filter (fun rf => negb (readable os (fst rf) (snd rf))) l))
  = len (filter (fun rf => (ExtensionKey os (snd rf) =? k)%string) l).
Proof.
  induction l as [|rf l IH]; simpl.
  - reflexivity.
  - rewrite filter_app, len_app.
    destruct (sized_cases os rf) as [(R & f & Hf & Hname)|(R & Hf)];
      rewrite R, Hf; simpl; rewrite ?Hname;
      destruct (ExtensionKey os (snd rf) =? k)%string;
      rewrite ?len_cons, ?len_nil; lia.
Qed.

Lemma sized_or_not_total (os : OS) (l : list (string * string)) :
  len (flat_map (sized os) l)
  + len (filter (fun rf => negb (readable os (fst rf) (snd rf))) l)
  = len l.
Proof.
  induction l as [|rf l IH].
  - reflexivity.
  - cbn [flat_map filter]. rewrite len_app, len_cons.
    destruct (sized_cases os rf) as [(R & f & Hf & _)|(R & Hf)];
      rewrite R, Hf; cbn [negb]; rewrite ?len_cons, ?len_nil; lia.
Qed.

(** X6: [get_files_by_extension()] lists the files [get_file_stats]
    counts and, besides, the files whose size cannot be read: for every
    key the number of paths is the count of [extensions_count] plus the
    number of inaccessible files of that key, and the lengths of all lists
    add up to [total_files] plus the number of inaccessible files. *)
Theorem classification_counts_inaccessible_too (os : OS) (self : FileAnalyzer.t) :
  exists stats,
    get_file_stats os self = Ok stats
    /\ (forall k,
           len (defaultdict_get [] (get_files_by_extension os self None) k)
           = defaultdict_get 0 (extensions_count stats) k
             + len (filter (fun rf => (ExtensionKey os (snd rf) =? k)%string)
                      (inaccessible_files os self)))
    /\ sum (map len (values (get_files_by_extension os self None)))
       = total_files stats + len (inaccessible_files os self).
Proof.
  rewrite get_file_stats_run. eexists. split; [reflexivity|].
  simpl total_files; simpl extensions_count.
  rewrite get_files_by_extension_run.
  destruct (classify_fold os None (walk_files os self) []) as (Hsum & _ & _ & Hget).
  destruct (count_file_extensions os (accessible_files os self) no_file)
    as (_ & _ & _ & Hcount).
  split.
  - intros k. rewrite Hget, Hcount. simpl.
    unfold len at 1. rewrite length_map. fold (len (filter
      (fun rf => (ExtensionKey os (snd rf) =? k)%string) (walk_files os self))).
    unfold accessible_files, inaccessible_files.
    rewrite <- (sized_or_not os k (walk_files os self)). reflexivity.
  - rewrite Hsum, count_file_total_files. simpl. rewrite filter_true.
    unfold accessible_files, inaccessible_files.
    rewrite <- (sized_or_not_total os (walk_files os self)). reflexivity.
Qed.

(** ** The summary and the list of large files *)

Lemma sizes_nonnegative (os : OS) (self : FileAnalyzer.t) :
  Forall (fun f => 0 <= sf_size f) (accessible_files os self).
Proof.
  eapply Forall_impl; [|apply accessible_files_readable].
  intros f [_ Hf]. exact Hf.
Qed.

Lemma sum_nonnegative (l : list Z) : Forall (fun z => 0 <= z) l -> 0 <= sum l.
Proof.
  induction 1 as [|z l Hz _ IH]; simpl; lia.
Qed.

Lemma round2_nonnegative (size : Z) :
  0 <= size -> (0 <= round2 (truediv size (1024 * 1024)))%Q.
Proof.
  intros H. apply (Qle_trans _ (round2 (truediv 0 (1024 * 1024)))).
  - vm_compute. discriminate.
  - apply size_mb_monotone; lia.
Qed.

(** X7: a traversal without accessible file gives the summary of zeros
    with an empty [extensions_count]; any other gives at least one file,
    at least one extension key, and sizes that are not negative. *)
Theorem stats_of_nothing_and_something (os : OS) (self : FileAnalyzer.t) :
  match accessible_files os self with
  | [] => get_file_stats os self = Ok empty_stats
  | _ :: _ =>
      exists stats,
        get_file_stats os self = Ok stats
        /\ 1 <= total_files stats
        /\ 0 <= total_size_bytes stats
        /\ (0 <= total_size_mb stats)%Q
        /\ extensions_count stats <> []
  end.
Proof.
  rewrite get_file_stats_run.
  pose proof (sizes_nonnegative os self) as Hpos.
  pose proof (count_file_total_size os (accessible_files os self) no_file) as Hsize.
  pose proof (count_file_total_files os (accessible_files os self) no_file) as Hfiles.
  pose proof (count_file_extensions os (accessible_files os self) no_file) as Hext.
  destruct (accessible_files os self) as [|f l]; [reflexivity|].
  eexists. split; [reflexivity|].
  assert (Hsum : 0 <= sum (map sf_size (f :: l))).
  { apply sum_nonnegative, Forall_map. exact Hpos. }
  unfold stats_of. cbn [total_files total_size_bytes total_size_mb extensions_count].
  rewrite Hsize, Hfiles. change (v_total_size no_file) with 0.
  change (v_total_files no_file) with 0. rewrite len_cons.
  rewrite !Z.add_0_l.
  split; [unfold len; lia|]. split; [exact Hsum|].
  split; [apply round2_nonnegative, Hsum|].
  destruct Hext as (Hs & _). intros E. rewrite E in Hs. simpl in Hs.
  rewrite len_cons in Hs. unfold len in Hs. lia.
Qed.

Lemma sum_permutation (l l' : list Z) : Permutation l l' -> sum l = sum l'.
Proof.
  induction 1; simpl; lia.
Qed.

Lemma size_bytes_entry_of (l : list sized_file) :
  map size_bytes (map entry_of l) = map sf_size l.
Proof. rewrite map_map. reflexivity. Qed.

Lemma encounter_order_zero (os : OS) (self : FileAnalyzer.t) :
  encounter_order os self 0 = map entry_of (accessible_files os self).
Proof.
  unfold encounter_order. rewrite filter_at_least_zero; [reflexivity|].
  apply sizes_nonnegative.
Qed.

(** X8: with the threshold 0 [find_large_files] and [get_file_stats]
    describe the same files: the list has [total_files] entries and their
    [size_bytes] add up to [total_size_bytes]. *)
Theorem all_files_listing_matches_stats (os : OS) (self : FileAnalyzer.t) :
  exists stats all_files,
    get_file_stats os self = Ok stats
    /\ find_large_files os self 0 = Ok all_files
    /\ len all_files = total_files stats
    /\ sum (map size_bytes all_files) = total_size_bytes stats.
Proof.
  rewrite get_file_stats_run, find_large_files_run. do 2 eexists.
  split; [reflexivity|]. split; [reflexivity|].
  destruct (sorted_reverse_spec size_bytes (encounter_order os self 0))
    as (_ & Hperm & _).
  pose proof (Permutation_length Hperm) as Hlen.
  pose proof (sum_permutation _ _ (Permutation_map size_bytes Hperm)) as Hsum.
  rewrite encounter_order_zero in Hlen, Hsum.
  rewrite length_map in Hlen. rewrite size_bytes_entry_of in Hsum.
  rewrite encounter_order_zero.
  simpl total_files; simpl total_size_bytes.
  rewrite count_file_total_files, count_file_total_size.
  change (v_total_files no_file) with 0. change (v_total_size no_file) with 0.
  split.
  - unfold len. rewrite <- Hlen. lia.
  - rewrite <- Hsum. lia.
Qed.

(** ** Thresholds *)

Section KeyFilter.
Context {A : Type}.
Variable key : A -> Z.

Lemma StronglySorted_filter (R : A -> A -> Prop) (P : A -> bool) (l : list A) :
  StronglySorted R l -> StronglySorted R (filter P l).
Proof.
  induction 1 as [|x l Hs IH Hx]; simpl.
  - constructor.
  - destruct (P x); [|exact IH]. constructor; [exact IH|].
    rewrite Forall_forall in *. intros y Hy. apply filter_In in Hy.
    apply Hx, Hy.
Qed.

Lemma filter_comm (P Q : A -> bool) (l : list A) :
  filter P (filter Q l) = filter Q (filter P l).
Proof.
  induction l as [|x l IH]; simpl; [reflexivity|].
  destruct (P x) eqn:EP; destruct (Q x) eqn:EQ; simpl;
    rewrite ?EP, ?EQ, IH; reflexivity.
Qed.

(** Filtering commutes with the stable sort. *)
Lemma filter_sorted_reverse (P : A -> bool) (l : list A) :
  filter P (sorted l key true) = sorted (filter P l) key true.
Proof.
  destruct (sorted_reverse_spec key l) as (Hs & _ & Hf).
  apply sorted_reverse_unique.
  - apply StronglySorted_filter, Hs.
  - intros z. rewrite filter_comm, Hf. apply filter_comm.
Qed.

(** In a list sorted by non-increasing key, the elements that pass a test
    which larger keys pass too come first. *)
Lemma sorted_prefix (P : A -> bool) (l : list A) :
  (forall a b, key a <= key b -> P a = true -> P b = true) ->
  StronglySorted (descending key) l ->
  l = (filter P l ++ filter (fun a => negb (P a)) l)%list.
Proof.
  intros Hup. induction 1 as [|x l Hs IH Hx]; simpl.
  - reflexivity.
  - destruct (P x) eqn:E; simpl.
    + rewrite <- IH. reflexivity.
    + assert (Hnone : filter P l = []).
      { apply filter_none. intros y Hy. rewrite Forall_forall in Hx.
        specialize (Hx y Hy). unfold descending in Hx.
        destruct (P y) eqn:Ey; [|reflexivity].
        rewrite (Hup y x Hx Ey) in E. discriminate. }
      rewrite Hnone in IH |- *. simpl in IH |- *. rewrite <- IH. reflexivity.
Qed.

End KeyFilter.

Lemma filter_map_swap {X Y} (f : X -> Y) (P : Y -> bool) (l : list X) :
  filter P (map f l) = map f (filter (fun x => P (f x)) l).
Proof.
  induction l as [|x l IH]; simpl; [reflexivity|].
  rewrite IH. destruct (P (f x)); reflexivity.
Qed.

Lemma at_least_mb_larger (m : Q) (a b : Z) :
  a <= b -> at_least_mb m a = true -> at_least_mb m b = true.
Proof.
  unfold at_least_mb. rewrite !Qle_bool_iff. intros Hab Ha.
  eapply Qle_trans; [exact Ha|]. rewrite <- Zle_Qle. exact Hab.
Qed.

Lemma at_least_mb_lower (m1 m2 : Q) (size : Z) :
  (m1 <= m2)%Q -> at_least_mb m2 size = true -> at_least_mb m1 size = true.
Proof.
  unfold at_least_mb. rewrite !Qle_bool_iff. intros Hm H.
  eapply Qle_trans; [|exact H].
  apply Qmult_le_compat_r; [exact Hm|]. unfold Qle; simpl; lia.
Qed.

Lemma encounter_order_raise (os : OS) (self : FileAnalyzer.t) (m1 m2 : Q) :
  (m1 <= m2)%Q ->
  encounter_order os self m2
  = filter (large_enough m2) (encounter_order os self m1).
Proof.
  intros Hm. unfold encounter_order. rewrite filter_map_swap. f_equal.
  induction (accessible_files os self) as [|f l IH]; simpl; [reflexivity|].
  destruct (at_least_mb m2 (sf_size f)) eqn:E2.
  - rewrite (at_least_mb_lower m1 m2 _ Hm E2). simpl.
    unfold large_enough at 1. simpl. rewrite E2, IH. reflexivity.
  - destruct (at_least_mb m1 (sf_size f)); simpl.
    + unfold large_enough at 1. simpl. rewrite E2. exact IH.
    + exact IH.
Qed.

(** X9: raising the threshold only cuts the list short: for
    [m1 <= m2] the result for [m2] is the beginning of the result for
    [m1], and every entry that follows is below [m2]. *)
Theorem higher_threshold_is_prefix (os : OS) (self : FileAnalyzer.t)
        (m1 m2 : Q) :
  (m1 <= m2)%Q ->
  exists larger smaller,
    find_large_files os self m2 = Ok larger
    /\ find_large_files os self m1 = Ok (larger ++ smaller)%list
    /\ Forall (fun e => large_enough m2 e = false) smaller.
Proof.
  intros Hm. rewrite !find_large_files_run.
  set (l1 := sorted (encounter_order os self m1) size_bytes true).
  exists (filter (large_enough m2) l1),
         (filter (fun e => negb (large_enough m2 e)) l1).
  split.
  - rewrite (encounter_order_raise os self m1 m2 Hm).
    unfold l1. rewrite filter_sorted_reverse. reflexivity.
  - split.
    + f_equal. apply (sorted_prefix size_bytes).
      * intros a b Hab. apply at_least_mb_larger, Hab.
      * apply (sorted_reverse_spec size_bytes).
    + apply Forall_forall. intros e He. apply filter_In in He.
      destruct He as [_ He]. apply negb_true_iff in He. exact He.
Qed.

Lemma higher_threshold_is_prefix_witness :
  exists larger smaller,
    find_large_files (tree_os "/tmp/m" media) {| directory := "/tmp/m" |}
      (inject_Z 6) = Ok larger
    /\ find_large_files (tree_os "/tmp/m" media) {| directory := "/tmp/m" |}
         (inject_Z 5) = Ok (larger ++ smaller)%list
    /\ Forall (fun e => large_enough (inject_Z 6) e = false) smaller.
Proof.
  apply (higher_threshold_is_prefix (tree_os "/tmp/m" media)
           {| directory := "/tmp/m" |} (inject_Z 5) (inject_Z 6)).
  unfold Qle; simpl; lia.
Defined.

Lemma at_least_below_zero (m : Q) (size : Z) :
  (m <= 0)%Q -> 0 <= size -> at_least_mb m size = true.
Proof.
  intros Hm Hs. apply (at_least_mb_lower m 0 size Hm), at_least_zero, Hs.
Qed.

(** X10: a threshold of zero or less excludes nothing: the result is the
    one for the threshold 0, every accessible file. *)
Theorem nonpositive_threshold_lists_everything (os : OS)
        (self : FileAnalyzer.t) (min_size_mb : Q) :
  (min_size_mb <= 0)%Q ->
  find_large_files os self min_size_mb = find_large_files os self 0
  /\ exists all_files,
      find_large_files os self min_size_mb = Ok all_files
      /\ List.length all_files = List.length (accessible_files os self).
Proof.
  intros Hm.
  assert (E : encounter_order os self min_size_mb
              = map entry_of (accessible_files os self)).
  { unfold encounter_order. f_equal.
    pose proof (sizes_nonnegative os self) as Hpos.
    induction Hpos as [|f l Hf _ IH]; simpl; [reflexivity|].
    rewrite (at_least_below_zero _ _ Hm Hf), IH. reflexivity. }
  rewrite !find_large_files_run, encounter_order_zero, E.
  split; [reflexivity|]. eexists. split; [reflexivity|].
  destruct (sorted_reverse_spec size_bytes (map entry_of (accessible_files os self)))
    as (_ & Hperm & _).
  rewrite <- (Permutation_length Hperm). apply length_map.
Qed.

Lemma nonpositive_threshold_lists_everything_witness :
  find_large_files (tree_os "/tmp/m" media) {| directory := "/tmp/m" |}
    (inject_Z (-3))
  = find_large_files (tree_os "/tmp/m" media) {| directory := "/tmp/m" |} 0
  /\ exists all_files,
      find_large_files (tree_os "/tmp/m" media) {| directory := "/tmp/m" |}
        (inject_Z (-3)) = Ok all_files
      /\ List.length all_files
         = List.length (accessible_files (tree_os "/tmp/m" media)
                          {| directory := "/tmp/m" |}).
Proof.
  apply (nonpositive_threshold_lists_everything (tree_os "/tmp/m" media)
           {| directory := "/tmp/m" |} (inject_Z (-3))).
  unfold Qle; simpl; lia.
Defined.

Lemma encounter_order_large (os : OS) (self : FileAnalyzer.t) (m : Q) :
  Forall (fun e => large_enough m e = true) (encounter_order os self m).
Proof.
  unfold encounter_order. apply Forall_map, Forall_forall.
  intros f Hf. apply filter_In in Hf. exact (proj2 Hf).
Qed.

Lemma find_large_files_large (os : OS) (self : FileAnalyzer.t) (m : Q) :
  Forall (fun e => large_enough m e = true)
    (sorted (encounter_order os self m) size_bytes true).
Proof.
  destruct (sorted_reverse_spec size_bytes (encounter_order os self m))
    as (_ & Hperm & _).
  eapply Permutation_Forall; [exact Hperm|apply encounter_order_large].
Qed.



Lemma large_enough_bytes (n : Z) (e : LargeFile) :
  large_enough (inject_Z n) e = true <-> n * 1048576 <= size_bytes e.
Proof.
  unfold large_enough, at_least_mb. rewrite Qle_bool_iff.
  unfold Qle; simpl. lia.
Qed.

Lemma StronglySorted_app_inv {A} (R : A -> A -> Prop) (l1 l2 : list A) :
  StronglySorted R (l1 ++ l2) ->
  Forall (fun a => Forall (R a) l2) l1.
Proof.
  induction l1 as [|x l1 IH]; simpl; intros H.
  - constructor.
  - inversion H as [|? ? Hs Hx]; subst. constructor.
    + apply Forall_app in Hx. exact (proj2 Hx).
    + apply IH, Hs.
Qed.

(** X12: the [large_files] of the report are files of at least
    [10 * 1024 * 1024] bytes, at most ten of them, and the largest ones:
    every file of that size that the report leaves out is no larger than
    each file it lists.  A directory whose files are all smaller gets an
    empty [large_files]. *)
Theorem report_lists_ten_largest (os : OS) (self : FileAnalyzer.t)
        (output_file : string) (d : disk) :
  exists report listed left_out,
    (forall output_path d',
        generate_report os self output_file d = (Ok output_path, d') ->
        d' output_path = Some (Whole report))
    /\ (os_open_w os (join (directory self) output_file) = true ->
        os_json_dump os (join (directory self) output_file) report = None ->
        generate_report os self output_file d
        = (Ok (join (directory self) output_file),
           written d (join (directory self) output_file) report))
    /\ field report "large_files"
       = Some (JArr (map (fun e => entry_object (path e) (size_bytes e) (size_mb e))
                       listed))
    /\ find_large_files os self default_min_size_mb
       = Ok (listed ++ left_out)%list
    /\ (List.length listed <= 10)%nat
    /\ (left_out = [] \/ List.length listed = 10%nat)
    /\ Forall (fun e => ten_mb <= size_bytes e) listed
    /\ Forall (fun e => Forall (fun e' => size_bytes e' <= size_bytes e) left_out)
         listed
    /\ (Forall (fun f => sf_size f < ten_mb) (accessible_files os self) ->
        listed = []).
Proof.
  rewrite generate_report_run. cbv zeta.
  rewrite find_large_files_run.
  set (l := sorted (encounter_order os self default_min_size_mb) size_bytes true).
  exists (json_of_report (report_of os self)), (firstn 10 l), (skipn 10 l).
  split.
  { intros output_path d'.
    destruct (os_open_w os (join (directory self) output_file));
      [|discriminate].
    destruct (os_json_dump os (join (directory self) output_file)
                (json_of_report (report_of os self))); [discriminate|].
    intros [= <- <-]. unfold written. rewrite String.eqb_refl. reflexivity. }
  split.
  { intros Hopen Hdump. rewrite Hopen, Hdump. reflexivity. }
  split; [reflexivity|].
  rewrite firstn_skipn. split; [reflexivity|].
  split; [apply firstn_le_length|].
  split.
  { destruct (Nat.le_gt_cases (List.length l) 10) as [Hle|Hgt].
    - left. apply skipn_all2, Hle.
    - right. apply firstn_length_le. lia. }
  pose proof (find_large_files_large os self default_min_size_mb) as Hlarge.
  fold l in Hlarge.
  assert (Hlisted : Forall (fun e => ten_mb <= size_bytes e) (firstn 10 l)).
  { rewrite <- (firstn_skipn 10 l) in Hlarge.
    apply Forall_app in Hlarge. destruct Hlarge as [Hlisted _].
    eapply Forall_impl; [|exact Hlisted]. intros e He.
    apply (large_enough_bytes 10) in He. unfold ten_mb. lia. }
  split; [exact Hlisted|].
  split.
  - destruct (sorted_reverse_spec size_bytes
                (encounter_order os self default_min_size_mb)) as (Hs & _).
    fold l in Hs. rewrite <- (firstn_skipn 10 l) in Hs.
    exact (StronglySorted_app_inv _ _ _ Hs).
  - intros Hsmall.
    destruct (sorted_reverse_spec size_bytes
                (encounter_order os self default_min_size_mb)) as (_ & Hperm & _).
    fold l in Hperm.
    destruct (firstn 10 l) as [|e rest] eqn:E; [reflexivity|exfalso].
    inversion Hlisted as [|? ? He _]; subst.
    assert (Hin : In e l).
    { rewrite <- (firstn_skipn 10 l), E. left. reflexivity. }
    apply (Permutation_in _ (Permutation_sym Hperm)) in Hin.
    unfold encounter_order in Hin. apply in_map_iff in Hin.
    destruct Hin as (f & <- & Hf). apply filter_In in Hf.
    rewrite Forall_forall in Hsmall. specialize (Hsmall f (proj1 Hf)).
    simpl in He. lia.
Qed.

Lemma report_lists_ten_largest_witness :
  exists report listed left_out,
    generate_report (tree_os "/tmp/m" media) {| directory := "/tmp/m" |}
      "file_report.json" empty_disk
    = (Ok "/tmp/m/file_report.json",
       written empty_disk "/tmp/m/file_report.json" report)
    /\ field report "large_files"
       = Some (JArr (map (fun e => entry_object (path e) (size_bytes e) (size_mb e))
                       listed))
    /\ find_large_files (tree_os "/tmp/m" media) {| directory := "/tmp/m" |}
         default_min_size_mb
       = Ok (listed ++ left_out)%list
    /\ Forall (fun e => ten_mb <= size_bytes e) listed.
Proof.
  destruct (report_lists_ten_largest (tree_os "/tmp/m" media)
              {| directory := "/tmp/m" |} "file_report.json" empty_disk)
    as (report & listed & left_out & _ & Hrun & Hfield & Hfind & _ & _ & Hten & _).
  exists report, listed, left_out.
  split; [apply Hrun; reflexivity|].
  split; [exact Hfield|]. split; [exact Hfind|exact Hten].
Defined.

(** X13: a file whose size cannot be read is still listed by
    [get_files_by_extension()], under its key, while no list of large
    files, for any threshold, holds its path. *)
Theorem unreadable_file_is_listed_not_sized (os : OS) (self : FileAnalyzer.t)
        (root file : string) :
  In (root, file) (walk_files os self) ->
  os_path_getsize os (join root file) = None ->
  In (join root file)
     (defaultdict_get [] (get_files_by_extension os self None)
        (ExtensionKey os file))
  /\ forall min_size_mb,
      exists large_files,
        find_large_files os self min_size_mb = Ok large_files
        /\ ~ In (join root file) (map path large_files).
Proof.
  intros Hin Hsize. split.
  - rewrite get_files_by_extension_run.
    destruct (classify_fold os None (walk_files os self) []) as (_ & _ & _ & Hget).
    rewrite Hget. simpl.
    apply (in_map (fun rf => join (fst rf) (snd rf)) _ (root, file)).
    apply filter_In. split; [exact Hin|]. simpl. apply String.eqb_refl.
  - intros m. rewrite find_large_files_run. eexists. split; [reflexivity|].
    intros Hp. apply in_map_iff in Hp. destruct Hp as (e & Hpath & He).
    destruct (sorted_reverse_spec size_bytes (encounter_order os self m))
      as (_ & Hperm & _).
    apply (Permutation_in _ (Permutation_sym Hperm)) in He.
    unfold encounter_order in He. apply in_map_iff in He.
    destruct He as (f & <- & Hf). apply filter_In in Hf. destruct Hf as [Hf _].
    pose proof (accessible_files_readable os self) as Hall.
    rewrite Forall_forall in Hall. destruct (Hall f Hf) as [E _].
    simpl in Hpath. rewrite Hpath in E. congruence.
Qed.

Lemma unreadable_file_is_listed_not_sized_witness :
  (In "/tmp/m/lost.dat"
      (defaultdict_get []
         (get_files_by_extension (tree_os "/tmp/m" media)
            {| directory := "/tmp/m" |} None) ".dat")
   /\ forall min_size_mb,
       exists large_files,
         find_large_files (tree_os "/tmp/m" media) {| directory := "/tmp/m" |}
           min_size_mb = Ok large_files
         /\ ~ In "/tmp/m/lost.dat" (map path large_files))
  /\ In "/tmp/u/lost.Я"
       (defaultdict_get []
          (get_files_by_extension
             (tree_os_with Examples.letters "/tmp/u" Examples.reports)
             Examples.at_tmp_u None) ".я").
Proof.
  split.
  - apply (unreadable_file_is_listed_not_sized (tree_os "/tmp/m" media)
             {| directory := "/tmp/m" |} "/tmp/m" "lost.dat").
    + vm_compute. tauto.
    + reflexivity.
  - apply (unreadable_file_is_listed_not_sized
             (tree_os_with Examples.letters "/tmp/u" Examples.reports)
             Examples.at_tmp_u "/tmp/u" "lost.Я").
    + vm_compute. tauto.
    + reflexivity.
Defined.

(** ** Extensions *)

(** X14: a name without a dot has no extension, and neither has a hidden
    name, a dot followed by a name without dot: the extension key of both
    is the empty string and [splitext] leaves the name whole. *)
Theorem dotless_and_hidden_names (os : OS) (name : string) :
  rfind name extsep = -1
  \/ (exists s, name = String extsep s /\ rfind s extsep = -1) ->
  splitext name = (name, "") /\ ExtensionKey os name = "".
Proof.
  intros H.
  assert (E : splitext name = (name, "")).
  { unfold splitext, _splitext. destruct H as [H|(s & -> & Hs)].
    - rewrite H. destruct (rfind_from_range name sep 0) as [E|E];
        unfold rfind; [rewrite E; reflexivity|].
      replace (rfind_from name sep 0 <? -1) with false
        by (symmetry; apply Z.ltb_ge; lia).
      reflexivity.
    - assert (Hdot : rfind (String extsep s) extsep = 0).
      { unfold rfind. apply (rfind_from_last "" s extsep 0); [lia|exact Hs]. }
      rewrite Hdot.
      destruct (rfind_from_range (String extsep s) sep 0) as [E|E];
        unfold rfind.
      + rewrite E. reflexivity.
      + replace (rfind_from (String extsep s) sep 0 <? 0) with false
          by (symmetry; apply Z.ltb_ge; lia).
        reflexivity. }
  split; [exact E|]. unfold ExtensionKey. rewrite E. apply str_lower_empty.
Qed.

Lemma dotless_and_hidden_names_witness :
  splitext ".bashrc" = (".bashrc", "")
  /\ ExtensionKey (tree_os "/tmp/m" media) ".bashrc" = "".
Proof.
  apply (dotless_and_hidden_names (tree_os "/tmp/m" media) ".bashrc").
  right. exists "bashrc". split; reflexivity.
Defined.

(** X15: for a name without separator that does not start with a dot, the
    extension is the text from the last dot on, and the key is that text
    in lower case, which for an ASCII extension is the text with its
    capitals [A] to [Z] lowered; the dots before the last one stay in the
    stem. *)
Theorem extension_is_last_suffix (os : OS) (c : ascii) (stem e : string) :
  c <> extsep ->
  rfind e extsep = -1 ->
  rfind (String c stem ++ String extsep e) sep = -1 ->
  splitext (String c stem ++ String extsep e) = (String c stem, String extsep e)
  /\ ExtensionKey os (String c stem ++ String extsep e)
     = str_lower os (String extsep e)
  /\ (is_ascii e = true ->
      ExtensionKey os (String c stem ++ String extsep e)
      = String extsep (ascii_lower e))
  /\ exists e',
      ExtensionKey os (String c stem ++ String extsep e) = String extsep e'
      /\ ascii_lower e' = e'.
Proof.
  intros Hc He Hsep.
  pose proof (splitext_extension "" c stem e eq_refl Hc He Hsep) as E.
  cbn [append] in E. change (String c (stem ++ String extsep e))
    with (String c stem ++ String extsep e) in E.
  unfold ExtensionKey. rewrite E. cbn [snd].
  split; [reflexivity|]. split; [reflexivity|]. split.
  - intros Hascii. apply (str_lower_ascii os (String extsep e)).
    simpl. exact Hascii.
  - destruct (str_lower_dot os e) as (e' & E'). exists e'.
    split; [exact E'|].
    pose proof (str_lower_no_capital os (String extsep e)) as Hlow.
    rewrite E' in Hlow. simpl in Hlow. injection Hlow as Hlow. exact Hlow.
Qed.

Lemma extension_is_last_suffix_witness :
  splitext "Archive.tar.GZ" = ("Archive.tar", ".GZ")
  /\ ExtensionKey (tree_os "/tmp/m" media) "Archive.tar.GZ" = ".gz".
Proof.
  destruct (extension_is_last_suffix (tree_os "/tmp/m" media)
              "A" "rchive.tar" "GZ") as (Hsplit & _ & Hkey & _).
  - discriminate.
  - reflexivity.
  - reflexivity.
  - split; [exact Hsplit|]. apply Hkey. reflexivity.
Defined.

(** ** The command line *)

Lemma printed_nil (w : world) : printed w [] = w.
Proof. destruct w. unfold printed; simpl. rewrite app_nil_r. reflexivity. Qed.

Lemma printed_app (w : world) (a b : list line) :
  printed (printed w a) b = printed w (a ++ b).
Proof. unfold printed; simpl. rewrite app_assoc. reflexivity. Qed.

(** A [print] followed by the rest of a block. *)
Lemma bind_print {A} (os : OS) (l : line) (k : M world A) (w : world) :
  bind (print os l) (fun _ => k) w
  = match os_print os (stdout w) l with
    | None => k (printed w [l])
    | Some e => (Raise (exn_of e), w)
    end.
Proof.
  unfold bind, print. destruct (os_print os (stdout w) l); reflexivity.
Qed.

Lemma print_run (os : OS) (l : line) (w : world) :
  print os l w = print_lines os [l] w.
Proof.
  unfold print. simpl. destruct (os_print os (stdout w) l); reflexivity.
Qed.

Lemma print_lines_app (os : OS) (a b : list line) (w : world) :
  print_lines os (a ++ b) w
  = match print_lines os a w with
    | (Ok _, w1) => print_lines os b w1
    | r => r
    end.
Proof.
  revert w; induction a as [|l a IH]; intros w; simpl.
  - reflexivity.
  - destruct (os_print os (stdout w) l); [reflexivity|apply IH].
Qed.

(** A loop of [print]. *)
Lemma for_print {X} (os : OS) (body : X -> M world unit) (f : X -> line)
      (l : list X) (w : world) :
  (forall x, body x = print os (f x)) ->
  for_ l body w = print_lines os (map f l) w.
Proof.
  intros Hbody. revert w; induction l as [|x l IH]; intros w.
  - reflexivity.
  - cbn [for_ map print_lines]. rewrite Hbody, bind_print.
    destruct (os_print os (stdout w) (f x)); [reflexivity|apply IH].
Qed.

Lemma bind_for_print {X A} (os : OS) (body : X -> M world unit) (f : X -> line)
      (l : list X) (k : M world A) (w : world) :
  (forall x, body x = print os (f x)) ->
  bind (for_ l body) (fun _ => k) w
  = match print_lines os (map f l) w with
    | (Ok _, w1) => k w1
    | (Raise e, w1) => (Raise e, w1)
    end.
Proof.
  intros Hbody. unfold bind. rewrite (for_print os body f l w Hbody).
  reflexivity.
Qed.

Lemma print_lines_ok (os : OS) (ls : list line) (w : world) :
  can_print os (stdout w) ls -> print_lines os ls w = (Ok tt, printed w ls).
Proof.
  revert w; induction ls as [|l ls IH]; intros w H; simpl.
  - rewrite printed_nil. reflexivity.
  - destruct H as [Hl H]. rewrite Hl, IH, printed_app by exact H. reflexivity.
Qed.

Lemma can_print_app (os : OS) (out a b : list line) :
  can_print os out (a ++ b)
  <-> can_print os out a /\ can_print os (out ++ a) b.
Proof.
  revert out; induction a as [|l a IH]; intros out; simpl.
  - rewrite app_nil_r. tauto.
  - rewrite IH, <- app_assoc. simpl. tauto.
Qed.

(** A system that prints every line can print any lines. *)
Lemma can_print_all (os : OS) (out ls : list line) :
  (forall out' l, os_print os out' l = None) -> can_print os out ls.
Proof.
  intros H. revert out; induction ls as [|l ls IH]; intros out; simpl.
  - exact I.
  - split; [apply H|apply IH].
Qed.

Lemma print_lines_stop (os : OS) (before after : list line) (l : line)
      (e : stream_error) (w : world) :
  can_print os (stdout w) before ->
  os_print os (stdout w ++ before) l = Some e ->
  print_lines os (before ++ l :: after) w = (Raise (exn_of e), printed w before).
Proof.
  intros Hbefore Hl. rewrite print_lines_app, (print_lines_ok os before w Hbefore).
  simpl. rewrite Hl. reflexivity.
Qed.

Lemma try_caught (os : OS) (body : M world unit) (w : world) :
  try_except_ValueError body (fun e => print os [Text ("Ошибка: " ++ e)]) w
  = caught os (body w).
Proof.
  unfold try_except_ValueError, caught.
  destruct (body w) as [[[]|[msg|msg|msg]] w']; try reflexivity;
    apply print_run.
Qed.

Lemma init_ok (os : OS) (directory : string) :
  os_path_exists os directory && os_path_isdir os directory = true ->
  __init__ os directory = Ok {| FileAnalyzer.directory := directory |}.
Proof.
  intros H. apply andb_true_iff in H. destruct H as [H1 H2].
  unfold __init__. rewrite H1, H2. reflexivity.
Qed.


(** The lines of a run before the report is written. *)
Lemma large_section_lines (os : OS) {A} (large_files : list LargeFile)
      (k : M world A) (w : world) :
  bind match large_files with
       | [] => ret tt
       | _ :: _ =>
           bind (print os [Text (newline ++ "Большие файлы (>5 МБ):")])
             (fun _ => for_ (take 5 large_files) (print_large_file os))
       end (fun _ => k) w
  = match print_lines os (large_section large_files) w with
    | (Ok _, w1) => k w1
    | (Raise e, w1) => (Raise e, w1)
    end.
Proof.
  destruct large_files as [|e l]; [reflexivity|].
  cbn [large_section print_lines].
  unfold bind at 1. rewrite bind_print.
  destruct (os_print os (stdout w)
              [Text (newline ++ "Большие файлы (>5 МБ):")]);
    [reflexivity|].
  unfold take.
  rewrite (for_print os (print_large_file os) large_file_line)
    by (intros x; reflexivity).
  reflexivity.
Qed.

(** What a run on a valid directory does: it prints the lines of the
    statistics up to the first one that cannot be printed, writes the
    report and prints its path; an error on the way goes to the
    handler. *)
Lemma main_valid_run (os : OS) (prog directory : string) (w : world) :
  os_path_exists os directory && os_path_isdir os directory = true ->
  let analyzer := {| FileAnalyzer.directory := directory |} in
  let stats :=
    stats_of (fold_left (count_file os) (accessible_files os analyzer) no_file) in
  let large_files :=
    sorted (encounter_order os analyzer (inject_Z 5)) size_bytes true in
  let lines := (heading directory stats
                ++ map extension_line (extensions_count stats)
                ++ large_section large_files)%list in
  let p := join directory default_output_file in
  let report := json_of_report (report_of os analyzer) in
  main os [prog; directory] w
  = caught os
      match print_lines os lines w with
      | (Ok _, w1) =>
          if os_open_w os p then
            match os_json_dump os p report with
            | None => print_lines os [report_line p] (stored w1 p report)
            | Some e => (Raise (exn_of e), spoiled w1 p report)
            end
          else (Raise (OSError p), w1)
      | r => r
      end.
Proof.
  intros Hvalid. cbv zeta. unfold main.
  change (negb (len [prog; directory] =? 2)) with false. cbv iota.
  change (nth 1 [prog; directory] "") with directory.
  rewrite try_caught. f_equal.
  unfold bind at 1, call. rewrite (init_ok os directory Hvalid).
  set (stats := stats_of _).
  cbn [heading app print_lines].
  rewrite bind_print.
  destruct (os_print os (stdout w) [Text ("Анализ директории: " ++ directory)]);
    [reflexivity|].
  rewrite bind_print.
  destruct (os_print os _ [Text (str_mul "-" 50)]); [reflexivity|].
  unfold bind at 1. rewrite get_file_stats_run. fold stats.
  rewrite bind_print.
  destruct (os_print os _ [Text "Всего файлов: "; Int (total_files stats)]);
    [reflexivity|].
  rewrite bind_print.
  destruct (os_print os _ [Text "Общий размер: "; Float (total_size_mb stats);
                           Text " МБ"]); [reflexivity|].
  rewrite bind_print.
  destruct (os_print os _ [Text (newline ++ "Типы файлов:")]); [reflexivity|].
  rewrite !printed_app. cbn [app].
  set (w0 := printed w _).
  rewrite (bind_for_print os (print_extension os) extension_line)
    by (intros [ext count]; reflexivity).
  rewrite print_lines_app.
  destruct (print_lines os (map extension_line (extensions_count stats)) w0)
    as [[[]|e] w1]; [|reflexivity].
  unfold bind at 1. rewrite find_large_files_run.
  rewrite large_section_lines.
  destruct (print_lines os
              (large_section
                 (sorted (encounter_order os {| directory := directory |}
                            (inject_Z 5)) size_bytes true)) w1)
    as [[[]|e] w2]; [|reflexivity].
  destruct w2 as [out fs].
  unfold bind at 1, on_disk. rewrite generate_report_run. cbv zeta.
  cbn [FileAnalyzer.directory].
  destruct (os_open_w os (join directory default_output_file)); [|reflexivity].
  destruct (os_json_dump os (join directory default_output_file)
              (json_of_report (report_of os {| directory := directory |})));
    [reflexivity|].
  apply print_run.
Qed.





















(** X23: when the report can be opened but not encoded for its file,
    [main] catches the [UnicodeEncodeError] of [json.dump], a
    [ValueError]: it prints the statistics, then the line of the error
    instead of the line of the report, and returns normally; the file of
    the report is left with the beginning of the document.  An [OSError]
    of [json.dump] leaves [main] and leaves the same file. *)
Theorem main_reports_unwritten_report (os : OS) (prog directory : string)
        (w : world) :
  os_path_exists os directory && os_path_isdir os directory = true ->
  os_open_w os (join directory default_output_file) = true ->
  exists stats large_files report,
    get_file_stats os {| FileAnalyzer.directory := directory |} = Ok stats
    /\ find_large_files os {| FileAnalyzer.directory := directory |} (inject_Z 5)
       = Ok large_files
    /\ (forall output_path d',
           generate_report os {| FileAnalyzer.directory := directory |}
             default_output_file (files w) = (Ok output_path, d') ->
           d' output_path = Some (Whole report))
    /\ (forall msg,
           can_print os (stdout w)
             (heading directory stats
              ++ map extension_line (extensions_count stats)
              ++ large_section large_files
              ++ [error_line msg])%list ->
           os_json_dump os (join directory default_output_file) report
           = Some (NotEncodable msg) ->
           main os [prog; directory] w
           = (Ok tt,
              {| stdout :=
                   (stdout w
                    ++ heading directory stats
                    ++ map extension_line (extensions_count stats)
                    ++ large_section large_files
                    ++ [error_line msg])%list;
                 files :=
                   cut_short (files w) (join directory default_output_file)
                     report |}))
    /\ (forall msg,
           can_print os (stdout w)
             (heading directory stats
              ++ map extension_line (extensions_count stats)
              ++ large_section large_files)%list ->
           os_json_dump os (join directory default_output_file) report
           = Some (NotWritable msg) ->
           main os [prog; directory] w
           = (Raise (OSError msg),
              {| stdout :=
                   (stdout w
                    ++ heading directory stats
                    ++ map extension_line (extensions_count stats)
                    ++ large_section large_files)%list;
                 files :=
                   cut_short (files w) (join directory default_output_file)
                     report |})).
Proof.
  intros Hvalid Hopen. do 2 eexists.
  exists (json_of_report (report_of os {| FileAnalyzer.directory := directory |})).
  split; [apply get_file_stats_run|].
  split; [apply find_large_files_run|].
  split.
  { intros output_path d'. rewrite generate_report_run. cbv zeta.
    cbn [FileAnalyzer.directory]. rewrite Hopen.
    destruct (os_json_dump os (join directory default_output_file)
                (json_of_report (report_of os {| directory := directory |})));
      [discriminate|].
    intros [= <- <-]. unfold written. rewrite String.eqb_refl. reflexivity. }
  rewrite (main_valid_run os prog directory w Hvalid). cbv zeta.
  rewrite Hopen. split.
  - intros msg Hprint Hdump.
    rewrite !app_assoc in Hprint. apply can_print_app in Hprint.
    destruct Hprint as [Hlines Hlast]. rewrite <- !app_assoc in Hlines, Hlast.
    rewrite (print_lines_ok os _ w Hlines), Hdump.
    unfold caught, exn_of.
    match goal with
    | |- context [print_lines os ?ls ?w'] =>
        rewrite (print_lines_ok os ls w' Hlast)
    end.
    unfold printed, spoiled; cbn [stdout files].
    rewrite <- !app_assoc. reflexivity.
  - intros msg Hprint Hdump.
    rewrite (print_lines_ok os _ w Hprint), Hdump. reflexivity.
Qed.

Lemma main_reports_unwritten_report_witness :
  exists stats large_files report,
    main (unencodable_report (tree_os "/tmp/m" media)) ["analyzer.py"; "/tmp/m"]
      empty_world
    = (Ok tt,
       {| stdout :=
            (heading "/tmp/m" stats
             ++ map extension_line (extensions_count stats)
             ++ large_section large_files
             ++ [error_line "surrogates not allowed"])%list;
          files := cut_short empty_disk "/tmp/m/file_report.json" report |}).
Proof.
  destruct (main_reports_unwritten_report
              (unencodable_report (tree_os "/tmp/m" media))
              "analyzer.py" "/tmp/m" empty_world eq_refl eq_refl)
    as (stats & large_files & report & _ & _ & _ & Hrun & _).
  exists stats, large_files, report.
  apply (Hrun "surrogates not allowed").
  - apply can_print_all. reflexivity.
  - reflexivity.
Defined.

(** X24: a line of the statistics that cannot be printed ends the run.
    When the output cannot encode it, [main] catches the
    [UnicodeEncodeError] of [print], prints the line of the error after
    the lines printed so far, and returns normally without writing the
    report; when the output cannot be written, the [OSError] of [print]
    leaves [main]. *)
Theorem main_stops_at_unprintable_line (os : OS) (prog directory : string)
        (w : world) :
  os_path_exists os directory && os_path_isdir os directory = true ->
  exists stats large_files,
    get_file_stats os {| FileAnalyzer.directory := directory |} = Ok stats
    /\ find_large_files os {| FileAnalyzer.directory := directory |} (inject_Z 5)
       = Ok large_files
    /\ forall before l after msg,
        (heading directory stats
         ++ map extension_line (extensions_count stats)
         ++ large_section large_files)%list
        = (before ++ l :: after)%list ->
        can_print os (stdout w) before ->
        (os_print os (stdout w ++ before) l = Some (NotEncodable msg) ->
         os_print os (stdout w ++ before) (error_line msg) = None ->
         main os [prog; directory] w
         = (Ok tt, printed w (before ++ [error_line msg])))
        /\ (os_print os (stdout w ++ before) l = Some (NotWritable msg) ->
            main os [prog; directory] w
            = (Raise (OSError msg), printed w before)).
Proof.
  intros Hvalid. do 2 eexists.
  split; [apply get_file_stats_run|].
  split; [apply find_large_files_run|].
  intros before l after msg Hlines Hbefore.
  rewrite (main_valid_run os prog directory w Hvalid). cbv zeta.
  rewrite Hlines. split.
  - intros Hl Hlast.
    rewrite (print_lines_stop os before after l _ w Hbefore Hl).
    unfold caught, exn_of. cbn [print_lines printed stdout].
    rewrite Hlast. unfold printed; cbn [stdout files].
    rewrite <- app_assoc. reflexivity.
  - intros Hl.
    rewrite (print_lines_stop os before after l _ w Hbefore Hl).
    reflexivity.
Qed.

Lemma main_stops_at_unprintable_line_witness :
  (exists stats,
      get_file_stats (terminal_without "clip" (tree_os "/tmp/m" media))
        {| FileAnalyzer.directory := "/tmp/m" |} = Ok stats
      /\ main (terminal_without "clip" (tree_os "/tmp/m" media))
           ["analyzer.py"; "/tmp/m"] empty_world
         = (Ok tt,
            printed empty_world
              ((heading "/tmp/m" stats
                ++ map extension_line (extensions_count stats)
                ++ [ [Text (newline ++ "Большие файлы (>5 МБ):")];
                     [Text "  "; Float (Qmake 3000 100);
                      Text " МБ: /tmp/m/old/movie.mkv"] ])
               ++ [error_line "codec can't encode character"])))
  /\ main (closed_after 2 (tree_os "/tmp/m" media)) ["analyzer.py"; "/tmp/m"]
       empty_world
     = (Raise (OSError "Broken pipe"),
        printed empty_world
          [ [Text "Анализ директории: /tmp/m"]; [Text (str_mul "-" 50)] ]).
Proof.
  split.
  - destruct (main_stops_at_unprintable_line
                (terminal_without "clip" (tree_os "/tmp/m" media))
                "analyzer.py" "/tmp/m" empty_world eq_refl)
      as (stats & large_files & Hstats & Hlarge & Hrun).
    exists stats. split; [exact Hstats|].
    injection Hstats as <-. injection Hlarge as <-.
    apply (Hrun _
             [Text "  "; Float (Qmake 700 100); Text " МБ: /tmp/m/clip.MP4"]
             [ [Text "  "; Float (Qmake 500 100); Text " МБ: /tmp/m/raw.bin"] ]
             "codec can't encode character").
    + reflexivity.
    + vm_compute. tauto.
    + reflexivity.
    + reflexivity.
  - destruct (main_stops_at_unprintable_line
                (closed_after 2 (tree_os "/tmp/m" media))
                "analyzer.py" "/tmp/m" empty_world eq_refl)
      as (stats & large_files & Hstats & Hlarge & Hrun).
    injection Hstats as <-. injection Hlarge as <-.
    eapply (Hrun [ [Text "Анализ директории: /tmp/m"]; [Text (str_mul "-" 50)] ]
              _ _ "Broken pipe").
    + cbn [heading app]. reflexivity.
    + vm_compute. tauto.
    + reflexivity.
Defined.



(** ** Megabytes *)

(** The megabytes of 5242 bytes and of 5243 bytes. *)
Lemma size_mb_small (size : Z) :
  0 <= size ->
  (size <= 5242 -> round2 (truediv size (1024 * 1024)) = Qmake 0 100)
  /\ (5243 <= size -> (Qmake 1 100 <= round2 (truediv size (1024 * 1024)))%Q).
Proof.
  intros Hsize. split.
  - intros Hle.
    pose proof (size_mb_monotone 0 size ltac:(lia) Hsize) as Hlow.
    pose proof (size_mb_monotone size 5242 Hsize Hle) as Hhigh.
    unfold round2 in *. f_equal.
    change (round_half_even (truediv 0 (1024 * 1024) * inject_Z 100)) with 0
      in Hlow.
    change (round_half_even (truediv 5242 (1024 * 1024) * inject_Z 100)) with 0
      in Hhigh.
    set (h := round_half_even (truediv size (1024 * 1024) * inject_Z 100)) in *.
    unfold Qle in Hlow, Hhigh. cbn [Qnum Qden] in Hlow, Hhigh. lia.
  - intros Hge.
    pose proof (size_mb_monotone 5243 size ltac:(lia) Hge) as H.
    exact H.
Qed.

(** X21: the megabytes of the summary are [0.0] exactly when the
    accessible files hold at most 5242 bytes together, so a directory of
    small files shows no size although it is not empty; from 5243 bytes
    on the summary shows at least [0.01]. *)
Theorem small_totals_round_to_zero (os : OS) (self : FileAnalyzer.t) :
  exists stats,
    get_file_stats os self = Ok stats
    /\ (total_size_mb stats = Qmake 0 100 <-> total_size_bytes stats <= 5242)
    /\ ((Qmake 1 100 <= total_size_mb stats)%Q <-> 5243 <= total_size_bytes stats).
Proof.
  rewrite get_file_stats_run.
  set (stats := stats_of (fold_left (count_file os) (accessible_files os self)
                            no_file)).
  exists stats. split; [reflexivity|].
  assert (Emb : total_size_mb stats
                = round2 (truediv (total_size_bytes stats) (1024 * 1024)))
    by reflexivity.
  assert (Hsize : 0 <= total_size_bytes stats).
  { unfold stats. cbn [total_size_bytes stats_of].
    rewrite count_file_total_size. simpl.
    apply sum_nonnegative, Forall_map, sizes_nonnegative. }
  rewrite Emb. clear Emb.
  destruct (size_mb_small (total_size_bytes stats) Hsize) as [Hsmall Hlarge].
  assert (Hnot : ~ (Qmake 1 100 <= Qmake 0 100)%Q)
    by (unfold Qle; simpl; lia).
  split; split.
  - intros E.
    destruct (Z_le_gt_dec (total_size_bytes stats) 5242) as [H|H]; [exact H|].
    exfalso. apply Hnot. rewrite <- E. apply Hlarge. lia.
  - exact Hsmall.
  - intros H.
    destruct (Z_le_gt_dec 5243 (total_size_bytes stats)) as [H'|H']; [exact H'|].
    exfalso. apply Hnot. rewrite <- Hsmall by lia. exact H.
  - exact Hlarge.
Qed.

Lemma sorted_by_size_mb (l : list LargeFile) :
  StronglySorted (descending size_bytes) l ->
  Forall (fun e => size_mb e = round2 (truediv (size_bytes e) (1024 * 1024))
                   /\ 0 <= size_bytes e) l ->
  StronglySorted (fun a b => size_mb b <= size_mb a)%Q l.
Proof.
  induction 1 as [|x l Hs IH Hx]; intros Hmb.
  - constructor.
  - inversion Hmb as [|? ? [Ex _] Hl]; subst. constructor; [apply IH, Hl|].
    rewrite Forall_forall in *. intros y Hy.
    destruct (Hl y Hy) as [Ey Hy0]. rewrite Ex, Ey.
    apply size_mb_monotone; [exact Hy0|exact (Hx y Hy)].
Qed.

(** X22: the megabytes follow the bytes: a larger file never shows fewer
    megabytes, so the list [find_large_files] returns is sorted by
    non-increasing [size_mb] as well. *)
Theorem large_files_sorted_by_size_mb (os : OS) (self : FileAnalyzer.t)
        (min_size_mb : Q) :
  exists large_files,
    find_large_files os self min_size_mb = Ok large_files
    /\ StronglySorted (fun a b => size_mb b <= size_mb a)%Q large_files.
Proof.
  rewrite find_large_files_run. eexists. split; [reflexivity|].
  destruct (sorted_reverse_spec size_bytes (encounter_order os self min_size_mb))
    as (Hsorted & Hperm & _).
  assert (Hmb : Forall (fun e => size_mb e
                                 = round2 (truediv (size_bytes e) (1024 * 1024))
                                 /\ 0 <= size_bytes e)
                  (sorted (encounter_order os self min_size_mb) size_bytes true)).
  { eapply Permutation_Forall; [exact Hperm|].
    unfold encounter_order. apply Forall_map, Forall_forall.
    intros f Hf. apply filter_In in Hf. destruct Hf as [Hf _].
    pose proof (sizes_nonnegative os self) as Hpos.
    rewrite Forall_forall in Hpos. split; [reflexivity|exact (Hpos f Hf)]. }
  apply sorted_by_size_mb; assumption.
Qed.
